(** * Timeline-Journal: the wheel picker (src/js/wheel-picker.js)

    A shallow embedding of the selector column (createWheelColumn), the
    range helpers (range, getYearRange, getDaysInMonth) and the picker
    card (create) of wheel-picker.js, with the properties of the
    specification stated and proved on it.

    Conventions of the embedding.
    - Indices are JavaScript integers: [Z].  Pixel offsets and velocities
      are JavaScript numbers; they are idealised as exact rationals [Q]
      (no rounding), so 0.3, 0.92 and 0.5 are the fractions 3/10, 92/100
      and 5/10.
    - A number that may be NaN is a [number]; [items[i]] that may be
      undefined is an [option string].
    - The DOM (elements, classes, CSS transitions, title text) is left out:
      only the variables of the closures are state.
    - A column reports [onChange(index, items[index])] by emitting a
      [note]; the owner of the column runs its handler on every emitted
      note.  No handler of the picker touches the column that emitted the
      note, so running it after the column's own update is the same run. *)

From Stdlib Require Import ZArith QArith Qabs Qround String Ascii List Bool Lia Lqa DecimalString DecimalPos.
From stdpp Require Import base list option.

Open Scope Z_scope.

(** ** JavaScript values used by the picker *)

(** A JavaScript number that is an integer or NaN. *)
Inductive number : Type :=
| NaN
| Num (z : Z).

#[global] Instance number_eq_dec : EqDecision number.
Proof. solve_decision. Defined.

(** [String(i)] for an integer [i]. *)
Definition String_of (i : Z) : string :=
  NilZero.string_of_int (Z.to_int i).

Fixpoint repeat_char (n : nat) (c : ascii) : string :=
  match n with
  | O => EmptyString
  | S k => String c (repeat_char k c)
  end.

(** [s.padStart(n, c)] for a one-character filler. *)
Definition padStart (n : nat) (c : ascii) (s : string) : string :=
  String.append (repeat_char (n - String.length s) c) s.

Definition digit_of (c : ascii) : option Z :=
  let n := Z.of_nat (nat_of_ascii c) in
  if (48 <=? n) && (n <=? 57) then Some (n - 48) else None.

Fixpoint digits_prefix (s : string) (acc : option Z) : option Z :=
  match s with
  | EmptyString => acc
  | String c r =>
      match digit_of c with
      | Some d => digits_prefix r (Some (10 * default 0 acc + d))
      | None => acc
      end
  end.

Fixpoint skip_spaces (s : string) : string :=
  match s with
  | String c r => if Ascii.eqb c " "%char then skip_spaces r else s
  | EmptyString => s
  end.

(** [parseInt(v)] in radix 10: leading blanks, an optional sign, the longest
    prefix of decimal digits; NaN when there is no digit, as for
    [undefined].  (The hexadecimal prefix is not modelled: the picker only
    parses strings made by [range].) *)
Definition parseInt (v : option string) : number :=
  match v with
  | None => NaN
  | Some s =>
      match skip_spaces s with
      | String "-"%char r =>
          match digits_prefix r None with Some n => Num (- n) | None => NaN end
      | String "+"%char r =>
          match digits_prefix r None with Some n => Num n | None => NaN end
      | r =>
          match digits_prefix r None with Some n => Num n | None => NaN end
      end
  end.

(** [items[i]]: undefined outside the array. *)
Definition item_at (l : list string) (i : Z) : option string :=
  if i <? 0 then None else l !! Z.to_nat i.

(** ** Configuration constants *)

Definition ITEM_HEIGHT : Z := 36.
Definition VISIBLE_ITEMS : Z := 3.
Definition WHEEL_HEIGHT : Z := ITEM_HEIGHT * VISIBLE_ITEMS.

(** ** Range helpers *)

Definition render (padZero : bool) (i : Z) : string :=
  if padZero then padStart 2 "0"%char (String_of i) else String_of i.

Fixpoint range_loop (n : nat) (i : Z) (padZero : bool) : list string :=
  match n with
  | O => []
  | S k => render padZero i :: range_loop k (i + 1) padZero
  end.

(** [range(start, end, padZero)]: the loop [for (i = start; i <= end; i++)]
    runs [end - start + 1] times when that is positive, and never when
    [start] is NaN, for [NaN <= end] is false. *)
Definition range (start : number) (end_ : Z) (padZero : bool) : list string :=
  match start with
  | NaN => []
  | Num s => range_loop (Z.to_nat (end_ - s + 1)) s padZero
  end.

(** What [getYearRange] finds in local storage under [diary_settings]:
    the outcome of [JSON.parse(localStorage.getItem(..) || '{}')] and of
    reading [settings.birthday]. *)
Inductive stored_settings : Type :=
| ItemMissing                   (* getItem gives null: '{}' is parsed *)
| ParseThrows                   (* JSON.parse throws, or the value is null *)
| NoBirthday                    (* parsed, [settings.birthday] is falsy *)
| Birthday (fullYear : number). (* truthy birthday; [fullYear] is what
                                   [new Date(birthday).getFullYear()] gives,
                                   NaN for an unparseable date *)

Definition birthYear_of (st : stored_settings) : number :=
  match st with
  | ItemMissing => Num 2000
  | ParseThrows => Num 2000
  | NoBirthday => Num 2000
  | Birthday y => y
  end.

(** [getYearRange()], with the stored settings and the clock's year. *)
Definition getYearRange (st : stored_settings) (currentYear : Z) : list string :=
  range (birthYear_of st) (currentYear + 1) false.

(** ** Calendar arithmetic of [Date] (local civil time, ECMA-262 20.4.1) *)

Record date : Type := mkDate { fullYear : Z; month : Z; day : Z }.

Definition DayFromYear (y : Z) : Z :=
  365 * (y - 1970) + (y - 1969) / 4 - (y - 1901) / 100 + (y - 1601) / 400.

Definition InLeapYear (y : Z) : bool :=
  if negb (y mod 4 =? 0) then false
  else if negb (y mod 100 =? 0) then true
  else if negb (y mod 400 =? 0) then false
  else true.

Definition month_starts : list Z :=
  [0; 31; 59; 90; 120; 151; 181; 212; 243; 273; 304; 334].

(** First day (within the year) of month [m] in 0..11. *)
Definition MonthStart (leap : bool) (m : Z) : Z :=
  default 0 (month_starts !! Z.to_nat m)
  + (if leap && (2 <=? m) then 1 else 0).

(** [MakeDay(year, month, date)]: months and days outside their range carry
    over. *)
Definition MakeDay (y m d : Z) : Z :=
  let ym := y + m / 12 in
  let mn := m mod 12 in
  DayFromYear ym + MonthStart (InLeapYear ym) mn + d - 1.

(** [YearFromTime]: the largest year that starts on or before the day. *)
Definition YearFromDay (d : Z) : Z :=
  let y0 := 1970 + (d * 400) / 146097 in
  if DayFromYear (y0 + 1) <=? d then y0 + 1
  else if DayFromYear y0 <=? d then y0
  else y0 - 1.

Fixpoint month_search (n : nat) (leap : bool) (dayInYear : Z) (m : Z) : Z :=
  match n with
  | O => m
  | S k =>
      if MonthStart leap (m + 1) <=? dayInYear
      then month_search k leap dayInYear (m + 1)
      else m
  end.

Definition date_of_day (d : Z) : date :=
  let y := YearFromDay d in
  let leap := InLeapYear y in
  let diy := d - DayFromYear y in
  let m := month_search 11 leap diy 0 in
  mkDate y m (diy - MonthStart leap m + 1).

(** [new Date(year, month, day)]; years 0..99 mean 1900..1999. *)
Definition newDate (y m d : Z) : date :=
  let y' := if (0 <=? y) && (y <=? 99) then 1900 + y else y in
  date_of_day (MakeDay y' m d).

Definition setFullYear (dt : date) (y : Z) : date :=
  date_of_day (MakeDay y (month dt) (day dt)).

Definition setMonth (dt : date) (m : Z) : date :=
  date_of_day (MakeDay (fullYear dt) m (day dt)).

Definition setDate (dt : date) (d : Z) : date :=
  date_of_day (MakeDay (fullYear dt) (month dt) d).

(** [getDaysInMonth(year, month)]: day 0 of the next month. *)
Definition getDaysInMonth (y m : Z) : Z :=
  day (newDate y m 0).

(** ** WheelColumn: one column of the picker (createWheelColumn) *)

(** The variables of the closure.  [scheduled] and [nextFrame] are the
    browser's side of [requestAnimationFrame]: the handle of the callback
    that waits for the next frame, and the next handle to give out. *)
Record column : Type := mkColumn {
  items : list string;
  currentIndex : Z;
  startY : Q;
  currentY : Q;
  lastY : Q;
  velocity : Q;
  isDragging : bool;
  animationId : option positive;
  scheduled : option positive;
  nextFrame : positive
}.

(** One call [onChange(index, items[index])]. *)
Definition note : Type := (Z * option string)%type.

Definition with_items (l : list string) (c : column) : column :=
  mkColumn l (currentIndex c) (startY c) (currentY c) (lastY c) (velocity c)
    (isDragging c) (animationId c) (scheduled c) (nextFrame c).

Definition with_currentIndex (i : Z) (c : column) : column :=
  mkColumn (items c) i (startY c) (currentY c) (lastY c) (velocity c)
    (isDragging c) (animationId c) (scheduled c) (nextFrame c).

Definition with_startY (y : Q) (c : column) : column :=
  mkColumn (items c) (currentIndex c) y (currentY c) (lastY c) (velocity c)
    (isDragging c) (animationId c) (scheduled c) (nextFrame c).

Definition with_currentY (y : Q) (c : column) : column :=
  mkColumn (items c) (currentIndex c) (startY c) y (lastY c) (velocity c)
    (isDragging c) (animationId c) (scheduled c) (nextFrame c).

Definition with_lastY (y : Q) (c : column) : column :=
  mkColumn (items c) (currentIndex c) (startY c) (currentY c) y (velocity c)
    (isDragging c) (animationId c) (scheduled c) (nextFrame c).

Definition with_velocity (v : Q) (c : column) : column :=
  mkColumn (items c) (currentIndex c) (startY c) (currentY c) (lastY c) v
    (isDragging c) (animationId c) (scheduled c) (nextFrame c).

Definition with_isDragging (b : bool) (c : column) : column :=
  mkColumn (items c) (currentIndex c) (startY c) (currentY c) (lastY c)
    (velocity c) b (animationId c) (scheduled c) (nextFrame c).

Definition with_animationId (a : option positive) (c : column) : column :=
  mkColumn (items c) (currentIndex c) (startY c) (currentY c) (lastY c)
    (velocity c) (isDragging c) a (scheduled c) (nextFrame c).

Definition with_scheduled (s : option positive) (c : column) : column :=
  mkColumn (items c) (currentIndex c) (startY c) (currentY c) (lastY c)
    (velocity c) (isDragging c) (animationId c) s (nextFrame c).

Definition with_nextFrame (n : positive) (c : column) : column :=
  mkColumn (items c) (currentIndex c) (startY c) (currentY c) (lastY c)
    (velocity c) (isDragging c) (animationId c) (scheduled c) n.

Definition Qltb (x y : Q) : bool := negb (Qle_bool y x).

Definition friction : Q := 0.92%Q.
Definition damping : Q := 0.3%Q.

Definition maxY : Q := 0%Q.

(** [-(items.length - 1) * ITEM_HEIGHT] *)
Definition minY (c : column) : Q :=
  inject_Z (- (Z.of_nat (length (items c)) - 1) * ITEM_HEIGHT).

(** The rest offset of an index: [-index * ITEM_HEIGHT]. *)
Definition offset_of (index : Z) : Q := inject_Z (- index * ITEM_HEIGHT).

(** [setPosition(index, animate)]: [animate] only chooses the CSS
    transition. *)
Definition setPosition (c : column) (index : Z) (animate : bool) : column :=
  with_currentY (offset_of index) c.

(** [Math.max(0, Math.min(items.length - 1, index))] *)
Definition clamp_index (l : list string) (index : Z) : Z :=
  Z.max 0 (Z.min (Z.of_nat (length l) - 1) index).

Definition scrollToIndex (c : column) (index : Z) (animate : bool)
  : column * list note :=
  let index := clamp_index (items c) index in
  if index =? currentIndex c
  then (setPosition c index animate, [])
  else (setPosition (with_currentIndex index c) index animate,
        [(index, item_at (items c) index)]).

(** [Math.round(-y / ITEM_HEIGHT)]: the nearest integer, halves upwards. *)
Definition getIndexFromPosition (y : Q) : Z :=
  Qfloor (- y / inject_Z ITEM_HEIGHT + 0.5)%Q.

(** [cancelAnimationFrame(id)] *)
Definition cancelAnimationFrame (id : positive) (c : column) : column :=
  match scheduled c with
  | Some id' => if Pos.eqb id id' then with_scheduled None c else c
  | None => c
  end.

(** [requestAnimationFrame(inertiaScroll)] and the assignment of its handle
    to [animationId]. *)
Definition requestAnimationFrame (c : column) : column :=
  let id := nextFrame c in
  with_animationId (Some id)
    (with_scheduled (Some id) (with_nextFrame (Pos.succ id) c)).

Definition handleStart (c : column) (clientY : Q) : column :=
  let c := with_isDragging true c in
  let c :=
    match animationId c with
    | Some id => with_animationId None (cancelAnimationFrame id c)
    | None => c
    end in
  let c := with_startY (clientY - currentY c)%Q c in
  let c := with_lastY clientY c in
  with_velocity 0%Q c.

Definition handleMove (c : column) (clientY : Q) : column :=
  if negb (isDragging c) then c
  else
    let newY := (clientY - startY c)%Q in
    let c := with_velocity (clientY - lastY c)%Q c in
    let c := with_lastY clientY c in
    let dampedY :=
      if Qltb maxY newY then (maxY + (newY - maxY) * damping)%Q
      else if Qltb newY (minY c) then (minY c + (newY - minY c) * damping)%Q
      else newY in
    with_currentY dampedY c.

(** The first two statements of [inertiaScroll]. *)
Definition inertiaAdvance (c : column) : column :=
  let c := with_velocity (velocity c * friction)%Q c in
  with_currentY (currentY c + velocity c)%Q c.

(** The stopping test of [inertiaScroll]. *)
Definition inertiaStops (c : column) : bool :=
  Qltb maxY (currentY c) || Qltb (currentY c) (minY c)
  || Qltb (Qabs (velocity c)) 0.5%Q.

Definition inertiaScroll (c : column) : column * list note :=
  let c := inertiaAdvance c in
  if inertiaStops c
  then scrollToIndex c (getIndexFromPosition (currentY c)) true
  else (requestAnimationFrame c, []).

Definition handleEnd (c : column) : column * list note :=
  if negb (isDragging c) then (c, [])
  else
    let c := with_isDragging false c in
    if Qltb 2%Q (Qabs (velocity c)) then inertiaScroll c
    else scrollToIndex c (getIndexFromPosition (currentY c)) true.

(** The browser runs the waiting frame callback, if there is one. *)
Definition frame (c : column) : column * list note :=
  match scheduled c with
  | Some _ => inertiaScroll (with_scheduled None c)
  | None => (c, [])
  end.

(** The click listener, for a click on the item whose [data-index] is
    [index]. *)
Definition handleClick (c : column) (index : Z) : column * list note :=
  scrollToIndex c index true.

(** [Math.sign] *)
Definition sign (x : Q) : Z := Z.sgn (Qnum x).

Definition handleWheel (c : column) (deltaY : Q) : column * list note :=
  scrollToIndex c (currentIndex c + sign deltaY) true.

(** The column's [_api]. *)
Definition getValue (c : column) : option string :=
  item_at (items c) (currentIndex c).

Definition getIndex (c : column) : Z := currentIndex c.

Definition setIndex (c : column) (index : Z) (animate : bool)
  : column * list note :=
  scrollToIndex c index animate.

Definition setItems (c : column) (newItems : list string) (newIndex : Z)
  : column * list note :=
  let c := with_items newItems c in
  scrollToIndex c (Z.min newIndex (Z.of_nat (length newItems) - 1)) false.

Definition destroy (c : column) : column :=
  match animationId c with
  | Some id => cancelAnimationFrame id c
  | None => c
  end.

(** [createWheelColumn({items, selectedIndex})] up to [return column]. *)
Definition createWheelColumn (l : list string) (selectedIndex : Z) : column :=
  setPosition
    (mkColumn l selectedIndex 0%Q 0%Q 0%Q 0%Q false None None 1%positive)
    selectedIndex false.

(** What can happen to a column between its creation and its disposal. *)
Inductive event : Type :=
| PointerDown (clientY : Q)      (* touchstart, mousedown *)
| PointerMove (clientY : Q)      (* touchmove, mousemove on the document *)
| PointerUp                      (* touchend, mouseup on the document *)
| Frame                          (* an animation frame *)
| Click (index : Z)
| Wheel (deltaY : Q)
| SetIndex (index : Z) (animate : bool)
| SetItems (newItems : list string) (newIndex : Z).

Definition step (c : column) (e : event) : column * list note :=
  match e with
  | PointerDown y => (handleStart c y, [])
  | PointerMove y => (handleMove c y, [])
  | PointerUp => handleEnd c
  | Frame => frame c
  | Click i => handleClick c i
  | Wheel d => handleWheel c d
  | SetIndex i a => setIndex c i a
  | SetItems l i => setItems c l i
  end.

Fixpoint run (c : column) (es : list event) : column * list note :=
  match es with
  | [] => (c, [])
  | e :: es' =>
      let '(c1, out1) := step c e in
      let '(c2, out2) := run c1 es' in
      (c2, out1 ++ out2)
  end.

(** The interaction states of the specification, read off the variables:
    Dragging while [isDragging]; Settling while a frame callback waits;
    Idle otherwise. *)
Definition idle (c : column) : bool :=
  negb (isDragging c) && negb (bool_decide (is_Some (scheduled c))).

(** ** The picker card (create) *)

(** Objects are shared by reference: the card keeps a reference to its
    current value, which in date mode is the caller's own [Date] when one
    was passed.  The heap holds the [Date] objects (their local calendar
    day; the time of day is carried along unchanged) and the
    [{hour, minute}] objects. *)
Inductive obj : Type :=
| ODate (d : date)
| OTime (hour minute : Z).

Abbreviation loc := nat (only parsing).
Abbreviation heap := (list obj) (only parsing).

(** A new object: its reference is the next free cell. *)
Definition alloc (h : heap) (o : obj) : loc * heap := (length h, h ++ [o]).

Inductive Mode : Type := DateMode | TimeMode.

(** A call of one of the caller's callbacks, with the object passed. *)
Inductive call : Type :=
| OnChange (value : loc)
| OnConfirm (value : loc).

(** What the card reads from its surroundings: local storage and the
    clock ([new Date()]). *)
Record env : Type := mkEnv {
  settings : stored_settings;
  now : date;
  nowHours : Z;
  nowMinutes : Z
}.

(** The variables of [create], the heap, the calls made so far, and
    whether the card is the active one ([activePickerEl]). *)
Record picker : Type := mkPicker {
  mode : Mode;
  currentValue : loc;
  columns : list column;
  onChange : bool;               (* was an onChange callback passed? *)
  onConfirm : bool;              (* was an onConfirm callback passed? *)
  store : heap;
  calls : list call;
  active : bool
}.

Definition with_currentValue (l : loc) (p : picker) : picker :=
  mkPicker (mode p) l (columns p) (onChange p) (onConfirm p) (store p)
    (calls p) (active p).

Definition with_columns (cs : list column) (p : picker) : picker :=
  mkPicker (mode p) (currentValue p) cs (onChange p) (onConfirm p) (store p)
    (calls p) (active p).

Definition with_store (h : heap) (p : picker) : picker :=
  mkPicker (mode p) (currentValue p) (columns p) (onChange p) (onConfirm p) h
    (calls p) (active p).

Definition with_calls (cl : list call) (p : picker) : picker :=
  mkPicker (mode p) (currentValue p) (columns p) (onChange p) (onConfirm p)
    (store p) cl (active p).

Definition with_active (b : bool) (p : picker) : picker :=
  mkPicker (mode p) (currentValue p) (columns p) (onChange p) (onConfirm p)
    (store p) (calls p) b.

(** The operations of the card are partial in the model: [None] means that
    the run leaves the modelled fragment (a NaN index or an object of the
    wrong kind would arise). *)

Definition as_int (n : number) : option Z :=
  match n with Num z => Some z | NaN => None end.

Definition read_date (p : picker) : option date :=
  match store p !! currentValue p with
  | Some (ODate d) => Some d
  | _ => None
  end.

Definition read_time (p : picker) : option (Z * Z) :=
  match store p !! currentValue p with
  | Some (OTime h m) => Some (h, m)
  | _ => None
  end.

(** An assignment through the reference [currentValue]. *)
Definition write_value (o : obj) (p : picker) : picker :=
  with_store (<[currentValue p := o]> (store p)) p.

(** [mode === 'date' ? new Date(currentValue) : { ...currentValue }]: a new
    object with the contents of the current value. *)
Definition copy_value (p : picker) : option (loc * picker) :=
  match mode p, store p !! currentValue p with
  | DateMode, Some (ODate d) =>
      let '(l, h) := alloc (store p) (ODate d) in Some (l, with_store h p)
  | TimeMode, Some (OTime h m) =>
      let '(l, h) := alloc (store p) (OTime h m) in Some (l, with_store h p)
  | _, _ => None
  end.

(** [if (onChange) onChange(copy)] *)
Definition fire_onChange (p : picker) : option picker :=
  if onChange p then
    '(l, p) ← copy_value p;
    Some (with_calls (calls p ++ [OnChange l]) p)
  else Some p.

Fixpoint index_from (l : list string) (s : string) (i : Z) : Z :=
  match l with
  | [] => -1
  | x :: r => if String.eqb x s then i else index_from r s (i + 1)
  end.

(** [l.indexOf(s)] *)
Definition indexOf (l : list string) (s : string) : Z := index_from l s 0.

(** The [onChange] of the day column. *)
Definition day_changed (n : note) (p : picker) : option picker :=
  v ← as_int (parseInt (snd n));
  d ← read_date p;
  fire_onChange (write_value (ODate (setDate d v)) p).

Fixpoint handle_all (f : note → picker → option picker) (ns : list note)
    (p : picker) : option picker :=
  match ns with
  | [] => Some p
  | n :: ns' => p' ← f n p; handle_all f ns' p'
  end.

(** [updateDayColumn()] *)
Definition updateDayColumn (p : picker) : option picker :=
  d ← read_date p;
  let daysInMonth := getDaysInMonth (fullYear d) (month d + 1) in
  let currentDay := Z.min (day d) daysInMonth in
  let p := write_value (ODate (setDate d currentDay)) p in
  dayCol ← columns p !! 2%nat;
  let '(dayCol, ns) :=
    setItems dayCol (range (Num 1) daysInMonth false) (currentDay - 1) in
  handle_all day_changed ns (with_columns (<[2%nat := dayCol]> (columns p)) p).

(** The [onChange] of the year column. *)
Definition year_changed (n : note) (p : picker) : option picker :=
  v ← as_int (parseInt (snd n));
  d ← read_date p;
  p ← updateDayColumn (write_value (ODate (setFullYear d v)) p);
  fire_onChange p.

(** The [onChange] of the month column. *)
Definition month_changed (n : note) (p : picker) : option picker :=
  v ← as_int (parseInt (snd n));
  d ← read_date p;
  p ← updateDayColumn (write_value (ODate (setMonth d (v - 1))) p);
  fire_onChange p.

(** The [onChange] of the hour and of the minute column. *)
Definition hour_changed (n : note) (p : picker) : option picker :=
  v ← as_int (parseInt (snd n));
  '(_, m) ← read_time p;
  fire_onChange (write_value (OTime v m) p).

Definition minute_changed (n : note) (p : picker) : option picker :=
  v ← as_int (parseInt (snd n));
  '(h, _) ← read_time p;
  fire_onChange (write_value (OTime h v) p).

(** The callback that [create] gave to column [k]. *)
Definition handler (m : Mode) (k : nat) : note → picker → option picker :=
  match m, k with
  | DateMode, 0%nat => year_changed
  | DateMode, 1%nat => month_changed
  | DateMode, _ => day_changed
  | TimeMode, 0%nat => hour_changed
  | TimeMode, _ => minute_changed
  end.

(** An event on column [k] of the card, with the callbacks it sets off. *)
Definition column_event (k : nat) (e : event) (p : picker) : option picker :=
  c ← columns p !! k;
  let '(c, ns) := step c e in
  handle_all (handler (mode p) k) ns (with_columns (<[k := c]> (columns p)) p).

(** [close()] as far as the card's variables go. *)
Definition close (p : picker) : picker := with_active false p.

(** [create(options)] in date mode; [value] is the caller's object, if
    any. *)
Definition create_date (e : env) (h : heap) (value : option loc)
    (onChange onConfirm : bool) : option picker :=
  let '(cv, h) :=
    match value with
    | Some l =>
        match h !! l with
        | Some (ODate _) => (l, h)
        | _ => alloc h (ODate (now e))
        end
    | None => alloc h (ODate (now e))
    end in
  match h !! cv with
  | Some (ODate d) =>
      let years := getYearRange (settings e) (fullYear (now e)) in
      let yearIndex := indexOf years (String_of (fullYear d)) in
      let yearCol :=
        createWheelColumn years
          (if 0 <=? yearIndex then yearIndex
           else Z.of_nat (length years) - 1) in
      let monthCol := createWheelColumn (range (Num 1) 12 false) (month d) in
      let days :=
        range (Num 1) (getDaysInMonth (fullYear d) (month d + 1)) false in
      let dayCol := createWheelColumn days (day d - 1) in
      Some (mkPicker DateMode cv [yearCol; monthCol; dayCol]
              onChange onConfirm h [] true)
  | _ => None
  end.

(** [create(options)] in time mode. *)
Definition create_time (e : env) (h : heap) (value : option loc)
    (onChange onConfirm : bool) : option picker :=
  let '(cv, h) :=
    match value with
    | Some l => (l, h)
    | None => alloc h (OTime (nowHours e) (nowMinutes e))
    end in
  match h !! cv with
  | Some (OTime hour minute) =>
      let hourCol := createWheelColumn (range (Num 0) 23 true) hour in
      let minuteCol := createWheelColumn (range (Num 0) 59 true) minute in
      Some (mkPicker TimeMode cv [hourCol; minuteCol]
              onChange onConfirm h [] true)
  | _ => None
  end.

Definition create (m : Mode) (e : env) (h : heap) (value : option loc)
    (onChange onConfirm : bool) : option picker :=
  match m with
  | DateMode => create_date e h value onChange onConfirm
  | TimeMode => create_time e h value onChange onConfirm
  end.

(** [columns[k]._api.setIndex(index)], animated by default. *)
Definition api_setIndex (k : nat) (index : Z) (p : picker) : option picker :=
  column_event k (SetIndex index true) p.

(** [columns[k]._api.setItems(newItems, newIndex)] *)
Definition api_setItems (k : nat) (newItems : list string) (newIndex : Z)
    (p : picker) : option picker :=
  column_event k (SetItems newItems newIndex) p.

(** The click listener of the quick button. *)
Definition quick_click (e : env) (p : picker) : option picker :=
  p ←
    match mode p with
    | DateMode =>
        let '(l, h) := alloc (store p) (ODate (now e)) in
        let p := with_currentValue l (with_store h p) in
        let years := getYearRange (settings e) (fullYear (now e)) in
        let yearIndex := indexOf years (String_of (fullYear (now e))) in
        p ← api_setIndex 0
              (if 0 <=? yearIndex then yearIndex
               else Z.of_nat (length years) - 1) p;
        p ← api_setIndex 1 (month (now e)) p;
        let daysInMonth :=
          getDaysInMonth (fullYear (now e)) (month (now e) + 1) in
        api_setItems 2 (range (Num 1) daysInMonth false) (day (now e) - 1) p
    | TimeMode =>
        let '(l, h) :=
          alloc (store p) (OTime (nowHours e) (nowMinutes e)) in
        let p := with_currentValue l (with_store h p) in
        p ← api_setIndex 0 (nowHours e) p;
        api_setIndex 1 (nowMinutes e) p
    end;
  fire_onChange p.

(** The click listener of the confirm button. *)
Definition confirm_click (p : picker) : option picker :=
  p ←
    (if onConfirm p then
       '(l, p) ← copy_value p;
       Some (with_calls (calls p ++ [OnConfirm l]) p)
     else Some p);
  Some (close p).

(** The handle's [getValue()]: the new object and the state after the
    call. *)
Definition handle_getValue (p : picker) : option (loc * picker) :=
  copy_value p.

(** A write by the caller into an object it holds. *)
Definition caller_writes (l : loc) (o : obj) (p : picker) : picker :=
  with_store (<[l := o]> (store p)) p.

(** The objects passed to [onChange], in order. *)
Definition changes (p : picker) : list (option obj) :=
  omap (λ c, match c with
             | OnChange l => Some (store p !! l)
             | OnConfirm _ => None
             end) (calls p).

(** The objects passed to [onConfirm], in order. *)
Definition confirmations (p : picker) : list (option obj) :=
  omap (λ c, match c with
             | OnConfirm l => Some (store p !! l)
             | OnChange _ => None
             end) (calls p).

(** Several events in a row on column [k] of the card. *)
Fixpoint column_events (k : nat) (es : list event) (p : picker)
  : option picker :=
  match es with
  | [] => Some p
  | e :: es' => p' ← column_event k e p; column_events k es' p'
  end.

(** ** The inertial trajectory *)

(** The column after [k] rounds of the two updating statements of
    [inertiaScroll], the stopping test aside. *)
Fixpoint coast (k : nat) (c : column) : column :=
  match k with
  | O => c
  | S k' => coast k' (inertiaAdvance c)
  end.

(** The release: [isDragging = false] at the head of [handleEnd]. *)
Definition released (c : column) : column := with_isDragging false c.

(** The release and the [k] animation frames after it. *)
Definition release_and_frames (k : nat) : list event :=
  PointerUp :: replicate k Frame.

(** Two columns that differ at most in the animation bookkeeping. *)
Definition same_motion (c1 c2 : column) : Prop :=
  items c1 = items c2 ∧ currentIndex c1 = currentIndex c2
  ∧ currentY c1 = currentY c2 ∧ velocity c1 = velocity c2
  ∧ isDragging c1 = isDragging c2.

(** The column is at rest on its committed index. *)
Definition aligned (c : column) : Prop :=
  currentY c = offset_of (currentIndex c).

(** ** The leap-day scenario *)

(** A drag of two items upwards from clientY 100, held still before the
    release. *)
Definition drag_two_items_up : list event :=
  [PointerDown 100; PointerMove 28; PointerMove 28; PointerUp].

(** What a commit of April leaves of a card opened on 2024-02-29. *)
Definition april_outcome (onChange : bool) (r : option picker) : Prop :=
  ∃ (p' : picker) (dayCol : column),
    r = Some p'
    ∧ columns p' !! 2%nat = Some dayCol
    ∧ items dayCol = range (Num 1) 30 false
    ∧ getIndex dayCol = 28
    ∧ getValue dayCol = Some "29"%string
    ∧ read_date p' = Some (mkDate 2024 3 29)
    ∧ changes p' =
      (if onChange then [Some (ODate (mkDate 2024 3 29))] else []).

(** ** Further notions used by the properties *)

(** The value of a decimal digit list read from the most significant digit,
    continuing from [acc]. *)
Fixpoint uint_val (d : Decimal.uint) (acc : Z) : Z :=
  match d with
  | Decimal.Nil => acc
  | Decimal.D0 l => uint_val l (10 * acc + 0)
  | Decimal.D1 l => uint_val l (10 * acc + 1)
  | Decimal.D2 l => uint_val l (10 * acc + 2)
  | Decimal.D3 l => uint_val l (10 * acc + 3)
  | Decimal.D4 l => uint_val l (10 * acc + 4)
  | Decimal.D5 l => uint_val l (10 * acc + 5)
  | Decimal.D6 l => uint_val l (10 * acc + 6)
  | Decimal.D7 l => uint_val l (10 * acc + 7)
  | Decimal.D8 l => uint_val l (10 * acc + 8)
  | Decimal.D9 l => uint_val l (10 * acc + 9)
  end.

(** The string has no occurrence of the character. *)
Fixpoint lacks (c : ascii) (s : string) : bool :=
  match s with
  | EmptyString => true
  | String x r => negb (Ascii.eqb x c) && lacks c r
  end.

(** The reachable columns keep the handle of the waiting frame callback in
    [animationId]. *)
Definition tracks_frame (c : column) : Prop :=
  ∀ id : positive, scheduled c = Some id → animationId c = Some id.

(** The committed index points into the items. *)
Definition in_range (c : column) : Prop :=
  0 <= currentIndex c < Z.of_nat (length (items c)).

(** An event that does not empty the item list. *)
Definition keeps_items (e : event) : bool :=
  match e with
  | SetItems [] _ => false
  | _ => true
  end.

(** An event of the user interface (no call of the column's [_api]). *)
Definition from_user (e : event) : bool :=
  match e with
  | SetIndex _ _ | SetItems _ _ => false
  | _ => true
  end.

(** The offset that [handleMove] shows for the raw offset [newY]. *)
Definition dampedY (c : column) (newY : Q) : Q :=
  if Qltb maxY newY then (maxY + (newY - maxY) * damping)%Q
  else if Qltb newY (minY c) then (minY c + (newY - minY c) * damping)%Q
  else newY.

(** The number of days of month [m] (0..11) in a leap or common year. *)
Definition monthLength (leap : bool) (m : Z) : Z :=
  if m =? 1 then (if leap then 29 else 28)
  else if (m =? 3) || (m =? 5) || (m =? 8) || (m =? 10) then 30
  else 31.

(** ** Placing the card (the positioning block of [create]) *)

(** The anchor's and the card's rectangles, as [getBoundingClientRect]
    gives them, and [window.innerWidth]. *)
Record placement_input : Type := mkPlacement {
  rectTop : Q;
  rectBottom : Q;
  rectLeft : Q;
  cardWidth : Q;
  cardHeight : Q;
  innerWidth : Q
}.

(** [top] and [left] of the card when an anchor is given. *)
Definition place_card (i : placement_input) : Q * Q :=
  let top := (rectTop i - cardHeight i - 8)%Q in
  let left := rectLeft i in
  let top := if Qltb top 8%Q then (rectBottom i + 8)%Q else top in
  let left :=
    if Qltb (innerWidth i - 8)%Q (left + cardWidth i)%Q
    then (innerWidth i - cardWidth i - 8)%Q else left in
  let left := if Qltb left 8%Q then 8%Q else left in
  (top, left).

(** ** The writing entry's use of the time picker (showTimePicker) *)

(** [s.split(sep)] for a one-character separator. *)
Fixpoint split_on (sep : ascii) (s : string) : list string :=
  match s with
  | EmptyString => [EmptyString]
  | String c r =>
      if Ascii.eqb c sep then EmptyString :: split_on sep r
      else
        match split_on sep r with
        | h :: t => String c h :: t
        | [] => [String c EmptyString]
        end
  end.

(** [parseInt(x) || 0] *)
Definition or_zero (n : number) : Z :=
  match n with
  | Num z => z
  | NaN => 0
  end.

(** The [onConfirm] callback of [showTimePicker]: the new [customTime]. *)
Definition confirmed_customTime (hour minute : Z) : string :=
  String.append (padStart 2 "0"%char (String_of hour))
    (String ":"%char (padStart 2 "0"%char (String_of minute))).

(** The [{hour, minute}] that [showTimePicker] passes to the picker;
    [customTime] is [None] for [null]. *)
Definition showTimePicker_value (e : env) (customTime : option string)
  : Z * Z :=
  match customTime with
  | None => (nowHours e, nowMinutes e)
  | Some EmptyString => (nowHours e, nowMinutes e)
  | Some s =>
      let parts := split_on ":"%char s in
      (or_zero (parseInt (parts !! 0%nat)), or_zero (parseInt (parts !! 1%nat)))
  end.

(** ** The card in time mode *)

(** The card's value is the pair of the committed indices of its two
    columns, which hold the hours and the minutes. *)
Definition time_synced (p : picker) : Prop :=
  mode p = TimeMode
  ∧ ∃ c0 c1 : column,
      columns p = [c0; c1]
      ∧ items c0 = range (Num 0) 23 true
      ∧ items c1 = range (Num 0) 59 true
      ∧ read_time p = Some (currentIndex c0, currentIndex c1).

(** What can happen to an open card: an event on one of its columns, a
    click on the quick button (with the surroundings at that moment), a
    click on the confirm button. *)
Inductive card_op : Type :=
| OnColumn (k : nat) (e : event)
| QuickClick (e : env)
| ConfirmClick.

Definition card_step (o : card_op) (p : picker) : option picker :=
  match o with
  | OnColumn k e => column_event k e p
  | QuickClick e => quick_click e p
  | ConfirmClick => confirm_click p
  end.

Fixpoint card_run (os : list card_op) (p : picker) : option picker :=
  match os with
  | [] => Some p
  | o :: os' => p' ← card_step o p; card_run os' p'
  end.

(** The operations of a card in time mode: events on its two columns other
    than a replacement of the items (which the card never asks for in time
    mode), quick clicks at a clock time with the hour in 0..23 and the
    minute in 0..59, and confirmations. *)
Definition time_op (o : card_op) : bool :=
  match o with
  | OnColumn _ (SetItems _ _) => false
  | OnColumn k _ => (k <? 2)%nat
  | QuickClick e =>
      (0 <=? nowHours e) && (nowHours e <=? 23)
      && (0 <=? nowMinutes e) && (nowMinutes e <=? 59)
  | ConfirmClick => true
  end.

(** ** The card in date mode *)

(** A date as a [Date] object holds it, the month in 0..11 and the day
    within the month, and of a year other than 0..99, which
    [new Date(year, month, day)] reads as 1900..1999. *)
Definition civil_date (d : date) : Prop :=
  ¬ (0 <= fullYear d <= 99)
  ∧ 0 <= month d <= 11
  ∧ 1 <= day d <= monthLength (InLeapYear (fullYear d)) (month d).

(** The card shows its value [d]: the year column holds the years [b] to
    [last] and stands on the value's year when that is among them, the
    month column holds the months 1 to 12 and stands on the value's month,
    the day column holds the days of that month and stands on the value's
    day. *)
Definition date_synced (b last : Z) (d : date) (p : picker) : Prop :=
  mode p = DateMode
  ∧ read_date p = Some d
  ∧ ∃ cy cm cd : column,
      columns p = [cy; cm; cd]
      ∧ items cy = range (Num b) last false
      ∧ (b <= fullYear d <= last → currentIndex cy = fullYear d - b)
      ∧ items cm = range (Num 1) 12 false
      ∧ currentIndex cm = month d
      ∧ items cd
        = range (Num 1) (monthLength (InLeapYear (fullYear d)) (month d)) false
      ∧ currentIndex cd = day d - 1.

(** [p'] is [p] after its value became [d] and [onChange] was called [n]
    times, each time with a new copy of [d]. *)
Definition announced (p p' : picker) (d : date) (n : nat) : Prop :=
  mode p' = mode p
  ∧ currentValue p' = currentValue p
  ∧ onChange p' = onChange p
  ∧ onConfirm p' = onConfirm p
  ∧ active p' = active p
  ∧ store p' = <[currentValue p := ODate d]> (store p) ++ replicate n (ODate d)
  ∧ calls p' = calls p ++ (OnChange <$> seq (length (store p)) n).

(** The year and the month that column [k] (0 the years from [b], 1 the
    months) asks for when it commits index [i] on a card of value [d]. *)
Definition asked (b : Z) (k : nat) (i : Z) (d : date) : Z * Z :=
  match k with
  | O => (b + i, month d)
  | _ => (fullYear d, i)
  end.

(** * Properties *)

(** ** The column *)

Lemma scrollToIndex_aligned (c : column) (i : Z) (a : bool) :
  aligned (fst (scrollToIndex c i a)).
Proof.
  unfold scrollToIndex, aligned.
  destruct (Z.eqb_spec (clamp_index (items c) i) (currentIndex c)) as [E|E];
    cbn; [rewrite E|]; reflexivity.
Qed.

Lemma scrollToIndex_index (c : column) (i : Z) (a : bool) :
  currentIndex (fst (scrollToIndex c i a)) = clamp_index (items c) i.
Proof.
  unfold scrollToIndex.
  destruct (Z.eqb_spec (clamp_index (items c) i) (currentIndex c)) as [E|E];
    cbn; congruence.
Qed.

Lemma scrollToIndex_frame (c : column) (i : Z) (a : bool) :
  let c' := fst (scrollToIndex c i a) in
  items c' = items c ∧ isDragging c' = isDragging c
  ∧ scheduled c' = scheduled c ∧ velocity c' = velocity c.
Proof.
  unfold scrollToIndex.
  destruct (clamp_index (items c) i =? currentIndex c); cbn; auto.
Qed.

Lemma scrollToIndex_notes (c : column) (i : Z) (a : bool) :
  snd (scrollToIndex c i a) =
  let k := clamp_index (items c) i in
  if k =? currentIndex c then [] else [(k, item_at (items c) k)].
Proof.
  unfold scrollToIndex.
  destruct (clamp_index (items c) i =? currentIndex c); reflexivity.
Qed.

Lemma clamp_index_range (l : list string) (i : Z) :
  l ≠ [] → 0 <= clamp_index l i < Z.of_nat (length l).
Proof.
  intros Hl. unfold clamp_index.
  assert (0 < Z.of_nat (length l)) by (destruct l; [congruence | cbn; lia]).
  lia.
Qed.

Lemma item_at_Some (l : list string) (i : Z) :
  0 <= i < Z.of_nat (length l) → ∃ s, item_at l i = Some s.
Proof.
  intros Hi. unfold item_at.
  destruct (Z.ltb_spec i 0) as [?|_]; [lia|].
  apply lookup_lt_is_Some_2. lia.
Qed.

Lemma idle_inertiaScroll (c : column) :
  idle (fst (inertiaScroll c)) = true → aligned (fst (inertiaScroll c)).
Proof.
  unfold inertiaScroll.
  destruct (inertiaStops (inertiaAdvance c)).
  - intros _. apply scrollToIndex_aligned.
  - unfold idle. cbn. destruct (isDragging c); cbn; intros H; discriminate H.
Qed.

Lemma handleStart_dragging (c : column) (y : Q) :
  isDragging (handleStart c y) = true.
Proof.
  unfold handleStart. cbn. destruct (animationId c) as [id|]; cbn; [|reflexivity].
  unfold cancelAnimationFrame. cbn.
  destruct (scheduled c) as [id'|]; [destruct (Pos.eqb id id')|]; reflexivity.
Qed.

(** Every step keeps: an idle column is aligned. *)
Lemma step_keeps_idle_aligned (c : column) (e : event) :
  (idle c = true → aligned c) →
  idle (fst (step c e)) = true → aligned (fst (step c e)).
Proof.
  intros Inv.
  destruct e as [y|y| | |i|d|i a|l i]; cbn [step fst].
  - unfold idle. rewrite handleStart_dragging. intros H; discriminate H.
  - unfold handleMove. destruct (isDragging c) eqn:D; cbn [negb]; [|exact Inv].
    unfold idle. cbn. rewrite D. intros H; discriminate H.
  - unfold handleEnd. destruct (isDragging c) eqn:D; cbn [negb]; [|exact Inv].
    destruct (Qltb 2 (Qabs (velocity (with_isDragging false c)))).
    + apply idle_inertiaScroll.
    + intros _. apply scrollToIndex_aligned.
  - unfold frame. destruct (scheduled c) eqn:S; [|exact Inv].
    apply idle_inertiaScroll.
  - intros _. apply scrollToIndex_aligned.
  - intros _. apply scrollToIndex_aligned.
  - intros _. apply scrollToIndex_aligned.
  - intros _. apply scrollToIndex_aligned.
Qed.

Lemma run_keeps_idle_aligned (es : list event) (c : column) :
  (idle c = true → aligned c) →
  idle (fst (run c es)) = true → aligned (fst (run c es)).
Proof.
  revert c. induction es as [|e es IH]; intros c Inv; cbn [run].
  - exact Inv.
  - destruct (step c e) as [c1 o1] eqn:E1.
    destruct (run c1 es) as [c2 o2] eqn:E2. cbn [fst].
    specialize (IH c1). rewrite E2 in IH. apply IH.
    pose proof (step_keeps_idle_aligned c e Inv) as H.
    rewrite E1 in H. exact H.
Qed.

(** C1. Whenever a column is idle (not being dragged, no animation frame
    waiting), after any sequence of events since its creation, its offset
    is exactly [-currentIndex * ITEM_HEIGHT]; and the offset is that one
    right after every [scrollToIndex], which ends each settle, click, wheel
    tick, [setIndex] and [setItems]. *)
Theorem idle_offset_is_committed_index
    (l : list string) (selectedIndex : Z) (es : list event) :
  let c := fst (run (createWheelColumn l selectedIndex) es) in
  (idle c = true → currentY c = inject_Z (- currentIndex c * ITEM_HEIGHT))
  ∧ (∀ (c0 : column) (i : Z) (a : bool),
        let c1 := fst (scrollToIndex c0 i a) in
        currentY c1 = inject_Z (- currentIndex c1 * ITEM_HEIGHT)).
Proof.
  split.
  - apply (run_keeps_idle_aligned es). intros _. reflexivity.
  - intros c0 i a. apply scrollToIndex_aligned.
Qed.

Lemma idle_offset_is_committed_index_witness :
  let c := fst (run (createWheelColumn (range (Num 0) 59 true) 58)
                  ([PointerDown 100; PointerMove 110; PointerMove 150;
                    PointerUp] ++ replicate 20 Frame ++ [Wheel 3]
                   ++ replicate 40 Frame)) in
  idle c = true ∧ currentY c = inject_Z (- currentIndex c * ITEM_HEIGHT).
Proof.
  split; [vm_compute; reflexivity|].
  apply (proj1 (idle_offset_is_committed_index (range (Num 0) 59 true) 58
                  ([PointerDown 100; PointerMove 110; PointerMove 150;
                    PointerUp] ++ replicate 20 Frame ++ [Wheel 3]
                   ++ replicate 40 Frame))).
  vm_compute. reflexivity.
Defined.

(** C3. On a non-empty item list, [setIndex(i, false)] followed by
    [getValue()] gives [items[clamp(i, 0, items.length - 1)]], and the
    change notification is made exactly when the clamped index differs from
    the index committed before. *)
Theorem setIndex_then_getValue (c : column) (i : Z) :
  items c ≠ [] →
  let k := Z.max 0 (Z.min (Z.of_nat (length (items c)) - 1) i) in
  let '(c', out) := setIndex c i false in
  (∃ s, (items c) !! Z.to_nat k = Some s ∧ getValue c' = Some s)
  ∧ getIndex c' = k
  ∧ (out ≠ [] ↔ k ≠ currentIndex c)
  ∧ out = (if k =? currentIndex c then [] else [(k, item_at (items c) k)]).
Proof.
  intros Hne k.
  destruct (setIndex c i false) as [c' out] eqn:E.
  unfold setIndex in E.
  pose proof (scrollToIndex_index c i false) as Hi.
  pose proof (scrollToIndex_frame c i false) as (Hit & _).
  pose proof (scrollToIndex_notes c i false) as Hn.
  rewrite E in Hi, Hit, Hn. cbn [fst snd] in Hi, Hit, Hn.
  fold (clamp_index (items c) i) in k.
  pose proof (clamp_index_range (items c) i Hne) as Hr. fold k in Hr, Hi, Hn.
  repeat split.
  - destruct (item_at_Some (items c) k Hr) as [s Hs].
    exists s. unfold getValue. rewrite Hi, Hit.
    split; [|exact Hs].
    unfold item_at in Hs. destruct (Z.ltb_spec k 0); [lia|exact Hs].
  - exact Hi.
  - rewrite Hn. cbn. destruct (Z.eqb_spec k (currentIndex c)); congruence.
  - rewrite Hn. cbn. destruct (Z.eqb_spec k (currentIndex c)); congruence.
  - exact Hn.
Qed.

Lemma setIndex_then_getValue_witness :
  let c := createWheelColumn (range (Num 0) 23 true) 23 in
  items c ≠ []
  ∧ (let k := Z.max 0 (Z.min (Z.of_nat (length (items c)) - 1) 99) in
     let '(c', out) := setIndex c 99 false in
     (∃ s, (items c) !! Z.to_nat k = Some s ∧ getValue c' = Some s)
     ∧ getIndex c' = k
     ∧ (out ≠ [] ↔ k ≠ currentIndex c)
     ∧ out = (if k =? currentIndex c then [] else [(k, item_at (items c) k)])).
Proof.
  split; [vm_compute; discriminate|].
  apply (setIndex_then_getValue (createWheelColumn (range (Num 0) 23 true) 23) 99).
  vm_compute; discriminate.
Defined.

(** C10. A pointer move or a pointer release that reaches a column which is
    not being dragged changes nothing and makes no change notification. *)
Theorem stray_pointer_event_is_noop (c : column) (clientY : Q) :
  isDragging c = false →
  step c (PointerMove clientY) = (c, [])
  ∧ step c PointerUp = (c, []).
Proof.
  intros D. cbn [step]. unfold handleMove, handleEnd. rewrite D. split; reflexivity.
Qed.

Lemma stray_pointer_event_is_noop_witness :
  let c := createWheelColumn (range (Num 0) 59 true) 58 in
  isDragging c = false
  ∧ step c (PointerMove 412) = (c, [])
  ∧ step c PointerUp = (c, []).
Proof.
  split; [reflexivity|].
  apply (stray_pointer_event_is_noop (createWheelColumn (range (Num 0) 59 true) 58) 412).
  reflexivity.
Defined.

(** ** Dragging past the ends *)

Lemma Qltb_lt (x y : Q) : Qltb x y = true ↔ (x < y)%Q.
Proof.
  unfold Qltb. rewrite negb_true_iff, <- not_true_iff_false, Qle_bool_iff.
  split; [apply Qnot_le_lt | apply Qlt_not_le].
Qed.

Lemma Qltb_ge (x y : Q) : Qltb x y = false ↔ (y <= x)%Q.
Proof.
  unfold Qltb. rewrite negb_false_iff. apply Qle_bool_iff.
Qed.

(** C7, as the code has it.  While dragging, a raw offset beyond an end of
    the valid range is shown at that end plus 0.3 times the raw overshoot,
    and a raw offset within the range is shown as it is.  There is no cap:
    the shown overshoot stays under two item heights exactly while the raw
    overshoot stays under 240 pixels. *)
Theorem drag_overshoot_is_damped_linearly (c : column) (clientY : Q) :
  isDragging c = true →
  let newY := (clientY - startY c)%Q in
  let shown := currentY (handleMove c clientY) in
  ((maxY < newY)%Q →
     (shown - maxY == 0.3 * (newY - maxY))%Q
     ∧ ((shown - maxY < inject_Z (2 * ITEM_HEIGHT))%Q ↔ (newY - maxY < 240)%Q))
  ∧ ((newY <= maxY)%Q → (newY < minY c)%Q →
     (minY c - shown == 0.3 * (minY c - newY))%Q
     ∧ ((minY c - shown < inject_Z (2 * ITEM_HEIGHT))%Q
        ↔ (minY c - newY < 240)%Q))
  ∧ ((minY c <= newY)%Q → (newY <= maxY)%Q → shown = newY).
Proof.
  intros D newY shown.
  assert (Hs : shown =
    if Qltb maxY newY then (maxY + (newY - maxY) * damping)%Q
    else if Qltb newY (minY c) then (minY c + (newY - minY c) * damping)%Q
    else newY).
  { unfold shown, handleMove. rewrite D. reflexivity. }
  change (inject_Z (2 * ITEM_HEIGHT)) with 72%Q.
  unfold maxY, damping in *.
  split; [|split].
  - intros Htop. apply Qltb_lt in Htop. rewrite Htop in Hs. rewrite Hs.
    split; [|split; intros Hlt]; lra.
  - intros Hle Hbot. apply Qltb_ge in Hle. apply Qltb_lt in Hbot.
    rewrite Hle, Hbot in Hs. rewrite Hs.
    split; [|split; intros Hlt]; lra.
  - intros Hge Hle. apply Qltb_ge in Hge, Hle.
    rewrite Hle, Hge in Hs. exact Hs.
Qed.

Lemma drag_overshoot_is_damped_linearly_witness :
  let c := handleStart (createWheelColumn (range (Num 0) 59 true) 58) 300 in
  let newY := (100 - startY c)%Q in
  let shown := currentY (handleMove c 100) in
  isDragging c = true
  ∧ (newY <= maxY)%Q ∧ (newY < minY c)%Q
  ∧ (minY c - shown == 0.3 * (minY c - newY))%Q.
Proof.
  assert (D : isDragging
           (handleStart (createWheelColumn (range (Num 0) 59 true) 58) 300)
           = true) by reflexivity.
  assert (H1 : (100 - startY
            (handleStart (createWheelColumn (range (Num 0) 59 true) 58) 300)
            <= maxY)%Q) by (vm_compute; discriminate).
  assert (H2 : (100 - startY
            (handleStart (createWheelColumn (range (Num 0) 59 true) 58) 300)
            < minY
            (handleStart (createWheelColumn (range (Num 0) 59 true) 58) 300))%Q)
    by (vm_compute; reflexivity).
  split; [exact D|]. split; [exact H1|]. split; [exact H2|].
  exact (proj1 (proj1 (proj2 (drag_overshoot_is_damped_linearly _ 100 D)) H1 H2)).
Defined.

(** C7 as stated fails: a column of three items at rest on its first item,
    dragged down by 1000 pixels, is shown 300 pixels past the upper end,
    more than two item heights (72 pixels). *)
Lemma drag_overshoot_unbounded_counterexample :
  let c := handleStart (createWheelColumn ["a"; "b"; "c"]%string 0) 0 in
  isDragging c = true
  ∧ (currentY (handleMove c 1000) == 300)%Q
  ∧ ¬ (currentY (handleMove c 1000) - maxY < inject_Z (2 * ITEM_HEIGHT))%Q.
Proof.
  split; [reflexivity|]. split; [reflexivity|].
  intros H. vm_compute in H. discriminate H.
Qed.

(** ** The fling *)

Lemma same_motion_refl (c : column) : same_motion c c.
Proof. repeat split. Qed.

Lemma same_motion_advance (c1 c2 : column) :
  same_motion c1 c2 → same_motion (inertiaAdvance c1) (inertiaAdvance c2).
Proof.
  intros (Hi & Hk & Hy & Hv & Hd). unfold inertiaAdvance. repeat split; cbn;
    congruence.
Qed.

Lemma same_motion_coast (k : nat) (c1 c2 : column) :
  same_motion c1 c2 → same_motion (coast k c1) (coast k c2).
Proof.
  revert c1 c2. induction k as [|k IH]; intros c1 c2 H; cbn [coast].
  - exact H.
  - apply IH, same_motion_advance, H.
Qed.

Lemma same_motion_stops (c1 c2 : column) :
  same_motion c1 c2 → inertiaStops c1 = inertiaStops c2.
Proof.
  intros (Hi & Hk & Hy & Hv & Hd). unfold inertiaStops, minY.
  rewrite Hi, Hy, Hv. reflexivity.
Qed.

Lemma same_motion_rescheduled (c : column) :
  same_motion (with_scheduled None (requestAnimationFrame c)) c.
Proof. repeat split. Qed.

Lemma coast_frame (k : nat) (c : column) :
  items (coast k c) = items c ∧ currentIndex (coast k c) = currentIndex c
  ∧ isDragging (coast k c) = isDragging c ∧ scheduled (coast k c) = scheduled c.
Proof.
  revert c. induction k as [|k IH]; intros c; cbn [coast]; [auto|].
  destruct (IH (inertiaAdvance c)) as (H1 & H2 & H3 & H4). auto.
Qed.

(** What the release and the frames after it leave behind when the fling
    stops at tick [k + 1]. *)
Lemma fling_settles (k : nat) :
  ∀ c : column,
    scheduled c = None →
    (∀ j : nat, (1 <= j <= k)%nat → inertiaStops (coast j c) = false) →
    inertiaStops (coast (S k) c) = true →
    ∀ c' out,
      (let '(c1, o1) := inertiaScroll c in
       let '(c2, o2) := run c1 (replicate k Frame) in (c2, o1 ++ o2))
      = (c', out) →
      let target :=
        clamp_index (items c)
          (getIndexFromPosition (currentY (coast (S k) c))) in
      scheduled c' = None ∧ isDragging c' = isDragging c
      ∧ items c' = items c ∧ currentIndex c' = target
      ∧ currentY c' = offset_of target
      ∧ out = (if target =? currentIndex c then []
               else [(target, item_at (items c) target)]).
Proof.
  induction k as [|k IH]; intros c Hs Hgo Hstop c' out.
  - cbn [coast] in Hstop. unfold inertiaScroll. rewrite Hstop.
    cbn [replicate run coast].
    destruct (scrollToIndex (inertiaAdvance c)
                (getIndexFromPosition (currentY (inertiaAdvance c))) true)
      as [c1 o1] eqn:E.
    intros [= <- <-]. rewrite app_nil_r.
    pose proof (scrollToIndex_index (inertiaAdvance c)
                  (getIndexFromPosition (currentY (inertiaAdvance c))) true) as Hi.
    pose proof (scrollToIndex_frame (inertiaAdvance c)
                  (getIndexFromPosition (currentY (inertiaAdvance c))) true)
      as (Hit & Hd & Hsc & _).
    pose proof (scrollToIndex_aligned (inertiaAdvance c)
                  (getIndexFromPosition (currentY (inertiaAdvance c))) true) as Ha.
    pose proof (scrollToIndex_notes (inertiaAdvance c)
                  (getIndexFromPosition (currentY (inertiaAdvance c))) true) as Hn.
    rewrite E in Hi, Hit, Hd, Hsc, Ha, Hn. cbn [fst snd] in *.
    unfold aligned in Ha. rewrite Hi in Ha.
    change (items (inertiaAdvance c)) with (items c) in *.
    change (currentIndex (inertiaAdvance c)) with (currentIndex c) in *.
    change (isDragging (inertiaAdvance c)) with (isDragging c) in *.
    change (scheduled (inertiaAdvance c)) with (scheduled c) in *.
    rewrite Hs in Hsc.
    repeat split; assumption.
  - assert (H1 : inertiaStops (inertiaAdvance c) = false)
      by (apply (Hgo 1%nat); lia).
    unfold inertiaScroll at 1. rewrite H1.
    cbn [replicate run step]. unfold frame. cbn [scheduled requestAnimationFrame
      with_animationId with_scheduled].
    set (c0 := with_scheduled None (requestAnimationFrame (inertiaAdvance c))).
    pose proof (same_motion_rescheduled (inertiaAdvance c)) as Hsm. fold c0 in Hsm.
    destruct (inertiaScroll c0) as [c1 o1] eqn:E1.
    destruct (run c1 (replicate k Frame)) as [c2 o2] eqn:E2.
    intros [= <- <-]. cbn [app].
    specialize (IH c0 eq_refl).
    assert (Hgo' : ∀ j : nat, (1 <= j <= k)%nat → inertiaStops (coast j c0) = false).
    { intros j Hj. rewrite (same_motion_stops _ _ (same_motion_coast j _ _ Hsm)).
      apply (Hgo (S j)). lia. }
    assert (Hstop' : inertiaStops (coast (S k) c0) = true).
    { rewrite (same_motion_stops _ _ (same_motion_coast (S k) _ _ Hsm)).
      exact Hstop. }
    specialize (IH Hgo' Hstop' c2 (o1 ++ o2)).
    rewrite E1, E2 in IH. specialize (IH eq_refl).
    destruct (same_motion_coast (S k) _ _ Hsm) as (_ & _ & Hy & _ & _).
    rewrite Hy in IH. exact IH.
Qed.

(** The velocity decays: after [n] ticks it is at most the release velocity
    divided by [1 + 2n/25]. *)
Lemma coast_velocity_decays (n : nat) :
  ∀ c : column,
    (Qabs (velocity (coast n c)) * (1 + inject_Z (Z.of_nat n) * (2 # 25))
     <= Qabs (velocity c))%Q.
Proof.
  induction n as [|n IH]; intros c.
  - cbn [coast]. change (inject_Z (Z.of_nat 0)) with 0%Q. lra.
  - cbn [coast]. specialize (IH (inertiaAdvance c)).
    assert (Hv : (Qabs (velocity (inertiaAdvance c))
                  == Qabs (velocity c) * (92 # 100))%Q).
    { change (velocity (inertiaAdvance c)) with (velocity c * friction)%Q.
      rewrite Qabs_Qmult. reflexivity. }
    rewrite Hv in IH.
    pose proof (Qabs_nonneg (velocity (coast n (inertiaAdvance c)))) as Ht.
    pose proof (Qabs_nonneg (velocity c)) as Hc.
    rewrite Nat2Z.inj_succ. unfold Z.succ. rewrite inject_Z_plus.
    change (inject_Z 1) with 1%Q.
    set (t := Qabs (velocity (coast n (inertiaAdvance c)))) in *.
    set (m := inject_Z (Z.of_nat n)) in *.
    assert (Hm : (0 <= m)%Q).
    { unfold m. change 0%Q with (inject_Z 0). rewrite <- Zle_Qle. lia. }
    assert (Hmt : (0 <= t * m)%Q) by (apply Qmult_le_0_compat; assumption).
    nra.
Qed.

Lemma coast_eventually_stops (c : column) :
  ∃ N : nat, inertiaStops (coast (S N) c) = true.
Proof.
  set (v := Qabs (velocity c)).
  exists (Z.to_nat (Qceiling (25 * v))).
  unfold inertiaStops. apply orb_true_iff. right. apply Qltb_lt.
  pose proof (coast_velocity_decays (S (Z.to_nat (Qceiling (25 * v)))) c) as Hd.
  fold v in Hd.
  pose proof (Qabs_nonneg (velocity c)) as Hv. fold v in Hv.
  pose proof (Qabs_nonneg
                (velocity (coast (S (Z.to_nat (Qceiling (25 * v)))) c))) as Ht.
  set (t := Qabs (velocity (coast (S (Z.to_nat (Qceiling (25 * v)))) c))) in *.
  assert (Hc : (25 * v <= inject_Z (Z.of_nat (Z.to_nat (Qceiling (25 * v)))))%Q).
  { eapply Qle_trans; [apply Qle_ceiling|].
    rewrite <- Zle_Qle. lia. }
  rewrite Nat2Z.inj_succ in Hd. unfold Z.succ in Hd. rewrite inject_Z_plus in Hd.
  change (inject_Z 1) with 1%Q in Hd.
  set (m := inject_Z (Z.of_nat (Z.to_nat (Qceiling (25 * v))))) in *.
  nra.
Qed.

Lemma first_stop (N : nat) :
  ∀ c : column,
    inertiaStops (coast (S N) c) = true →
    ∃ k : nat,
      (∀ j : nat, (1 <= j <= k)%nat → inertiaStops (coast j c) = false)
      ∧ inertiaStops (coast (S k) c) = true.
Proof.
  induction N as [|N IH]; intros c H.
  - exists 0%nat. split; [intros j Hj; lia | exact H].
  - destruct (inertiaStops (coast 1 c)) eqn:E1.
    + exists 0%nat. split; [intros j Hj; lia | exact E1].
    + destruct (IH (inertiaAdvance c) H) as (k & Hgo & Hstop).
      exists (S k). split; [|exact Hstop].
      intros j Hj. destruct j as [|j]; [lia|].
      destruct j as [|j]; [exact E1|].
      apply (Hgo (S j)). lia.
Qed.


Lemma index_past_last (y : Q) (n : Z) :
  0 <= n →
  (y < inject_Z (- n * ITEM_HEIGHT))%Q → n <= getIndexFromPosition y.
Proof.
  intros Hn Hy. unfold getIndexFromPosition.
  rewrite <- (Qfloor_Z n). apply Qfloor_resp_le.
  unfold Qdiv. change (/ inject_Z ITEM_HEIGHT)%Q with (1 # 36)%Q.
  replace (- n * ITEM_HEIGHT) with (- (n * 36)) in Hy by (unfold ITEM_HEIGHT; lia).
  rewrite inject_Z_opp, inject_Z_mult in Hy.
  change (inject_Z 36) with 36%Q in Hy. lra.
Qed.

Lemma handleEnd_fling (c : column) :
  isDragging c = true → (2 < Qabs (velocity c))%Q →
  handleEnd c = inertiaScroll (released c).
Proof.
  intros D V. unfold handleEnd. rewrite D. cbn [negb].
  change (velocity (with_isDragging false c)) with (velocity c).
  apply Qltb_lt in V. rewrite V. reflexivity.
Qed.

Lemma coast_succ (j : nat) (c : column) :
  coast (S j) c = inertiaAdvance (coast j c).
Proof.
  revert c. induction j as [|j IH]; intros c; [reflexivity|].
  change (coast (S (S j)) c) with (coast (S j) (inertiaAdvance c)).
  rewrite IH. reflexivity.
Qed.

(** The column coasts along the sequences that start at its velocity and
    offset and obey: velocity times 0.92, then offset plus velocity. *)
Lemma coast_follows (vs ys : nat → Q) (c : column) :
  (vs 0%nat == velocity c)%Q →
  (ys 0%nat == currentY c)%Q →
  (∀ j : nat, (vs (S j) == vs j * 0.92)%Q ∧ (ys (S j) == ys j + vs (S j))%Q) →
  ∀ j : nat,
    (velocity (coast j c) == vs j)%Q ∧ (currentY (coast j c) == ys j)%Q.
Proof.
  intros Hv Hy Hrec. induction j as [|j [IHv IHy]].
  - cbn [coast]. split; symmetry; assumption.
  - rewrite coast_succ. destruct (Hrec j) as [Rv Ry].
    assert (Ev : (velocity (inertiaAdvance (coast j c)) == vs (S j))%Q).
    { change (velocity (inertiaAdvance (coast j c)))
        with (velocity (coast j c) * friction)%Q.
      rewrite IHv, Rv. reflexivity. }
    split; [exact Ev|].
    change (currentY (inertiaAdvance (coast j c)))
      with (currentY (coast j c) + velocity (inertiaAdvance (coast j c)))%Q.
    rewrite IHy, Ev, Ry. reflexivity.
Qed.

Lemma inertiaStops_false (c : column) :
  (minY c <= currentY c)%Q → (currentY c <= maxY)%Q →
  (0.5 <= Qabs (velocity c))%Q →
  inertiaStops c = false.
Proof.
  intros Hlo Hhi Hv. unfold inertiaStops.
  apply Qltb_ge in Hlo, Hhi, Hv. rewrite Hlo, Hhi, Hv. reflexivity.
Qed.

Lemma inertiaStops_past (c : column) :
  (currentY c < minY c)%Q → inertiaStops c = true.
Proof.
  intros H. unfold inertiaStops. apply Qltb_lt in H. rewrite H.
  apply orb_true_iff. left. apply orb_true_r.
Qed.

(** The release and the frames after it while the fling goes on: the
    column is where coasting has brought it, a frame callback waits, and
    nothing was notified. *)
Lemma fling_in_flight (j : nat) :
  ∀ c : column,
    scheduled c = None →
    (∀ i : nat, (1 <= i <= S j)%nat → inertiaStops (coast i c) = false) →
    ∀ c' out,
      (let '(c1, o1) := inertiaScroll c in
       let '(c2, o2) := run c1 (replicate j Frame) in (c2, o1 ++ o2))
      = (c', out) →
      same_motion c' (coast (S j) c) ∧ is_Some (scheduled c') ∧ out = [].
Proof.
  induction j as [|j IH]; intros c Hs Hgo c' out.
  - assert (H1 : inertiaStops (inertiaAdvance c) = false)
      by (apply (Hgo 1%nat); lia).
    unfold inertiaScroll. rewrite H1. cbn [replicate run coast app].
    intros [= <- <-]. split; [repeat split|]. split; [eexists|]; reflexivity.
  - assert (H1 : inertiaStops (inertiaAdvance c) = false)
      by (apply (Hgo 1%nat); lia).
    unfold inertiaScroll at 1. rewrite H1.
    cbn [replicate run step]. unfold frame. cbn [scheduled requestAnimationFrame
      with_animationId with_scheduled].
    set (c0 := with_scheduled None (requestAnimationFrame (inertiaAdvance c))).
    pose proof (same_motion_rescheduled (inertiaAdvance c)) as Hsm. fold c0 in Hsm.
    destruct (inertiaScroll c0) as [c1 o1] eqn:E1.
    destruct (run c1 (replicate j Frame)) as [c2 o2] eqn:E2.
    intros [= <- <-]. cbn [app].
    assert (Hgo' : ∀ i : nat, (1 <= i <= S j)%nat →
                              inertiaStops (coast i c0) = false).
    { intros i Hi. rewrite (same_motion_stops _ _ (same_motion_coast i _ _ Hsm)).
      apply (Hgo (S i)). lia. }
    assert (Hrun :
      (let '(c1, o1) := inertiaScroll c0 in
       let '(c2, o2) := run c1 (replicate j Frame) in (c2, o1 ++ o2))
      = (c2, o1 ++ o2)) by (rewrite E1, E2; reflexivity).
    destruct (IH c0 eq_refl Hgo' c2 (o1 ++ o2) Hrun) as (Hm & Hsch & Ho).
    split; [|split; assumption].
    destruct Hm as (M1 & M2 & M3 & M4 & M5).
    destruct (same_motion_coast (S j) _ _ Hsm) as (N1 & N2 & N3 & N4 & N5).
    change (coast (S (S j)) c) with (coast (S j) (inertiaAdvance c)).
    repeat split; congruence.
Qed.

Lemma minY_of_60 (c : column) :
  length (items c) = 60%nat → (minY c == - (59 * 36))%Q.
Proof. intros H. unfold minY. rewrite H. reflexivity. Qed.

(** C4. A column of 60 items is released on index 58 with a velocity above
    the fling threshold.  Let the velocity be multiplied by 0.92 at every
    tick and the offset then be advanced by the velocity ([vs j] and [ys j]
    after [j] ticks), let the fling go on through ticks 1..k (offset within
    [-59*36, 0] and |velocity| at least 0.5), and let the offset of tick
    k+1 lie past the last index (below -59*36).  Then the column follows
    this trajectory while the fling goes on (after the release and j < k
    frames it has made j+1 ticks: its velocity and offset are [vs (j+1)]
    and [ys (j+1)], a frame callback waits, index 58 stands and nothing is
    notified), and after the release and k frames it has stopped: it is
    idle on index 59, at the rest offset -59*36, with one change
    notification, for index 59. *)
Theorem fling_past_the_end_commits_last_index
    (c : column) (vs ys : nat → Q) (k : nat) :
  length (items c) = 60%nat →
  currentIndex c = 58 →
  isDragging c = true →
  scheduled c = None →
  (2 < Qabs (velocity c))%Q →
  (vs 0%nat == velocity c)%Q →
  (ys 0%nat == currentY c)%Q →
  (∀ j : nat, (vs (S j) == vs j * 0.92)%Q ∧ (ys (S j) == ys j + vs (S j))%Q) →
  (∀ j : nat, (1 <= j <= k)%nat →
     (- (59 * 36) <= ys j)%Q ∧ (ys j <= 0)%Q ∧ (0.5 <= Qabs (vs j))%Q) →
  (ys (S k) < - (59 * 36))%Q →
  (∀ j : nat, (j < k)%nat →
     let '(cj, outj) := run c (PointerUp :: replicate j Frame) in
     idle cj = false
     ∧ (velocity cj == vs (S j))%Q
     ∧ (currentY cj == ys (S j))%Q
     ∧ currentIndex cj = 58
     ∧ outj = [])
  ∧ (let '(c', out) := run c (PointerUp :: replicate k Frame) in
     idle c' = true
     ∧ currentIndex c' = 59
     ∧ (currentY c' == - (59 * 36))%Q
     ∧ out = [(59, item_at (items c) 59)]).
Proof.
  intros Hlen Hidx D Hs V Hv0 Hy0 Hrec Hgo Hpast.
  pose proof (coast_follows vs ys (released c) Hv0 Hy0 Hrec) as F.
  assert (Hmin : ∀ i : nat, (minY (coast i (released c)) == - (59 * 36))%Q).
  { intros i. apply minY_of_60.
    destruct (coast_frame i (released c)) as (-> & _). exact Hlen. }
  assert (Hno : ∀ i : nat, (1 <= i <= k)%nat →
                           inertiaStops (coast i (released c)) = false).
  { intros i Hi. destruct (F i) as [Fv Fy]. destruct (Hgo i Hi) as (G1 & G2 & G3).
    apply inertiaStops_false.
    - rewrite Hmin, Fy. exact G1.
    - rewrite Fy. exact G2.
    - rewrite Fv. exact G3. }
  assert (Hstop : inertiaStops (coast (S k) (released c)) = true).
  { apply inertiaStops_past. destruct (F (S k)) as [_ Fy].
    rewrite Hmin, Fy. exact Hpast. }
  split.
  - intros j Hj. cbn [run step]. rewrite (handleEnd_fling c D V).
    destruct (inertiaScroll (released c)) as [c1 o1] eqn:E1.
    destruct (run c1 (replicate j Frame)) as [c2 o2] eqn:E2.
    assert (Hrun :
      (let '(c1, o1) := inertiaScroll (released c) in
       let '(c2, o2) := run c1 (replicate j Frame) in (c2, o1 ++ o2))
      = (c2, o1 ++ o2)) by (rewrite E1, E2; reflexivity).
    assert (Hgo' : ∀ i : nat, (1 <= i <= S j)%nat →
                              inertiaStops (coast i (released c)) = false)
      by (intros i Hi; apply Hno; lia).
    destruct (fling_in_flight j (released c) Hs Hgo' c2 (o1 ++ o2) Hrun)
      as ((M1 & M2 & M3 & M4 & M5) & [id Hsch] & Ho).
    destruct (F (S j)) as [Fv Fy].
    destruct (coast_frame (S j) (released c)) as (_ & Ck & _).
    split; [unfold idle; rewrite Hsch; apply andb_false_r|].
    split; [rewrite M4; exact Fv|].
    split; [rewrite M3; exact Fy|].
    split; [rewrite M2, Ck; exact Hidx | exact Ho].
  - cbn [run step]. rewrite (handleEnd_fling c D V).
    destruct (inertiaScroll (released c)) as [c1 o1] eqn:E1.
    destruct (run c1 (replicate k Frame)) as [c2 o2] eqn:E2.
    assert (Hrun :
      (let '(c1, o1) := inertiaScroll (released c) in
       let '(c2, o2) := run c1 (replicate k Frame) in (c2, o1 ++ o2))
      = (c2, o1 ++ o2)) by (rewrite E1, E2; reflexivity).
    pose proof (fling_settles k (released c) Hs Hno Hstop c2 (o1 ++ o2) Hrun)
      as G. cbn zeta in G.
    change (items (released c)) with (items c) in G.
    change (currentIndex (released c)) with (currentIndex c) in G.
    change (isDragging (released c)) with false in G.
    destruct G as (Gs & Gd & Gi & Gk & Gy & Go).
    assert (Ht : clamp_index (items c)
                   (getIndexFromPosition (currentY (coast (S k) (released c))))
                 = 59).
    { destruct (F (S k)) as [_ Fy].
      assert (Hlt : (currentY (coast (S k) (released c))
                     < inject_Z (- 59 * ITEM_HEIGHT))%Q).
      { rewrite Fy. change (inject_Z (- 59 * ITEM_HEIGHT)) with (- 2124)%Q.
        lra. }
      pose proof (index_past_last _ 59 ltac:(lia) Hlt) as Hge.
      unfold clamp_index. rewrite Hlen. lia. }
    rewrite Ht in Gk, Gy, Go. rewrite Hidx in Go.
    split; [unfold idle; rewrite Gs, Gd; reflexivity|].
    split; [exact Gk|].
    split; [rewrite Gy; reflexivity | exact Go].
Qed.

Lemma fling_past_the_end_commits_last_index_witness :
  let c := fst (run (createWheelColumn (range (Num 0) 59 true) 58)
                  [PointerDown 300; PointerMove 272.5; PointerMove 270]) in
  let tr := nat_rect (λ _, (Q * Q)%type) ((- 2.5)%Q, (- 2118)%Q)
              (λ _ p, ((fst p * 0.92)%Q, (snd p + fst p * 0.92)%Q)) in
  let vs := λ j : nat, fst (tr j) in
  let ys := λ j : nat, snd (tr j) in
  length (items c) = 60%nat
  ∧ currentIndex c = 58
  ∧ isDragging c = true
  ∧ scheduled c = None
  ∧ (2 < Qabs (velocity c))%Q
  ∧ (vs 0%nat == velocity c)%Q
  ∧ (ys 0%nat == currentY c)%Q
  ∧ (∀ j : nat, (vs (S j) == vs j * 0.92)%Q ∧ (ys (S j) == ys j + vs (S j))%Q)
  ∧ (∀ j : nat, (1 <= j <= 2)%nat →
       (- (59 * 36) <= ys j)%Q ∧ (ys j <= 0)%Q ∧ (0.5 <= Qabs (vs j))%Q)
  ∧ (ys 3%nat < - (59 * 36))%Q
  ∧ (∀ j : nat, (j < 2)%nat →
       let '(cj, outj) := run c (PointerUp :: replicate j Frame) in
       idle cj = false
       ∧ (velocity cj == vs (S j))%Q
       ∧ (currentY cj == ys (S j))%Q
       ∧ currentIndex cj = 58
       ∧ outj = [])
  ∧ (let '(c', out) := run c (PointerUp :: replicate 2 Frame) in
     idle c' = true
     ∧ currentIndex c' = 59
     ∧ (currentY c' == - (59 * 36))%Q
     ∧ out = [(59, item_at (items c) 59)]).
Proof.
  cbv zeta.
  assert (Hrec : ∀ j : nat,
    (fst (nat_rect (λ _, (Q * Q)%type) ((- 2.5)%Q, (- 2118)%Q)
            (λ _ p, ((fst p * 0.92)%Q, (snd p + fst p * 0.92)%Q)) (S j))
     == fst (nat_rect (λ _, (Q * Q)%type) ((- 2.5)%Q, (- 2118)%Q)
            (λ _ p, ((fst p * 0.92)%Q, (snd p + fst p * 0.92)%Q)) j) * 0.92)%Q
    ∧ (snd (nat_rect (λ _, (Q * Q)%type) ((- 2.5)%Q, (- 2118)%Q)
            (λ _ p, ((fst p * 0.92)%Q, (snd p + fst p * 0.92)%Q)) (S j))
       == snd (nat_rect (λ _, (Q * Q)%type) ((- 2.5)%Q, (- 2118)%Q)
            (λ _ p, ((fst p * 0.92)%Q, (snd p + fst p * 0.92)%Q)) j)
          + fst (nat_rect (λ _, (Q * Q)%type) ((- 2.5)%Q, (- 2118)%Q)
            (λ _ p, ((fst p * 0.92)%Q, (snd p + fst p * 0.92)%Q)) (S j)))%Q).
  { intros j. cbn [nat_rect fst snd]. split; apply Qeq_refl. }
  assert (Hgo : ∀ j : nat, (1 <= j <= 2)%nat →
    (- (59 * 36)
     <= snd (nat_rect (λ _, (Q * Q)%type) ((- 2.5)%Q, (- 2118)%Q)
            (λ _ p, ((fst p * 0.92)%Q, (snd p + fst p * 0.92)%Q)) j))%Q
    ∧ (snd (nat_rect (λ _, (Q * Q)%type) ((- 2.5)%Q, (- 2118)%Q)
            (λ _ p, ((fst p * 0.92)%Q, (snd p + fst p * 0.92)%Q)) j) <= 0)%Q
    ∧ (0.5 <= Qabs
         (fst (nat_rect (λ _, (Q * Q)%type) ((- 2.5)%Q, (- 2118)%Q)
            (λ _ p, ((fst p * 0.92)%Q, (snd p + fst p * 0.92)%Q)) j)))%Q).
  { intros j Hj.
    destruct j as [|[|[|j]]]; [lia | | | lia];
      (split; [|split]); vm_compute; intros H; discriminate H. }
  assert (Hpast :
    (snd (nat_rect (λ _, (Q * Q)%type) ((- 2.5)%Q, (- 2118)%Q)
            (λ _ p, ((fst p * 0.92)%Q, (snd p + fst p * 0.92)%Q)) 3%nat)
     < - (59 * 36))%Q) by (vm_compute; reflexivity).
  split; [reflexivity|]. split; [reflexivity|]. split; [reflexivity|].
  split; [reflexivity|]. split; [vm_compute; reflexivity|].
  split; [vm_compute; reflexivity|]. split; [vm_compute; reflexivity|].
  split; [exact Hrec|]. split; [exact Hgo|]. split; [exact Hpast|].
  apply (fling_past_the_end_commits_last_index
           (fst (run (createWheelColumn (range (Num 0) 59 true) 58)
                   [PointerDown 300; PointerMove 272.5; PointerMove 270]))
           (λ j : nat,
              fst (nat_rect (λ _, (Q * Q)%type) ((- 2.5)%Q, (- 2118)%Q)
                     (λ _ p, ((fst p * 0.92)%Q, (snd p + fst p * 0.92)%Q)) j))
           (λ j : nat,
              snd (nat_rect (λ _, (Q * Q)%type) ((- 2.5)%Q, (- 2118)%Q)
                     (λ _ p, ((fst p * 0.92)%Q, (snd p + fst p * 0.92)%Q)) j))
           2%nat);
    [reflexivity | reflexivity | reflexivity | reflexivity
    | vm_compute; reflexivity | vm_compute; reflexivity
    | vm_compute; reflexivity | exact Hrec | exact Hgo | exact Hpast].
Defined.

(** The numbers of that run: dragged from index 58 (offset -2088) by 30
    pixels and released at offset -2118 with velocity -2.5, the column
    ticks to -2120.3 (velocity -2.3) and to -2122.416 (velocity -2.116);
    the third tick, to -2124.36272, is past the last index (-2124): the
    column stops and commits 59. *)
Example fling_from_58_run :
  let c := fst (run (createWheelColumn (range (Num 0) 59 true) 58)
                  [PointerDown 300; PointerMove 272.5; PointerMove 270]) in
  let c1 := fst (run c [PointerUp]) in
  let c2 := fst (run c [PointerUp; Frame]) in
  let '(c3, out) := run c [PointerUp; Frame; Frame] in
  (currentY c == - 2118)%Q ∧ (velocity c == - 2.5)%Q
  ∧ (currentY c1 == - 2120.3)%Q ∧ (velocity c1 == - 2.3)%Q
  ∧ idle c1 = false
  ∧ (currentY c2 == - 2122.416)%Q ∧ (velocity c2 == - 2.116)%Q
  ∧ idle c2 = false
  ∧ (velocity c3 == - 1.94672)%Q
  ∧ (currentY c3 == - 2124)%Q ∧ currentIndex c3 = 59 ∧ idle c3 = true
  ∧ out = [(59, Some "59"%string)].
Proof. vm_compute. repeat split. Qed.

(** ** The calendar *)

(** [YearFromDay] finds the year that holds the day. *)
Lemma YearFromDay_spec (d : Z) :
  DayFromYear (YearFromDay d) <= d < DayFromYear (YearFromDay d + 1).
Proof.
  unfold YearFromDay.
  set (y0 := 1970 + d * 400 / 146097).
  assert (Hy : 146097 * (y0 - 1970) <= d * 400
               < 146097 * (y0 - 1970) + 146097).
  { unfold y0. pose proof (Z.div_mod (d * 400) 146097 ltac:(lia)).
    pose proof (Z.mod_pos_bound (d * 400) 146097 ltac:(lia)). lia. }
  clearbody y0.
  destruct (Z.leb_spec (DayFromYear (y0 + 1)) d) as [H1|H1];
    [|destruct (Z.leb_spec (DayFromYear y0) d) as [H2|H2]];
    unfold DayFromYear in *; Z.div_mod_to_equations; lia.
Qed.

Example days_in_months_of_2024 :
  getDaysInMonth 2024 <$> seqZ 1 12
  = [31; 29; 31; 30; 31; 30; 31; 31; 30; 31; 30; 31].
Proof. reflexivity. Qed.

Example days_in_february :
  (λ y, getDaysInMonth y 2) <$> [1900; 2000; 2023; 2024] = [28; 29; 28; 29].
Proof. reflexivity. Qed.

(** [setMonth] carries an overflowing day into the next month. *)
Example setMonth_carries_over :
  setMonth (mkDate 2024 0 31) 1 = mkDate 2024 2 2.
Proof. reflexivity. Qed.

(** ** The range helpers *)

Lemma range_length (s e : Z) (padZero : bool) :
  length (range (Num s) e padZero) = Z.to_nat (e - s + 1).
Proof.
  unfold range. generalize (Z.to_nat (e - s + 1)) as n. intros n. revert s.
  induction n as [|n IH]; intros s; cbn; [reflexivity|].
  rewrite IH. reflexivity.
Qed.

Lemma getYearRange_fallback (st : stored_settings) (currentYear : Z) :
  st = ItemMissing ∨ st = ParseThrows ∨ st = NoBirthday →
  getYearRange st currentYear = range (Num 2000) (currentYear + 1) false.
Proof. intros [-> | [-> | ->]]; reflexivity. Qed.

Lemma year_range_fallback_nonempty (st : stored_settings) (currentYear : Z) :
  st = ItemMissing ∨ st = ParseThrows ∨ st = NoBirthday →
  1999 <= currentYear →
  length (getYearRange st currentYear) = Z.to_nat (currentYear - 1998)
  ∧ getYearRange st currentYear !! 0%nat = Some "2000"%string.
Proof.
  intros Hst Hy. rewrite (getYearRange_fallback st currentYear Hst).
  split.
  - rewrite range_length. f_equal. lia.
  - unfold range.
    destruct (Z.to_nat (currentYear + 1 - 2000 + 1)) as [|n] eqn:E; [lia|].
    reflexivity.
Qed.

Lemma year_range_of_future_birthday_is_empty (y currentYear : Z) :
  currentYear + 1 < y → getYearRange (Birthday (Num y)) currentYear = [].
Proof.
  intros Hy. unfold getYearRange, birthYear_of, range.
  replace (Z.to_nat (currentYear + 1 - y + 1)) with 0%nat by lia. reflexivity.
Qed.

(** C6, where the code departs from it.  A stored birthday that is not a
    date makes [new Date(birthday).getFullYear()] NaN; nothing is thrown, so
    the default year is not used, the loop of [range] never runs, and the
    year list is empty, whatever the clock says. *)
Theorem year_range_of_unparseable_birthday_is_empty (currentYear : Z) :
  getYearRange (Birthday NaN) currentYear = [].
Proof. reflexivity. Qed.

(** C8, as the code has it.  The month column of a card in date mode is
    created with the twelve strings "1" to "12", in this order, without
    padding. *)
Theorem month_column_items
    (e : env) (h : heap) (value : option loc) (onChange onConfirm : bool)
    (p : picker) :
  create DateMode e h value onChange onConfirm = Some p →
  ∃ monthCol : column,
    columns p !! 1%nat = Some monthCol
    ∧ items monthCol =
      ["1"; "2"; "3"; "4"; "5"; "6"; "7"; "8"; "9"; "10"; "11"; "12"]%string.
Proof.
  unfold create, create_date.
  destruct (match value with
            | Some l => match h !! l with
                        | Some (ODate _) => (l, h)
                        | _ => alloc h (ODate (now e))
                        end
            | None => alloc h (ODate (now e))
            end) as [cv h'].
  destruct (h' !! cv) as [[d|hh mm]|]; intros H; try discriminate H.
  apply (inj Some) in H. subst p. eexists. split; reflexivity.
Qed.

Lemma month_column_items_witness :
  let e := mkEnv ItemMissing (mkDate 2024 5 10) 9 15 in
  ∃ p : picker,
    create DateMode e [] None true true = Some p
    ∧ ∃ monthCol : column,
        columns p !! 1%nat = Some monthCol
        ∧ items monthCol =
          ["1"; "2"; "3"; "4"; "5"; "6"; "7"; "8"; "9"; "10"; "11"; "12"]%string.
Proof.
  cbv zeta. eexists. split; [reflexivity|].
  eapply (month_column_items (mkEnv ItemMissing (mkDate 2024 5 10) 9 15)
            [] None true true).
  reflexivity.
Defined.

(** C8 as stated fails: the month column of a card opened on 10 June 2024
    starts with "1", not with "01". *)
Lemma month_column_items_counterexample :
  let e := mkEnv ItemMissing (mkDate 2024 5 10) 9 15 in
  ∃ (p : picker) (monthCol : column),
    create DateMode e [] None true true = Some p
    ∧ columns p !! 1%nat = Some monthCol
    ∧ items monthCol !! 0%nat = Some "1"%string
    ∧ items monthCol ≠
      ["01"; "02"; "03"; "04"; "05"; "06"; "07"; "08"; "09"; "10"; "11";
       "12"]%string.
Proof.
  cbv zeta. eexists. eexists.
  split; [reflexivity|]. split; [reflexivity|]. split; [reflexivity|].
  vm_compute. intros H. discriminate H.
Qed.

(** ** The card *)

(** The card of the leap-day scenario, whatever its year column is. *)
Lemma april_after_leap_day
    (yearCol : column) (onChange onConfirm : bool) (es : list event) :
  es = [SetIndex 3 true] ∨ es = drag_two_items_up →
  april_outcome onChange
    (column_events 1 es
       (mkPicker DateMode 0%nat
          [yearCol;
           createWheelColumn (range (Num 1) 12 false) 1;
           createWheelColumn (range (Num 1) 29 false) 28]
          onChange onConfirm [ODate (mkDate 2024 1 29)] [] true)).
Proof.
  intros [-> | ->]; destruct onChange;
    (eexists; eexists; split; [vm_compute; reflexivity|];
     split; [reflexivity|]; repeat split).
Qed.

(** C2, as the code has it.  A card in date mode opened on the leap day
    2024-02-29: when the month column commits April (by [setIndex], or by a
    drag of two items that is held still before the release), the day
    column's items become "1" to "30" and the day stays 29, index 28 (29
    fits into April, nothing is clamped); the day column makes no change
    notification, and the card's [onChange] is called once, for the month,
    with 2024-04-29. *)
Theorem leap_day_then_april_keeps_day_29
    (e : env) (onChange onConfirm : bool) :
  ∃ p : picker,
    create DateMode e [ODate (mkDate 2024 1 29)] (Some 0%nat)
      onChange onConfirm = Some p
    ∧ april_outcome onChange (column_events 1 [SetIndex 3 true] p)
    ∧ april_outcome onChange (column_events 1 drag_two_items_up p).
Proof.
  eexists. split; [reflexivity|].
  split; apply april_after_leap_day; [left | right]; reflexivity.
Qed.

(** C2 as stated fails: in that run the committed day is 29, not 30, and
    the card's date is 2024-04-29. *)
Lemma leap_day_then_april_counterexample :
  let e := mkEnv ItemMissing (mkDate 2024 5 10) 9 15 in
  ∃ (p p' : picker) (dayCol : column),
    create DateMode e [ODate (mkDate 2024 1 29)] (Some 0%nat) true true
    = Some p
    ∧ column_events 1 [SetIndex 3 true] p = Some p'
    ∧ columns p' !! 2%nat = Some dayCol
    ∧ getValue dayCol = Some "29"%string
    ∧ getValue dayCol ≠ Some "30"%string
    ∧ read_date p' ≠ Some (mkDate 2024 3 30).
Proof.
  cbv zeta. eexists. eexists. eexists.
  split; [reflexivity|]. split; [vm_compute; reflexivity|].
  split; [reflexivity|]. split; [reflexivity|].
  split; intros H; discriminate H.
Qed.

Lemma copy_value_spec (p : picker) (l : loc) (p' : picker) :
  copy_value p = Some (l, p') →
  ∃ o : obj,
    store p !! currentValue p = Some o
    ∧ l = length (store p)
    ∧ p' = with_store (store p ++ [o]) p.
Proof.
  unfold copy_value, alloc.
  destruct (mode p), (store p !! currentValue p) as [[d|hh mm]|];
    intros H; try discriminate H; apply (inj Some) in H;
    apply pair_equal_spec in H as [<- <-]; eexists; repeat split.
Qed.

Lemma copy_value_total (p : picker) (o : obj) :
  store p !! currentValue p = Some o →
  is_Some (copy_value p) →
  ∀ q : picker,
    mode q = mode p → currentValue q = currentValue p →
    store q !! currentValue q = Some o →
    copy_value q = Some (length (store q), with_store (store q ++ [o]) q).
Proof.
  intros Ho [x Hx] q Hm Hc Hq. unfold copy_value in *.
  rewrite Hm, Hq. rewrite Ho in Hx.
  destruct (mode p), o; try discriminate Hx; reflexivity.
Qed.

(** C9. [getValue()] of the handle returns a new object that holds the
    contents of the card's current value.  The call leaves the card as it
    was: mode, reference to the current value, columns, calls made and
    activity are unchanged, and so is every object that was on the heap.
    Whatever the caller then writes into the returned object, the current
    value is as before, and a later [getValue()] or confirmation hands out
    the same contents again. *)
Theorem getValue_returns_a_fresh_copy (p : picker) (l : loc) (p' : picker) :
  handle_getValue p = Some (l, p') →
  mode p' = mode p ∧ currentValue p' = currentValue p
  ∧ columns p' = columns p ∧ calls p' = calls p ∧ active p' = active p
  ∧ store p !! l = None
  ∧ l ≠ currentValue p
  ∧ (∀ (l0 : loc) (o : obj), store p !! l0 = Some o → store p' !! l0 = Some o)
  ∧ store p' !! l = store p !! currentValue p
  ∧ ∀ o' : obj,
      let q := caller_writes l o' p' in
      store q !! currentValue q = store p !! currentValue p
      ∧ columns q = columns p
      ∧ (∃ (l2 : loc) (q2 : picker),
            handle_getValue q = Some (l2, q2)
            ∧ store q2 !! l2 = store p !! currentValue p)
      ∧ (onConfirm p = true →
         ∃ (l3 : loc) (q3 : picker),
           confirm_click q = Some q3
           ∧ calls q3 = calls p ++ [OnConfirm l3]
           ∧ store q3 !! l3 = store p !! currentValue p).
Proof.
  intros H. unfold handle_getValue in H.
  assert (Hsome : is_Some (copy_value p)) by (rewrite H; eauto).
  destruct (copy_value_spec p l p' H) as (o & Ho & -> & ->).
  pose proof (lookup_lt_Some _ _ _ Ho) as Hlt.
  cbn [mode currentValue columns calls active store with_store].
  repeat (split; [reflexivity|]).
  split; [apply lookup_ge_None_2; lia|].
  split; [lia|].
  split; [intros l0 o0 H0; apply lookup_app_l_Some; exact H0|].
  split; [rewrite Ho; apply list_lookup_middle; reflexivity|].
  intros o'.
  set (q := caller_writes (length (store p)) o' (with_store (store p ++ [o]) p)).
  assert (Hq : store q !! currentValue q = Some o).
  { unfold q, caller_writes.
    cbn [mode currentValue columns calls active store with_store].
    rewrite list_lookup_insert_ne by lia.
    apply lookup_app_l_Some. exact Ho. }
  pose proof (copy_value_total p o Ho Hsome q eq_refl eq_refl Hq) as Hc.
  split; [rewrite Hq, Ho; reflexivity|].
  split; [reflexivity|].
  split.
  - eexists. eexists. split; [exact Hc|].
    cbn [store with_store]. rewrite Ho.
    apply list_lookup_middle. reflexivity.
  - intros Hcf. unfold confirm_click.
    change (onConfirm q) with (onConfirm p). rewrite Hcf, Hc.
    eexists. eexists. split; [reflexivity|].
    cbn [calls close with_active with_calls with_store store q caller_writes].
    split; [reflexivity|].
    rewrite Ho. apply list_lookup_middle. reflexivity.
Qed.

Lemma getValue_returns_a_fresh_copy_witness :
  let e := mkEnv ItemMissing (mkDate 2024 5 10) 9 15 in
  ∃ (p p' : picker) (l : loc),
    create TimeMode e [OTime 23 58] (Some 0%nat) true true = Some p
    ∧ handle_getValue p = Some (l, p')
    ∧ l ≠ currentValue p
    ∧ columns p' = columns p
    ∧ store (caller_writes l (OTime 0 0) p') !! currentValue p
      = Some (OTime 23 58).
Proof.
  cbv zeta. eexists. eexists. eexists.
  split; [reflexivity|]. split; [reflexivity|].
  pose proof (getValue_returns_a_fresh_copy _ _ _
    (eq_refl : handle_getValue
                 (mkPicker TimeMode 0%nat
                    [createWheelColumn (range (Num 0) 23 true) 23;
                     createWheelColumn (range (Num 0) 59 true) 58]
                    true true [OTime 23 58] [] true) = Some _))
    as (_ & _ & Hc & _ & _ & _ & Hl & _ & _ & Hw).
  split; [exact Hl|]. split; [exact Hc|].
  exact (proj1 (Hw (OTime 0 0))).
Defined.

Lemma clamp_index_id (l : list string) (i : Z) :
  0 <= i < Z.of_nat (length l) → clamp_index l i = i.
Proof. unfold clamp_index. lia. Qed.

(** [parseInt] reads back the padded strings of the hour and minute
    columns. *)
Lemma parse_minute_item (i : Z) :
  0 <= i <= 59 → parseInt (item_at (range (Num 0) 59 true) i) = Num i.
Proof.
  intros Hi.
  assert (H : bool_decide
                (Forall (λ i, parseInt (item_at (range (Num 0) 59 true) i) = Num i)
                   (seqZ 0 60)) = true) by (vm_compute; reflexivity).
  apply bool_decide_eq_true_1 in H.
  rewrite Forall_forall in H. apply H, list_elem_of_In, elem_of_seqZ. lia.
Qed.

Lemma parse_hour_item (i : Z) :
  0 <= i <= 23 → parseInt (item_at (range (Num 0) 23 true) i) = Num i.
Proof.
  intros Hi.
  assert (H : bool_decide
                (Forall (λ i, parseInt (item_at (range (Num 0) 23 true) i) = Num i)
                   (seqZ 0 24)) = true) by (vm_compute; reflexivity).
  apply bool_decide_eq_true_1 in H.
  rewrite Forall_forall in H. apply H, list_elem_of_In, elem_of_seqZ. lia.
Qed.

Lemma handle_one (f : note → picker → option picker) (n : note) (p : picker) :
  handle_all f [n] p = f n p.
Proof. cbn. destruct (f n p); reflexivity. Qed.

(** [setIndex] on column [k] of the card with an index within the items. *)
Lemma api_setIndex_in_range (k : nat) (p : picker) (c : column) (i : Z) :
  columns p !! k = Some c →
  0 <= i < Z.of_nat (length (items c)) →
  api_setIndex k i p =
  if i =? currentIndex c
  then Some (with_columns (<[k := setPosition c i true]> (columns p)) p)
  else handler (mode p) k (i, item_at (items c) i)
         (with_columns
            (<[k := setPosition (with_currentIndex i c) i true]> (columns p)) p).
Proof.
  intros Hc Hi. unfold api_setIndex, column_event. rewrite Hc. cbn [mbind option_bind].
  cbn [step]. unfold setIndex, scrollToIndex. rewrite (clamp_index_id _ _ Hi).
  destruct (i =? currentIndex c); [reflexivity|]. apply handle_one.
Qed.

Lemma hour_changed_fires (p : picker) (v h m : Z) :
  0 <= v <= 23 → read_time p = Some (h, m) →
  hour_changed (v, item_at (range (Num 0) 23 true) v) p
  = fire_onChange (write_value (OTime v m) p).
Proof.
  intros Hv Hr. unfold hour_changed. cbn [snd].
  rewrite (parse_hour_item v Hv). cbn [as_int mbind option_bind].
  rewrite Hr. reflexivity.
Qed.

Lemma minute_changed_fires (p : picker) (v h m : Z) :
  0 <= v <= 59 → read_time p = Some (h, m) →
  minute_changed (v, item_at (range (Num 0) 59 true) v) p
  = fire_onChange (write_value (OTime h v) p).
Proof.
  intros Hv Hr. unfold minute_changed. cbn [snd].
  rewrite (parse_minute_item v Hv). cbn [as_int mbind option_bind].
  rewrite Hr. reflexivity.
Qed.

Ltac card_simpl :=
  cbv [with_currentValue with_store with_columns with_calls with_active
       write_value alloc];
  cbn [nowHours nowMinutes app mode currentValue columns onChange onConfirm
       store calls active insert list_insert handler mbind option_bind
       length lookup list_lookup].

Lemma fire_onChange_time (p : picker) (h m : Z) :
  mode p = TimeMode → onChange p = true → read_time p = Some (h, m) →
  fire_onChange p =
  Some (with_calls (calls p ++ [OnChange (length (store p))])
          (with_store (store p ++ [OTime h m]) p)).
Proof.
  intros Hm Ho Hr. unfold fire_onChange, copy_value. rewrite Ho, Hm.
  unfold read_time in Hr.
  destruct (store p !! currentValue p) as [[d|h' m']|]; try discriminate Hr.
  apply (inj Some) in Hr. apply pair_equal_spec in Hr as [-> ->]. reflexivity.
Qed.

Ltac fire_now H M :=
  match goal with
  | |- context [fire_onChange ?p] =>
      rewrite (fire_onChange_time p H M eq_refl eq_refl eq_refl)
  end.

Ltac hour_now H M HH :=
  match goal with
  | |- context [hour_changed _ ?p] =>
      rewrite (hour_changed_fires p H H M HH eq_refl)
  end.

Ltac minute_now H M HM :=
  match goal with
  | |- context [minute_changed _ ?p] =>
      rewrite (minute_changed_fires p M H M HM eq_refl)
  end.

(** The quick button on a card in time mode that holds the value object
    and nothing else on its heap. *)
Lemma quick_click_time
    (st : stored_settings) (nw : date) (H M h0 m0 : Z) (onConfirm : bool)
    (c0 c1 : column) :
  0 <= H <= 23 → 0 <= M <= 59 →
  items c0 = range (Num 0) 23 true → items c1 = range (Num 0) 59 true →
  currentIndex c0 = h0 → currentIndex c1 = m0 →
  let n := ((if Z.eqb H h0 then 0 else 1)
            + (if Z.eqb M m0 then 0 else 1) + 1)%nat in
  quick_click (mkEnv st nw H M)
    (mkPicker TimeMode 0%nat [c0; c1] true onConfirm [OTime h0 m0] [] true)
  = Some (mkPicker TimeMode 1%nat
            [setPosition (with_currentIndex H c0) H true;
             setPosition (with_currentIndex M c1) M true]
            true onConfirm
            ([OTime h0 m0; OTime H M] ++ replicate n (OTime H M))
            (OnChange <$> seq 2 n) true).
Proof.
  intros HH HM I0 I1 K0 K1 n.
  assert (R0 : H = h0 → with_currentIndex H c0 = c0)
    by (intros ->; rewrite <- K0; destruct c0; reflexivity).
  assert (R1 : M = m0 → with_currentIndex M c1 = c1)
    by (intros ->; rewrite <- K1; destruct c1; reflexivity).
  unfold quick_click. card_simpl.
  match goal with
  | |- context [api_setIndex 0 H ?p] =>
      rewrite (api_setIndex_in_range 0 p c0 H eq_refl)
        by (rewrite I0, range_length; cbn; lia)
  end.
  card_simpl. rewrite I0, K0. subst n.
  destruct (Z.eqb_spec H h0) as [EH|EH];
    [rewrite (R0 EH)
    |hour_now H M HH; card_simpl; fire_now H M; card_simpl];
    (card_simpl;
     match goal with
     | |- context [api_setIndex 1 M ?p] =>
         rewrite (api_setIndex_in_range 1 p c1 M eq_refl)
           by (rewrite I1, range_length; cbn; lia)
     end;
     card_simpl; rewrite I1, K1;
     destruct (Z.eqb_spec M m0) as [EM|EM];
     [rewrite (R1 EM)
     |minute_now H M HM; card_simpl; fire_now H M; card_simpl]).
  all: card_simpl; fire_now H M; card_simpl; reflexivity.
Qed.

(** C5, as the code has it.  The quick button of a card in time mode sets
    both columns to the clock's hour and minute, and calls [onChange] once
    for each column whose index changes by that and once more at the end,
    every time with the new value: three calls when both columns
    differed from the clock. *)
Theorem jump_to_now_in_time_mode
    (e : env) (h0 m0 : Z) (onConfirm : bool) :
  0 <= nowHours e <= 23 →
  0 <= nowMinutes e <= 59 →
  ∃ p p' : picker,
    create TimeMode e [OTime h0 m0] (Some 0%nat) true onConfirm = Some p
    ∧ quick_click e p = Some p'
    ∧ getIndex <$> columns p' = [nowHours e; nowMinutes e]
    ∧ read_time p' = Some (nowHours e, nowMinutes e)
    ∧ changes p' =
      replicate
        ((if Z.eqb (nowHours e) h0 then 0 else 1)
         + (if Z.eqb (nowMinutes e) m0 then 0 else 1) + 1)%nat
        (Some (OTime (nowHours e) (nowMinutes e))).
Proof.
  destruct e as [st nw H M]. cbn [nowHours nowMinutes]. intros HH HM.
  pose proof (quick_click_time st nw H M h0 m0 onConfirm
                (createWheelColumn (range (Num 0) 23 true) h0)
                (createWheelColumn (range (Num 0) 59 true) m0)
                HH HM eq_refl eq_refl eq_refl eq_refl) as Hq.
  cbv zeta in Hq.
  eexists. eexists. split; [reflexivity|]. split; [exact Hq|].
  split; [reflexivity|].
  destruct (H =? h0), (M =? m0); repeat split.
Qed.

Lemma jump_to_now_in_time_mode_witness :
  let e := mkEnv ItemMissing (mkDate 2024 5 10) 9 15 in
  0 <= nowHours e <= 23
  ∧ 0 <= nowMinutes e <= 59
  ∧ ∃ p p' : picker,
      create TimeMode e [OTime 23 58] (Some 0%nat) true true = Some p
      ∧ quick_click e p = Some p'
      ∧ getIndex <$> columns p' = [9; 15]
      ∧ read_time p' = Some (9, 15)
      ∧ changes p' = replicate 3 (Some (OTime 9 15)).
Proof.
  cbv zeta. split; [cbn; lia|]. split; [cbn; lia|].
  apply (jump_to_now_in_time_mode
           (mkEnv ItemMissing (mkDate 2024 5 10) 9 15) 23 58 true);
    cbn; lia.
Defined.

(** C5 as stated fails: opened on 23:58 with the clock at 09:15, the quick
    button calls [onChange] three times, not once. *)
Lemma jump_to_now_counterexample :
  let e := mkEnv ItemMissing (mkDate 2024 5 10) 9 15 in
  ∃ p p' : picker,
    create TimeMode e [OTime 23 58] (Some 0%nat) true true = Some p
    ∧ quick_click e p = Some p'
    ∧ changes p' =
      [Some (OTime 9 15); Some (OTime 9 15); Some (OTime 9 15)]
    ∧ length (changes p') ≠ 1%nat.
Proof.
  cbv zeta. eexists. eexists.
  split; [reflexivity|]. split; [vm_compute; reflexivity|].
  split; [reflexivity|]. cbn. lia.
Qed.


(** * Further properties of the column *)

(** ** The frame callback *)

Lemma scrollToIndex_bookkeeping (c : column) (i : Z) (a : bool) :
  let c' := fst (scrollToIndex c i a) in
  animationId c' = animationId c ∧ scheduled c' = scheduled c
  ∧ startY c' = startY c ∧ lastY c' = lastY c ∧ nextFrame c' = nextFrame c.
Proof.
  unfold scrollToIndex.
  destruct (clamp_index (items c) i =? currentIndex c); cbn; auto.
Qed.

Lemma scrollToIndex_tracks (c : column) (i : Z) (a : bool) :
  tracks_frame c → tracks_frame (fst (scrollToIndex c i a)).
Proof.
  intros T id. destruct (scrollToIndex_bookkeeping c i a) as (Ha & Hs & _).
  rewrite Ha, Hs. apply T.
Qed.

Lemma inertiaScroll_tracks (c : column) :
  scheduled c = None → tracks_frame (fst (inertiaScroll c)).
Proof.
  intros Hs. unfold inertiaScroll.
  destruct (inertiaStops (inertiaAdvance c)).
  - apply scrollToIndex_tracks. intros id H. cbn in H. congruence.
  - intros id H. cbn in *. exact H.
Qed.

Lemma handleStart_cancels (c : column) (y : Q) :
  tracks_frame c →
  scheduled (handleStart c y) = None ∧ animationId (handleStart c y) = None.
Proof.
  intros T. unfold handleStart. cbn.
  destruct (animationId c) as [id|] eqn:A; cbn.
  - unfold cancelAnimationFrame. cbn.
    destruct (scheduled c) as [id'|] eqn:S; cbn; [|auto].
    pose proof (T id' S) as E. rewrite A in E. injection E as ->.
    rewrite Pos.eqb_refl. cbn. auto.
  - destruct (scheduled c) as [id'|] eqn:S; [|auto].
    pose proof (T id' S) as E. rewrite A in E. discriminate E.
Qed.

Lemma step_tracks (c : column) (e : event) :
  tracks_frame c → tracks_frame (fst (step c e)).
Proof.
  intros T.
  destruct e as [y|y| | |i|d|i a|l i]; cbn [step fst].
  - intros id H. destruct (handleStart_cancels c y T) as [Hs _]. congruence.
  - unfold handleMove. destruct (isDragging c); cbn [negb]; [|exact T].
    intros id H. cbn in *. apply T, H.
  - unfold handleEnd. destruct (isDragging c); cbn [negb]; [|exact T].
    destruct (Qltb 2 (Qabs (velocity (with_isDragging false c)))).
    + unfold inertiaScroll.
      destruct (inertiaStops (inertiaAdvance (with_isDragging false c))).
      * apply scrollToIndex_tracks. intros id H. cbn in *. apply T, H.
      * intros id H. cbn in *. exact H.
    + apply scrollToIndex_tracks. intros id H. cbn in *. apply T, H.
  - unfold frame. destruct (scheduled c) eqn:S; [|exact T].
    apply inertiaScroll_tracks. reflexivity.
  - apply scrollToIndex_tracks, T.
  - apply scrollToIndex_tracks, T.
  - apply scrollToIndex_tracks, T.
  - unfold setItems. apply scrollToIndex_tracks. intros id H. cbn in *. apply T, H.
Qed.

Lemma run_tracks (es : list event) (c : column) :
  tracks_frame c → tracks_frame (fst (run c es)).
Proof.
  revert c. induction es as [|e es IH]; intros c T; cbn [run]; [exact T|].
  pose proof (step_tracks c e T) as T1.
  destruct (step c e) as [c1 o1]. specialize (IH c1 T1).
  destruct (run c1 es) as [c2 o2]. exact IH.
Qed.

Lemma created_tracks (l : list string) (selectedIndex : Z) :
  tracks_frame (createWheelColumn l selectedIndex).
Proof. intros id H. discriminate H. Qed.

(** X1.  A pointer-down on a column, whatever it was doing since its creation,
    cancels the fling in flight: afterwards the column is being dragged
    with velocity 0, no frame callback waits, an animation frame that
    comes late changes nothing, and the offset and the committed index are
    where the fling had left them. *)
Theorem pointer_down_cancels_the_fling
    (l : list string) (selectedIndex : Z) (es : list event) (clientY : Q) :
  let c := fst (run (createWheelColumn l selectedIndex) es) in
  let c' := handleStart c clientY in
  isDragging c' = true
  ∧ velocity c' = 0%Q
  ∧ scheduled c' = None
  ∧ animationId c' = None
  ∧ step c' Frame = (c', [])
  ∧ currentY c' = currentY c
  ∧ currentIndex c' = currentIndex c
  ∧ items c' = items c.
Proof.
  intros c c'.
  assert (T : tracks_frame c) by apply run_tracks, created_tracks.
  clearbody c.
  destruct (handleStart_cancels c clientY T) as [Hs Ha]. fold c' in Hs, Ha.
  split; [apply handleStart_dragging|].
  split; [unfold c', handleStart; reflexivity|].
  split; [exact Hs|]. split; [exact Ha|].
  split; [cbn [step]; unfold frame; rewrite Hs; reflexivity|].
  unfold c', handleStart. cbn.
  destruct (animationId c) as [id|]; cbn; [|repeat split].
  unfold cancelAnimationFrame. cbn.
  destruct (scheduled c) as [id'|]; [destruct (Pos.eqb id id')|]; cbn;
    repeat split.
Qed.

(** X2.  [destroy()] cancels the waiting frame callback of a column, whatever
    the column was doing since its creation: afterwards no callback waits,
    an animation frame changes nothing and makes no notification; the
    committed index, the items and the offset stay; and a second
    [destroy()] changes nothing more. *)
Theorem destroy_cancels_and_is_idempotent
    (l : list string) (selectedIndex : Z) (es : list event) :
  let c := fst (run (createWheelColumn l selectedIndex) es) in
  scheduled (destroy c) = None
  ∧ step (destroy c) Frame = (destroy c, [])
  ∧ destroy (destroy c) = destroy c
  ∧ currentIndex (destroy c) = currentIndex c
  ∧ items (destroy c) = items c
  ∧ currentY (destroy c) = currentY c.
Proof.
  intros c.
  assert (T : tracks_frame c) by apply run_tracks, created_tracks.
  clearbody c.
  assert (Hs : scheduled (destroy c) = None).
  { unfold destroy, cancelAnimationFrame.
    destruct (animationId c) as [id|] eqn:A.
    - destruct (scheduled c) as [id'|] eqn:S; [|exact S].
      pose proof (T id' S) as E. rewrite A in E. injection E as ->.
      rewrite Pos.eqb_refl. reflexivity.
    - destruct (scheduled c) as [id'|] eqn:S; [|reflexivity].
      pose proof (T id' S) as E. rewrite A in E. discriminate E. }
  split; [exact Hs|].
  split; [cbn [step]; unfold frame; rewrite Hs; reflexivity|].
  split.
  - unfold destroy at 1. unfold cancelAnimationFrame. rewrite Hs.
    destruct (animationId (destroy c)); reflexivity.
  - unfold destroy, cancelAnimationFrame.
    destruct (animationId c) as [id|]; [|repeat split].
    destruct (scheduled c) as [id'|]; [destruct (Pos.eqb id id')|]; cbn;
      repeat split.
Qed.


(** ** Dragging *)

Lemma handleMove_dragging (c : column) (y : Q) :
  isDragging c = true →
  let c' := handleMove c y in
  isDragging c' = true ∧ startY c' = startY c ∧ items c' = items c
  ∧ currentIndex c' = currentIndex c ∧ scheduled c' = scheduled c
  ∧ velocity c' = (y - lastY c)%Q ∧ lastY c' = y
  ∧ currentY c' = dampedY c (y - startY c)%Q.
Proof.
  intros D. unfold handleMove, dampedY. rewrite D. cbn [negb].
  repeat split; cbn; try reflexivity; exact D.
Qed.

Lemma last_default (ys : list Q) (r d d' : Q) :
  List.last (r :: ys) d = List.last (r :: ys) d'.
Proof.
  revert r. induction ys as [|q ys IH]; intros r; [reflexivity|].
  change (List.last (q :: ys) d = List.last (q :: ys) d'). apply IH.
Qed.

Lemma last_after_cons (ys : list Q) (a d : Q) :
  List.last (a :: ys) d = List.last ys a.
Proof.
  destruct ys as [|q ys]; [reflexivity|].
  change (List.last (q :: ys) d = List.last (q :: ys) a). apply last_default.
Qed.

Lemma moves_keep_startY (ys : list Q) (c : column) :
  isDragging c = true →
  let c' := fst (run c (PointerMove <$> ys)) in
  isDragging c' = true ∧ startY c' = startY c ∧ items c' = items c
  ∧ currentIndex c' = currentIndex c
  ∧ snd (run c (PointerMove <$> ys)) = [].
Proof.
  revert c. induction ys as [|y ys IH]; intros c D; cbn [fmap list_fmap run].
  - cbn. auto.
  - cbn [step].
    destruct (handleMove_dragging c y D) as (D1 & S1 & I1 & K1 & _).
    specialize (IH (handleMove c y) D1).
    destruct (run (handleMove c y) (PointerMove <$> ys)) as [c2 o2].
    cbn [fst snd] in *. destruct IH as (D2 & S2 & I2 & K2 & ->).
    repeat split; congruence.
Qed.

(** X3.  During a drag the shown offset depends on the last pointer position
    only: after a pointer-down at [y0] and any pointer moves that end at
    [y], the offset is the damped value of the raw offset
    [y - y0 + (offset at the pointer-down)], the velocity is the last step
    of the pointer, and no notification was made.  So within the valid
    range the column follows the pointer exactly, without drift. *)
Theorem drag_depends_on_last_position
    (c : column) (y0 : Q) (ys : list Q) (y : Q) :
  let c0 := handleStart c y0 in
  let '(c', out) := run c0 (PointerMove <$> (ys ++ [y])) in
  currentY c' = dampedY c (y - startY c0)%Q
  ∧ (startY c0 == y0 - currentY c)%Q
  ∧ ((minY c <= currentY c + (y - y0))%Q → (currentY c + (y - y0) <= maxY)%Q →
     (currentY c' == currentY c + (y - y0))%Q)
  ∧ velocity c' = (y - List.last ys y0)%Q
  ∧ currentIndex c' = currentIndex c
  ∧ out = [].
Proof.
  intros c0.
  assert (D0 : isDragging c0 = true) by apply handleStart_dragging.
  assert (F0 : startY c0 = (y0 - currentY c)%Q ∧ lastY c0 = y0
               ∧ items c0 = items c ∧ currentIndex c0 = currentIndex c
               ∧ currentY c0 = currentY c).
  { unfold c0, handleStart. cbn.
    destruct (animationId c) as [id|]; cbn; [|repeat split].
    unfold cancelAnimationFrame. cbn.
    destruct (scheduled c) as [id'|]; [destruct (Pos.eqb id id')|]; cbn;
      repeat split. }
  destruct F0 as (S0 & L0 & I0 & K0 & Y0).
  clearbody c0.
  rewrite fmap_app. cbn [fmap list_fmap].
  assert (Hl : ∀ (ys : list Q) (c1 : column),
             isDragging c1 = true →
             lastY (fst (run c1 (PointerMove <$> ys))) = List.last ys (lastY c1)).
  { clear. induction ys as [|a ys IH]; intros c1 D1; [reflexivity|].
    cbn [fmap list_fmap run step].
    destruct (handleMove_dragging c1 a D1) as (D2 & _ & _ & _ & _ & _ & L2 & _).
    specialize (IH (handleMove c1 a) D2).
    destruct (run (handleMove c1 a) (PointerMove <$> ys)) as [c2 o2].
    cbn [fst] in *. rewrite IH, L2. symmetry. apply last_after_cons. }
  specialize (Hl ys c0 D0).
  destruct (moves_keep_startY ys c0 D0) as (D1 & S1 & I1 & K1 & O1).
  assert (Hrun : run c0 ((PointerMove <$> ys) ++ [PointerMove y])
                 = (handleMove (fst (run c0 (PointerMove <$> ys))) y, [])).
  { clear - O1. revert c0 O1.
    induction ys as [|a ys IH]; intros c0 O1; cbn [fmap list_fmap run app step].
    - reflexivity.
    - cbn [fmap list_fmap run step] in O1.
      destruct (run (handleMove c0 a) (PointerMove <$> ys)) as [c2 o2] eqn:E.
      cbn [snd app] in O1. subst o2.
      specialize (IH (handleMove c0 a)). rewrite E in IH. cbn [fst snd] in IH.
      rewrite (IH eq_refl). reflexivity. }
  rewrite Hrun.
  set (c1 := fst (run c0 (PointerMove <$> ys))) in *.
  destruct (handleMove_dragging c1 y D1) as (_ & _ & _ & K2 & _ & V2 & _ & Y2).
  assert (Hd : dampedY c1 (y - startY c1)%Q = dampedY c (y - startY c0)%Q).
  { unfold dampedY, minY. rewrite S1, I1, I0. reflexivity. }
  split; [rewrite Y2; exact Hd|].
  split; [rewrite S0; reflexivity|].
  split.
  - intros Hlo Hhi. rewrite Y2, Hd, S0. unfold dampedY.
    assert (E1 : Qltb maxY (y - (y0 - currentY c)) = false)
      by (apply Qltb_ge; unfold maxY in *; lra).
    assert (E2 : Qltb (y - (y0 - currentY c)) (minY c) = false)
      by (apply Qltb_ge; lra).
    rewrite E1, E2. lra.
  - split; [rewrite V2, Hl, L0; reflexivity|].
    split; [congruence|reflexivity].
Qed.


(** ** Commits and notifications *)

Lemma scrollToIndex_note (c : column) (i : Z) (a : bool) :
  let '(c', out) := scrollToIndex c i a in
  out = (if currentIndex c' =? currentIndex c then []
         else [(currentIndex c', getValue c')]).
Proof.
  unfold scrollToIndex.
  destruct (Z.eqb_spec (clamp_index (items c) i) (currentIndex c)) as [E|E].
  - cbn. rewrite Z.eqb_refl. reflexivity.
  - cbn. destruct (Z.eqb_spec (clamp_index (items c) i) (currentIndex c));
      [contradiction|reflexivity].
Qed.

Lemma inertiaScroll_note (c : column) :
  let '(c', out) := inertiaScroll c in
  out = (if currentIndex c' =? currentIndex c then []
         else [(currentIndex c', getValue c')]).
Proof.
  unfold inertiaScroll. destruct (inertiaStops (inertiaAdvance c)).
  - apply (scrollToIndex_note (inertiaAdvance c)).
  - cbn. rewrite Z.eqb_refl. reflexivity.
Qed.

(** One event makes at most one notification, and makes it exactly when
    it changes the committed index; the notification carries the new index
    and the item at it. *)
Lemma step_note (c : column) (e : event) :
  let '(c', out) := step c e in
  out = (if currentIndex c' =? currentIndex c then []
         else [(currentIndex c', getValue c')]).
Proof.
  destruct e as [y|y| | |i|d|i a|l i]; cbn [step].
  - replace (currentIndex (handleStart c y)) with (currentIndex c).
    + rewrite Z.eqb_refl. reflexivity.
    + unfold handleStart. cbn. destruct (animationId c) as [id|]; cbn;
        [|reflexivity].
      unfold cancelAnimationFrame. cbn.
      destruct (scheduled c) as [id'|]; [destruct (Pos.eqb id id')|];
        reflexivity.
  - unfold handleMove. destruct (isDragging c); cbn; rewrite Z.eqb_refl;
      reflexivity.
  - unfold handleEnd. destruct (isDragging c); cbn [negb].
    + destruct (Qltb 2 (Qabs (velocity (with_isDragging false c)))).
      * apply (inertiaScroll_note (with_isDragging false c)).
      * apply (scrollToIndex_note (with_isDragging false c)).
    + rewrite Z.eqb_refl. reflexivity.
  - unfold frame. destruct (scheduled c).
    + apply (inertiaScroll_note (with_scheduled None c)).
    + rewrite Z.eqb_refl. reflexivity.
  - apply scrollToIndex_note.
  - apply scrollToIndex_note.
  - apply scrollToIndex_note.
  - apply (scrollToIndex_note (with_items l c)).
Qed.

(** X4.  Over any sequence of events on any column, the notifications trace the
    committed index: the index committed at the end is that of the last
    notification (the starting index when there was none), and no
    notification repeats the index that was committed before it. *)
Theorem notifications_trace_the_committed_index
    (c : column) (es : list event) :
  let '(c', out) := run c es in
  let indices := currentIndex c :: (fst <$> out) in
  List.last indices 0 = currentIndex c'
  ∧ ∀ (k : nat) (a b : Z),
      indices !! k = Some a → indices !! S k = Some b → a ≠ b.
Proof.
  revert c. induction es as [|e es IH]; intros c; cbn [run].
  - split; [reflexivity|]. intros k a b _ H. destruct k; discriminate H.
  - pose proof (step_note c e) as Hn. destruct (step c e) as [c1 o1].
    specialize (IH c1). destruct (run c1 es) as [c2 o2].
    cbv zeta in IH. destruct IH as [Hl Hd]. cbv zeta.
    destruct (Z.eqb_spec (currentIndex c1) (currentIndex c)) as [E|E]; subst o1.
    + cbn [app]. rewrite <- E. split; assumption.
    + cbn [app fmap list_fmap fst].
      split.
      * rewrite <- Hl. reflexivity.
      * intros [|k] a b Ha Hb.
        -- cbn in Ha, Hb. congruence.
        -- apply (Hd k a b); assumption.
Qed.

(** ** The committed index stays within the items *)

Lemma scrollToIndex_in_range (c : column) (i : Z) (a : bool) :
  items c ≠ [] → in_range (fst (scrollToIndex c i a)).
Proof.
  intros Hne. unfold in_range.
  rewrite scrollToIndex_index.
  destruct (scrollToIndex_frame c i a) as (-> & _).
  apply clamp_index_range, Hne.
Qed.

Lemma in_range_nonempty (c : column) : in_range c → items c ≠ [].
Proof.
  unfold in_range. intros H E. rewrite E in H. cbn in H. lia.
Qed.

Lemma step_in_range (c : column) (e : event) :
  keeps_items e = true → in_range c → in_range (fst (step c e)).
Proof.
  intros Hk R. pose proof (in_range_nonempty c R) as Hne.
  destruct e as [y|y| | |i|d|i a|l i]; cbn [step fst].
  - unfold in_range, handleStart. cbn. destruct (animationId c) as [id|]; cbn;
      [|exact R].
    unfold cancelAnimationFrame. cbn.
    destruct (scheduled c) as [id'|]; [destruct (Pos.eqb id id')|]; exact R.
  - unfold handleMove. destruct (isDragging c); exact R.
  - unfold handleEnd. destruct (isDragging c); cbn [negb]; [|exact R].
    destruct (Qltb 2 (Qabs (velocity (with_isDragging false c)))).
    + unfold inertiaScroll.
      destruct (inertiaStops (inertiaAdvance (with_isDragging false c)));
        [apply scrollToIndex_in_range; exact Hne | exact R].
    + apply scrollToIndex_in_range. exact Hne.
  - unfold frame. destruct (scheduled c); [|exact R].
    unfold inertiaScroll.
    destruct (inertiaStops (inertiaAdvance (with_scheduled None c)));
      [apply scrollToIndex_in_range; exact Hne | exact R].
  - apply scrollToIndex_in_range, Hne.
  - apply scrollToIndex_in_range, Hne.
  - apply scrollToIndex_in_range, Hne.
  - unfold setItems. apply scrollToIndex_in_range. cbn.
    destruct l; [discriminate Hk | discriminate].
Qed.

(** X5.  A column created on an index within its items, and never given an
    empty item list, always has its committed index within the items:
    [getValue()] is never [undefined]. *)
Theorem committed_index_stays_in_range
    (l : list string) (selectedIndex : Z) (es : list event) :
  0 <= selectedIndex < Z.of_nat (length l) →
  forallb keeps_items es = true →
  let c := fst (run (createWheelColumn l selectedIndex) es) in
  0 <= getIndex c < Z.of_nat (length (items c))
  ∧ ∃ s : string, getValue c = Some s
                   ∧ items c !! Z.to_nat (getIndex c) = Some s.
Proof.
  intros Hsel Hes c.
  assert (R : in_range c).
  { unfold c. clear c.
    assert (R0 : in_range (createWheelColumn l selectedIndex)) by exact Hsel.
    revert R0 Hes. generalize (createWheelColumn l selectedIndex) as c0.
    induction es as [|e es IH]; intros c0 R0 Hes; cbn [run]; [exact R0|].
    cbn [forallb] in Hes. apply andb_true_iff in Hes as [He Hes].
    pose proof (step_in_range c0 e He R0) as R1.
    destruct (step c0 e) as [c1 o1]. specialize (IH c1 R1 Hes).
    destruct (run c1 es) as [c2 o2]. exact IH. }
  split; [exact R|].
  destruct (item_at_Some (items c) (currentIndex c) R) as [s Hs].
  exists s. split; [exact Hs|].
  unfold item_at in Hs. unfold in_range in R.
  destruct (Z.ltb_spec (currentIndex c) 0); [lia|exact Hs].
Qed.

Lemma committed_index_stays_in_range_witness :
  let l := range (Num 0) 59 true in
  let es := [PointerDown 10; PointerMove 900; PointerUp; Frame; Wheel (-1);
             SetItems (range (Num 1) 28 false) 30; Click 99] in
  0 <= 58 < Z.of_nat (length l)
  ∧ forallb keeps_items es = true
  ∧ (let c := fst (run (createWheelColumn l 58) es) in
     0 <= getIndex c < Z.of_nat (length (items c))
     ∧ ∃ s : string, getValue c = Some s
                      ∧ items c !! Z.to_nat (getIndex c) = Some s).
Proof.
  cbv zeta. split; [rewrite range_length; cbn; lia|]. split; [reflexivity|].
  apply (committed_index_stays_in_range (range (Num 0) 59 true) 58
           [PointerDown 10; PointerMove 900; PointerUp; Frame; Wheel (-1);
            SetItems (range (Num 1) 28 false) 30; Click 99]);
    [rewrite range_length; cbn; lia | reflexivity].
Defined.


(** ** The wheel *)

Lemma sign_spec (d : Q) :
  ((0 < d)%Q → sign d = 1) ∧ ((d < 0)%Q → sign d = -1)
  ∧ ((d == 0)%Q → sign d = 0).
Proof.
  unfold sign, Qlt, Qeq. destruct d as [n m]. cbn.
  repeat split; intros H; destruct n; cbn in *; lia.
Qed.

(** X6.  One tick of the mouse wheel moves the committed index by exactly one
    item in the direction of the tick, and stops at the ends: at the last
    item a tick downwards, and at the first item a tick upwards, changes
    nothing and makes no notification.  The column is on its rest offset
    afterwards. *)
Theorem wheel_tick_moves_one_item (c : column) (deltaY : Q) :
  0 <= currentIndex c < Z.of_nat (length (items c)) →
  let last := Z.of_nat (length (items c)) - 1 in
  let '(c', out) := handleWheel c deltaY in
  ((0 < deltaY)%Q → currentIndex c' = Z.min (currentIndex c + 1) last)
  ∧ ((deltaY < 0)%Q → currentIndex c' = Z.max (currentIndex c - 1) 0)
  ∧ ((deltaY == 0)%Q → currentIndex c' = currentIndex c)
  ∧ (out = [] ↔ currentIndex c' = currentIndex c)
  ∧ currentY c' = inject_Z (- currentIndex c' * ITEM_HEIGHT).
Proof.
  intros R last. unfold handleWheel.
  pose proof (scrollToIndex_index c (currentIndex c + sign deltaY) true) as Hi.
  pose proof (scrollToIndex_note c (currentIndex c + sign deltaY) true) as Hn.
  pose proof (scrollToIndex_aligned c (currentIndex c + sign deltaY) true) as Ha.
  destruct (scrollToIndex c (currentIndex c + sign deltaY) true) as [c' out].
  cbn [fst] in Hi, Ha. unfold clamp_index in Hi. fold last in Hi.
  destruct (sign_spec deltaY) as (Hp & Hm & Hz).
  split; [intros H; rewrite Hi, (Hp H); lia|].
  split; [intros H; rewrite Hi, (Hm H); lia|].
  split; [intros H; rewrite Hi, (Hz H); lia|].
  split; [|exact Ha].
  rewrite Hn. destruct (Z.eqb_spec (currentIndex c') (currentIndex c));
    split; intros H; try reflexivity; try assumption; try discriminate H;
    contradiction.
Qed.

Lemma wheel_tick_moves_one_item_witness :
  let c := createWheelColumn (range (Num 0) 59 true) 59 in
  0 <= currentIndex c < Z.of_nat (length (items c))
  ∧ handleWheel c 120 = (c, [])
  ∧ (let last := Z.of_nat (length (items c)) - 1 in
     let '(c', out) := handleWheel c 120 in
     ((0 < 120)%Q → currentIndex c' = Z.min (currentIndex c + 1) last)
     ∧ ((120 < 0)%Q → currentIndex c' = Z.max (currentIndex c - 1) 0)
     ∧ ((120 == 0)%Q → currentIndex c' = currentIndex c)
     ∧ (out = [] ↔ currentIndex c' = currentIndex c)
     ∧ currentY c' = inject_Z (- currentIndex c' * ITEM_HEIGHT)).
Proof.
  cbv zeta.
  assert (R : 0 <= currentIndex (createWheelColumn (range (Num 0) 59 true) 59)
              < Z.of_nat (length (items
                   (createWheelColumn (range (Num 0) 59 true) 59))))
    by (vm_compute; split; [discriminate | reflexivity]).
  split; [exact R|]. split; [reflexivity|].
  apply (wheel_tick_moves_one_item
           (createWheelColumn (range (Num 0) 59 true) 59) 120 R).
Defined.

(** ** Replacing the items *)

(** X7.  [setItems(newItems, newIndex)] replaces the items and commits the index
    [newIndex], cut down to the last new item and raised to 0, without
    animation: the column is on its rest offset, and [getValue()] is the new
    item at that index.  It notifies exactly when the committed index
    changes (a new item under an unchanged index is not announced).  A drag
    in progress keeps its state ([isDragging], the grab point, the
    velocity), and a waiting frame callback stays.  With no new items the
    index is 0 and [getValue()] is [undefined]. *)
Theorem setItems_commits_the_cut_index
    (c : column) (newItems : list string) (newIndex : Z) :
  let '(c', out) := setItems c newItems newIndex in
  items c' = newItems
  ∧ getIndex c'
    = Z.max 0 (Z.min newIndex (Z.of_nat (length newItems) - 1))
  ∧ currentY c' = inject_Z (- currentIndex c' * ITEM_HEIGHT)
  ∧ (newItems ≠ [] →
     ∃ s : string, getValue c' = Some s
                   ∧ newItems !! Z.to_nat (getIndex c') = Some s)
  ∧ (newItems = [] → getIndex c' = 0 ∧ getValue c' = None)
  ∧ (out = [] ↔ getIndex c' = getIndex c)
  ∧ isDragging c' = isDragging c ∧ startY c' = startY c
  ∧ velocity c' = velocity c ∧ scheduled c' = scheduled c.
Proof.
  unfold setItems.
  set (i := Z.min newIndex (Z.of_nat (length newItems) - 1)).
  pose proof (scrollToIndex_index (with_items newItems c) i false) as Hi.
  pose proof (scrollToIndex_note (with_items newItems c) i false) as Hn.
  pose proof (scrollToIndex_aligned (with_items newItems c) i false) as Ha.
  pose proof (scrollToIndex_frame (with_items newItems c) i false)
    as (Hit & Hd & Hs & Hv).
  pose proof (scrollToIndex_bookkeeping (with_items newItems c) i false)
    as (_ & _ & Hst & _).
  destruct (scrollToIndex (with_items newItems c) i false) as [c' out].
  cbn [fst items with_items isDragging scheduled velocity startY currentIndex]
    in *.
  unfold getIndex, getValue.
  assert (Hk : currentIndex c'
               = Z.max 0 (Z.min newIndex (Z.of_nat (length newItems) - 1)))
    by (rewrite Hi; unfold clamp_index, i; lia).
  split; [exact Hit|]. split; [exact Hk|]. split; [exact Ha|].
  split.
  { intros Hne.
    assert (R : 0 <= currentIndex c' < Z.of_nat (length newItems)).
    { rewrite Hi. apply clamp_index_range, Hne. }
    rewrite Hit. destruct (item_at_Some newItems _ R) as [s Hs'].
    exists s. split; [exact Hs'|].
    unfold item_at in Hs'. destruct (Z.ltb_spec (currentIndex c') 0);
      [lia|exact Hs']. }
  split.
  { intros ->. cbn in Hk. split; [lia|].
    rewrite Hit. unfold item_at. destruct (currentIndex c' <? 0); reflexivity. }
  split.
  { rewrite Hn. destruct (Z.eqb_spec (currentIndex c') (currentIndex c));
      split; intros H; try reflexivity; try assumption; try discriminate H;
      contradiction. }
  repeat split; assumption.
Qed.


(** ** The release *)

Lemma round_bounds (y : Q) :
  let k := getIndexFromPosition y in
  (inject_Z k * 36 - 18 <= - y)%Q ∧ (- y < inject_Z k * 36 + 18)%Q.
Proof.
  unfold getIndexFromPosition.
  set (x := (- y / inject_Z ITEM_HEIGHT + 0.5)%Q).
  pose proof (Qfloor_le x) as Hlo. pose proof (Qlt_floor x) as Hhi.
  rewrite inject_Z_plus in Hhi. change (inject_Z 1) with 1%Q in Hhi.
  cbv zeta. set (f := inject_Z (Qfloor x)) in *.
  unfold x, Qdiv in Hlo, Hhi.
  change (/ inject_Z ITEM_HEIGHT)%Q with (1 # 36)%Q in Hlo, Hhi.
  split; lra.
Qed.

Lemma handleEnd_slow (c : column) :
  isDragging c = true → (Qabs (velocity c) <= 2)%Q →
  handleEnd c
  = scrollToIndex (released c) (getIndexFromPosition (currentY c)) true.
Proof.
  intros D V. unfold handleEnd. rewrite D. cbn [negb].
  change (velocity (with_isDragging false c)) with (velocity c).
  apply Qltb_ge in V. rewrite V. reflexivity.
Qed.

(** X8.  A release without fling (velocity at most 2 pixels per event) commits
    the item nearest to the shown offset: released within the valid range,
    the column moves by at most half an item height (18 pixels) to its rest
    offset; released above the first item it commits index 0, released
    below the last item it commits the last index.  The drag is over and
    the index is within the items. *)
Theorem slow_release_snaps_to_the_nearest_item (c : column) :
  isDragging c = true →
  items c ≠ [] →
  (Qabs (velocity c) <= 2)%Q →
  let '(c', out) := handleEnd c in
  isDragging c' = false
  ∧ 0 <= currentIndex c' < Z.of_nat (length (items c))
  ∧ currentY c' = inject_Z (- currentIndex c' * ITEM_HEIGHT)
  ∧ ((minY c <= currentY c)%Q → (currentY c <= maxY)%Q →
     (Qabs (currentY c' - currentY c) <= 18)%Q)
  ∧ ((maxY < currentY c)%Q → currentIndex c' = 0)
  ∧ ((currentY c < minY c)%Q →
     currentIndex c' = Z.of_nat (length (items c)) - 1).
Proof.
  intros D Hne V. rewrite (handleEnd_slow c D V).
  set (k := getIndexFromPosition (currentY c)).
  pose proof (scrollToIndex_index (released c) k true) as Hi.
  pose proof (scrollToIndex_aligned (released c) k true) as Ha.
  pose proof (scrollToIndex_frame (released c) k true) as (_ & Hd & _).
  destruct (scrollToIndex (released c) k true) as [c' out].
  cbn [fst] in Hi, Ha, Hd.
  change (items (released c)) with (items c) in Hi.
  change (isDragging (released c)) with false in Hd.
  pose proof (clamp_index_range (items c) k Hne) as R. rewrite <- Hi in R.
  destruct (round_bounds (currentY c)) as [Blo Bhi]. fold k in Blo, Bhi.
  assert (Hlen : 0 < Z.of_nat (length (items c))) by lia.
  set (n := Z.of_nat (length (items c))) in *.
  assert (Hmin : (minY c == - (inject_Z n * 36) + 36)%Q).
  { unfold minY. fold n. unfold ITEM_HEIGHT.
    replace (- (n - 1) * 36) with (- (n * 36) + 36) by lia.
    rewrite inject_Z_plus, inject_Z_opp, inject_Z_mult. reflexivity. }
  split; [exact Hd|]. split; [exact R|]. split; [exact Ha|].
  unfold maxY.
  split; [|split].
  - intros Hlo Hhi.
    assert (Hk : 0 <= k < n).
    { split.
      - assert (Hk' : -1 < k); [|lia].
        rewrite Zlt_Qlt. change (inject_Z (-1)) with (-1)%Q. lra.
      - rewrite Zlt_Qlt. lra. }
    assert (Hc : currentIndex c' = k).
    { rewrite Hi. apply clamp_index_id. exact Hk. }
    unfold aligned in Ha. rewrite Ha, Hc. unfold offset_of, ITEM_HEIGHT.
    replace (- k * 36) with (- (k * 36)) by lia.
    rewrite inject_Z_opp, inject_Z_mult. change (inject_Z 36) with 36%Q.
    apply Qabs_Qle_condition. split; lra.
  - intros Hpos.
    assert (Hk : k <= 0).
    { assert (Hk' : k < 1); [|lia].
      rewrite Zlt_Qlt. change (inject_Z 1) with 1%Q. lra. }
    rewrite Hi. unfold clamp_index. fold n. lia.
  - intros Hneg.
    assert (Hk : n - 1 <= k).
    { assert (Hk' : n < k + 2); [|lia].
      rewrite Zlt_Qlt. rewrite inject_Z_plus.
      change (inject_Z 2) with 2%Q. lra. }
    rewrite Hi. unfold clamp_index. fold n. lia.
Qed.

Lemma slow_release_snaps_to_the_nearest_item_witness :
  let c := fst (run (createWheelColumn (range (Num 0) 59 true) 10)
                  [PointerDown 200; PointerMove 215; PointerMove 216]) in
  isDragging c = true
  ∧ items c ≠ []
  ∧ (Qabs (velocity c) <= 2)%Q
  ∧ handleEnd c = (fst (handleEnd c), [])
  ∧ (let '(c', out) := handleEnd c in
     isDragging c' = false
     ∧ 0 <= currentIndex c' < Z.of_nat (length (items c))
     ∧ currentY c' = inject_Z (- currentIndex c' * ITEM_HEIGHT)
     ∧ ((minY c <= currentY c)%Q → (currentY c <= maxY)%Q →
        (Qabs (currentY c' - currentY c) <= 18)%Q)
     ∧ ((maxY < currentY c)%Q → currentIndex c' = 0)
     ∧ ((currentY c < minY c)%Q →
        currentIndex c' = Z.of_nat (length (items c)) - 1)).
Proof.
  cbv zeta.
  split; [reflexivity|]. split; [vm_compute; discriminate|].
  split; [vm_compute; discriminate|]. split; [vm_compute; reflexivity|].
  apply (slow_release_snaps_to_the_nearest_item
           (fst (run (createWheelColumn (range (Num 0) 59 true) 10)
                   [PointerDown 200; PointerMove 215; PointerMove 216])));
    [reflexivity | vm_compute; discriminate | vm_compute; discriminate].
Defined.

(** ** Every release settles *)

Lemma coast_stops_by (c : column) :
  inertiaStops
    (coast (S (Z.to_nat (Qceiling (25 * Qabs (velocity c))))) c) = true.
Proof.
  set (v := Qabs (velocity c)).
  unfold inertiaStops. apply orb_true_iff. right. apply Qltb_lt.
  pose proof (coast_velocity_decays (S (Z.to_nat (Qceiling (25 * v)))) c) as Hd.
  fold v in Hd.
  pose proof (Qabs_nonneg (velocity c)) as Hv. fold v in Hv.
  pose proof (Qabs_nonneg
                (velocity (coast (S (Z.to_nat (Qceiling (25 * v)))) c))) as Ht.
  set (t := Qabs (velocity (coast (S (Z.to_nat (Qceiling (25 * v)))) c))) in *.
  assert (Hc : (25 * v <= inject_Z (Z.of_nat (Z.to_nat (Qceiling (25 * v)))))%Q).
  { eapply Qle_trans; [apply Qle_ceiling|].
    rewrite <- Zle_Qle. lia. }
  rewrite Nat2Z.inj_succ in Hd. unfold Z.succ in Hd. rewrite inject_Z_plus in Hd.
  change (inject_Z 1) with 1%Q in Hd.
  set (m := inject_Z (Z.of_nat (Z.to_nat (Qceiling (25 * v))))) in *.
  nra.
Qed.

Lemma first_stop_within (N : nat) :
  ∀ c : column,
    inertiaStops (coast (S N) c) = true →
    ∃ k : nat,
      (k <= N)%nat
      ∧ (∀ j : nat, (1 <= j <= k)%nat → inertiaStops (coast j c) = false)
      ∧ inertiaStops (coast (S k) c) = true.
Proof.
  induction N as [|N IH]; intros c H.
  - exists 0%nat. split; [lia|]. split; [intros j Hj; lia | exact H].
  - destruct (inertiaStops (coast 1 c)) eqn:E1.
    + exists 0%nat. split; [lia|]. split; [intros j Hj; lia | exact E1].
    + destruct (IH (inertiaAdvance c) H) as (k & Hk & Hgo & Hstop).
      exists (S k). split; [lia|]. split; [|exact Hstop].
      intros j Hj. destruct j as [|j]; [lia|].
      destruct j as [|j]; [exact E1|].
      apply (Hgo (S j)). lia.
Qed.

(** X9.  Every release settles, on any column: after the pointer-up and at most
    [ceil (25 * |velocity|)] animation frames the column is idle, on the
    rest offset of its committed index, which lies within the items; the
    release and the frames make at most one notification. *)
Theorem every_release_settles (c : column) :
  isDragging c = true →
  scheduled c = None →
  ∃ k : nat,
    (k <= Z.to_nat (Qceiling (25 * Qabs (velocity c))))%nat
    ∧ let '(c', out) := run c (release_and_frames k) in
      idle c' = true
      ∧ currentY c' = inject_Z (- currentIndex c' * ITEM_HEIGHT)
      ∧ (items c ≠ [] → 0 <= currentIndex c' < Z.of_nat (length (items c)))
      ∧ items c' = items c
      ∧ (length out <= 1)%nat.
Proof.
  intros D Hs.
  destruct (Qlt_le_dec 2 (Qabs (velocity c))) as [V|V].
  - destruct (first_stop_within _ (released c) (coast_stops_by (released c)))
      as (k & Hk & Hgo & Hstop).
    exists k. split; [exact Hk|].
    unfold release_and_frames. cbn [run step].
    rewrite (handleEnd_fling c D V).
    destruct (inertiaScroll (released c)) as [c1 o1] eqn:E1.
    destruct (run c1 (replicate k Frame)) as [c2 o2] eqn:E2.
    pose proof (fling_settles k (released c) Hs Hgo Hstop c2 (o1 ++ o2)) as F.
    assert (Hrun :
      (let '(c1, o1) := inertiaScroll (released c) in
       let '(c2, o2) := run c1 (replicate k Frame) in (c2, o1 ++ o2))
      = (c2, o1 ++ o2)) by (rewrite E1, E2; reflexivity).
    specialize (F Hrun). cbn zeta in F.
    change (items (released c)) with (items c) in F.
    change (currentIndex (released c)) with (currentIndex c) in F.
    change (isDragging (released c)) with false in F.
    destruct F as (Fs & Fd & Fi & Fk & Fy & Fo).
    split; [unfold idle; rewrite Fs, Fd; reflexivity|].
    split; [rewrite Fk; exact Fy|].
    split; [intros Hne; rewrite Fk; apply clamp_index_range, Hne|].
    split; [exact Fi|].
    rewrite Fo. destruct (_ =? _); cbn; lia.
  - exists 0%nat. split; [lia|].
    unfold release_and_frames. cbn [replicate run step].
    rewrite (handleEnd_slow c D V).
    set (k := getIndexFromPosition (currentY c)).
    pose proof (scrollToIndex_index (released c) k true) as Hi.
    pose proof (scrollToIndex_aligned (released c) k true) as Ha.
    pose proof (scrollToIndex_frame (released c) k true) as (Hit & Hd & Hsc & _).
    pose proof (scrollToIndex_notes (released c) k true) as Hn.
    destruct (scrollToIndex (released c) k true) as [c' out].
    cbn [fst snd] in *. rewrite app_nil_r.
    change (items (released c)) with (items c) in *.
    change (isDragging (released c)) with false in Hd.
    change (scheduled (released c)) with (scheduled c) in Hsc.
    split; [unfold idle; rewrite Hd, Hsc, Hs; reflexivity|].
    split; [exact Ha|].
    split; [intros Hne; rewrite Hi; apply clamp_index_range, Hne|].
    split; [exact Hit|].
    rewrite Hn. cbv zeta. destruct (_ =? _); cbn; lia.
Qed.

Lemma every_release_settles_witness :
  let c := fst (run (createWheelColumn (range (Num 0) 59 true) 30)
                  [PointerDown 300; PointerMove 290; PointerMove 250]) in
  isDragging c = true
  ∧ scheduled c = None
  ∧ ∃ k : nat,
      (k <= Z.to_nat (Qceiling (25 * Qabs (velocity c))))%nat
      ∧ let '(c', out) := run c (release_and_frames k) in
        idle c' = true
        ∧ currentY c' = inject_Z (- currentIndex c' * ITEM_HEIGHT)
        ∧ (items c ≠ [] → 0 <= currentIndex c' < Z.of_nat (length (items c)))
        ∧ items c' = items c
        ∧ (length out <= 1)%nat.
Proof.
  cbv zeta. split; [reflexivity|]. split; [reflexivity|].
  apply (every_release_settles
           (fst (run (createWheelColumn (range (Num 0) 59 true) 30)
                   [PointerDown 300; PointerMove 290; PointerMove 250])));
    reflexivity.
Defined.


(** * The range helpers and [parseInt] *)

Lemma digits_prefix_uint (d : Decimal.uint) (acc : Z) :
  digits_prefix (NilEmpty.string_of_uint d) (Some acc)
  = Some (uint_val d acc).
Proof.
  revert acc. induction d; intros acc; cbn [NilEmpty.string_of_uint uint_val];
    [reflexivity | ..]; exact (IHd _).
Qed.

Lemma uint_val_pos (d : Decimal.uint) (p : positive) :
  uint_val d (Z.pos p) = Z.pos (Pos.of_uint_acc d p).
Proof.
  revert p. induction d; intros p; cbn [uint_val Pos.of_uint_acc];
    [reflexivity | ..];
    match goal with
    | |- uint_val _ ?a = Z.pos (Pos.of_uint_acc _ ?q) =>
        replace a with (Z.pos q) by lia; apply IHd
    end.
Qed.

Lemma uint_val_zero (d : Decimal.uint) :
  uint_val d 0 = Z.of_N (Pos.of_uint d).
Proof.
  induction d; cbn [uint_val Pos.of_uint]; [reflexivity | exact IHd | ..];
    match goal with
    | |- uint_val _ ?a = _ => change a with (Z.pos (Z.to_pos a))
    end; rewrite uint_val_pos; reflexivity.
Qed.

Lemma uint_val_to_uint (p : positive) :
  uint_val (Pos.to_uint p) 0 = Z.pos p.
Proof. rewrite uint_val_zero, Unsigned.of_to. reflexivity. Qed.

Lemma string_of_uint_digit_first (d : Decimal.uint) :
  d ≠ Decimal.Nil →
  parseInt (Some (NilEmpty.string_of_uint d))
  = match digits_prefix (NilEmpty.string_of_uint d) None with
    | Some n => Num n
    | None => NaN
    end
  ∧ digits_prefix (NilEmpty.string_of_uint d) None = Some (uint_val d 0).
Proof.
  intros Hd. destruct d; [contradiction | ..];
    (split; [reflexivity|]);
    cbn [NilEmpty.string_of_uint uint_val]; exact (digits_prefix_uint _ _).
Qed.

(** [parseInt(String(z)) = z] for every integer. *)
Lemma parseInt_String_of (z : Z) : parseInt (Some (String_of z)) = Num z.
Proof.
  unfold String_of. destruct z as [|p|p]; [reflexivity | |].
  - cbn [Z.to_int NilZero.string_of_int].
    pose proof (Unsigned.to_uint_nonnil p) as Hn.
    assert (E : NilZero.string_of_uint (Pos.to_uint p)
                = NilEmpty.string_of_uint (Pos.to_uint p)).
    { unfold NilZero.string_of_uint. destruct (Pos.to_uint p);
        [contradiction | reflexivity..]. }
    rewrite E. destruct (string_of_uint_digit_first _ Hn) as [-> ->].
    rewrite uint_val_to_uint. reflexivity.
  - cbn [Z.to_int NilZero.string_of_int].
    pose proof (Unsigned.to_uint_nonnil p) as Hn.
    assert (E : NilZero.string_of_uint (Pos.to_uint p)
                = NilEmpty.string_of_uint (Pos.to_uint p)).
    { unfold NilZero.string_of_uint. destruct (Pos.to_uint p);
        [contradiction | reflexivity..]. }
    rewrite E. destruct (string_of_uint_digit_first _ Hn) as [_ Hd].
    unfold parseInt. cbn [skip_spaces]. cbn. rewrite Hd, uint_val_to_uint.
    reflexivity.
Qed.

Lemma String_of_inj (a b : Z) : String_of a = String_of b → a = b.
Proof.
  intros H. pose proof (parseInt_String_of a) as Ha.
  rewrite H, parseInt_String_of in Ha. congruence.
Qed.

Lemma String_of_nonneg_padded (z : Z) :
  0 <= z → parseInt (Some (String "0"%char (String_of z))) = Num z.
Proof.
  intros Hz. unfold String_of. destruct z as [|p|p]; [reflexivity | | lia].
  cbn [Z.to_int NilZero.string_of_int].
  pose proof (Unsigned.to_uint_nonnil p) as Hn.
  assert (E : NilZero.string_of_uint (Pos.to_uint p)
              = NilEmpty.string_of_uint (Pos.to_uint p)).
  { unfold NilZero.string_of_uint. destruct (Pos.to_uint p);
      [contradiction | reflexivity..]. }
  rewrite E. unfold parseInt. cbn [skip_spaces]. cbn.
  change (digit_of "0"%char) with (Some 0). cbn [Z.mul Z.add].
  rewrite digits_prefix_uint, uint_val_to_uint. reflexivity.
Qed.

Lemma String_of_length (z : Z) :
  (1 <= String.length (String_of z))%nat
  ∧ (z < 0 → (2 <= String.length (String_of z))%nat).
Proof.
  unfold String_of. destruct z as [|p|p]; [cbn; lia | |];
    cbn [Z.to_int NilZero.string_of_int];
    pose proof (Unsigned.to_uint_nonnil p) as Hn;
    unfold NilZero.string_of_uint;
    destruct (Pos.to_uint p); try contradiction;
    cbn [NilEmpty.string_of_uint String.length]; lia.
Qed.

(** Every string that [range] makes, padded or not, is read back by
    [parseInt] as the number it was made from. *)
Lemma parseInt_render (padZero : bool) (z : Z) :
  parseInt (Some (render padZero z)) = Num z.
Proof.
  unfold render. destruct padZero; [|apply parseInt_String_of].
  unfold padStart. destruct (String_of_length z) as [H1 H2].
  destruct (String.length (String_of z)) as [|[|n]] eqn:E; [lia | |].
  - cbn [Nat.sub repeat_char String.append].
    apply String_of_nonneg_padded.
    destruct (Z.lt_ge_cases z 0) as [Hz|Hz]; [specialize (H2 Hz); lia | exact Hz].
  - cbn [Nat.sub repeat_char String.append]. apply parseInt_String_of.
Qed.

Lemma range_loop_lookup (n : nat) (s : Z) (padZero : bool) (i : nat) :
  range_loop n s padZero !! i
  = if (i <? n)%nat then Some (render padZero (s + Z.of_nat i)) else None.
Proof.
  revert s i. induction n as [|n IH]; intros s i; [reflexivity|].
  destruct i as [|i]; cbn [range_loop lookup list_lookup].
  - rewrite Z.add_0_r. reflexivity.
  - change (range_loop n (s + 1) padZero !! i
            = (if (S i <? S n)%nat
               then Some (render padZero (s + Z.of_nat (S i))) else None)).
    rewrite IH. change (S i <? S n)%nat with (i <? n)%nat.
    replace (s + 1 + Z.of_nat i) with (s + Z.of_nat (S i)) by lia. reflexivity.
Qed.

Lemma item_at_range (s e_ : Z) (padZero : bool) (i : Z) :
  item_at (range (Num s) e_ padZero) i
  = if (0 <=? i) && (i <=? e_ - s)
    then Some (render padZero (s + i)) else None.
Proof.
  unfold item_at, range. destruct (Z.ltb_spec i 0) as [Hi|Hi].
  - destruct (Z.leb_spec 0 i); [lia|reflexivity].
  - rewrite range_loop_lookup.
    destruct (Z.leb_spec 0 i); [|lia]. cbn [andb].
    destruct (Z.leb_spec i (e_ - s)), (Nat.ltb_spec (Z.to_nat i)
      (Z.to_nat (e_ - s + 1))); try lia; [|reflexivity].
    rewrite Z2Nat.id by lia. reflexivity.
Qed.

Lemma parse_range_item (s e_ : Z) (padZero : bool) (i : Z) :
  0 <= i <= e_ - s →
  parseInt (item_at (range (Num s) e_ padZero) i) = Num (s + i).
Proof.
  intros Hi. rewrite item_at_range.
  destruct (Z.leb_spec 0 i), (Z.leb_spec i (e_ - s)); try lia.
  apply parseInt_render.
Qed.

(** X10.  [range(start, end, padZero)] has [end - start + 1] items when that is
    positive and none otherwise; its item [i] is the decimal string of
    [start + i] (with a leading 0 below 10 when padded), and [parseInt]
    reads it back as [start + i]; outside the list [items[i]] is
    [undefined] and [parseInt] gives NaN. *)
Theorem range_items_parse_back (s e_ : Z) (padZero : bool) (i : Z) :
  length (range (Num s) e_ padZero) = Z.to_nat (e_ - s + 1)
  ∧ (0 <= i <= e_ - s →
     item_at (range (Num s) e_ padZero) i = Some (render padZero (s + i))
     ∧ parseInt (item_at (range (Num s) e_ padZero) i) = Num (s + i))
  ∧ (i < 0 ∨ e_ - s < i →
     item_at (range (Num s) e_ padZero) i = None
     ∧ parseInt (item_at (range (Num s) e_ padZero) i) = NaN).
Proof.
  split; [apply range_length|].
  split.
  - intros Hi. split; [|apply parse_range_item, Hi].
    rewrite item_at_range.
    destruct (Z.leb_spec 0 i), (Z.leb_spec i (e_ - s)); try lia. reflexivity.
  - intros Hi. rewrite item_at_range.
    destruct (Z.leb_spec 0 i), (Z.leb_spec i (e_ - s)); try lia;
      split; reflexivity.
Qed.

Lemma range_items_parse_back_witness :
  0 <= 7 <= 59 - 0
  ∧ item_at (range (Num 0) 59 true) 7 = Some "07"%string
  ∧ parseInt (item_at (range (Num 0) 59 true) 7) = Num 7.
Proof.
  split; [lia|]. split; [reflexivity|].
  apply (proj1 (proj2 (range_items_parse_back 0 59 true 7))). lia.
Defined.


(** ** The year column *)

Lemma index_from_range (n : nat) (s y i0 : Z) :
  index_from (range_loop n s false) (String_of y) i0
  = if (s <=? y) && (y <? s + Z.of_nat n) then i0 + (y - s) else -1.
Proof.
  revert s i0. induction n as [|n IH]; intros s i0.
  - cbn [range_loop index_from].
    destruct (Z.leb_spec s y), (Z.ltb_spec y (s + Z.of_nat 0)); cbn [andb];
      try reflexivity; lia.
  - cbn [range_loop index_from render].
    destruct (String.eqb_spec (String_of s) (String_of y)) as [E|E].
    + apply String_of_inj in E. subst y.
      destruct (Z.leb_spec s s), (Z.ltb_spec s (s + Z.of_nat (S n)));
        cbn [andb]; lia.
    + rewrite IH.
      assert (s ≠ y) by congruence.
      destruct (Z.leb_spec (s + 1) y), (Z.ltb_spec y (s + 1 + Z.of_nat n)),
        (Z.leb_spec s y), (Z.ltb_spec y (s + Z.of_nat (S n)));
        cbn [andb]; lia.
Qed.

Lemma length_range_loop (n : nat) (s : Z) (padZero : bool) :
  length (range_loop n s padZero) = n.
Proof.
  revert s. induction n as [|n IH]; intros s; cbn; [reflexivity|].
  rewrite IH. reflexivity.
Qed.

(** X11.  The year column of a card opened in date mode on a date of year [y],
    with the years running from the birth year [b] to the clock's year
    plus one: it opens on the year [y] when [y] is among the years; on the
    last year, the clock's year plus one, when it is not (the card's value
    keeps the year [y] all the same); and with no years at all (a birth
    year after the clock's year plus one) the column opens on index -1 and
    shows nothing. *)
Theorem year_column_opens_on_the_value_or_the_last_year
    (e : env) (d : date) (b : Z) (onChange onConfirm : bool) :
  birthYear_of (settings e) = Num b →
  let y := fullYear d in
  let last := fullYear (now e) + 1 in
  ∃ (p : picker) (yearCol : column),
    create DateMode e [ODate d] (Some 0%nat) onChange onConfirm = Some p
    ∧ columns p !! 0%nat = Some yearCol
    ∧ read_date p = Some d
    ∧ items yearCol = range (Num b) last false
    ∧ (b <= y <= last →
       getIndex yearCol = y - b ∧ getValue yearCol = Some (String_of y))
    ∧ (b <= last → (y < b ∨ last < y) →
       getIndex yearCol = last - b
       ∧ getValue yearCol = Some (String_of last))
    ∧ (last < b → getIndex yearCol = -1 ∧ getValue yearCol = None).
Proof.
  intros Hb y last.
  eexists. eexists. split; [reflexivity|]. split; [reflexivity|].
  split; [reflexivity|].
  unfold getYearRange. rewrite Hb. fold y last.
  split; [reflexivity|].
  unfold getIndex, getValue.
  cbn [currentIndex items createWheelColumn setPosition with_currentY].
  unfold indexOf, range. rewrite index_from_range, length_range_loop.
  pose proof (range_items_parse_back b last false) as R.
  unfold range in R.
  split; [|split].
  - intros Hy.
    destruct (Z.leb_spec b y), (Z.ltb_spec y (b + Z.of_nat (Z.to_nat (last - b + 1))));
      cbn [andb]; try lia.
    destruct (Z.leb_spec 0 (0 + (y - b))); [|lia].
    split; [lia|].
    destruct (R (0 + (y - b))) as (_ & R1 & _).
    rewrite (proj1 (R1 ltac:(lia))). f_equal. f_equal. lia.
  - intros Hl Hy.
    destruct (Z.leb_spec b y), (Z.ltb_spec y (b + Z.of_nat (Z.to_nat (last - b + 1))));
      cbn [andb]; try lia;
      (destruct (Z.leb_spec 0 (-1)); [lia|]);
      (split; [lia|]);
      destruct (R (Z.of_nat (Z.to_nat (last - b + 1)) - 1)) as (_ & R1 & _);
      rewrite (proj1 (R1 ltac:(lia))); f_equal; f_equal; lia.
  - intros Hl.
    destruct (Z.leb_spec b y), (Z.ltb_spec y (b + Z.of_nat (Z.to_nat (last - b + 1))));
      cbn [andb]; try lia;
      (destruct (Z.leb_spec 0 (-1)); [lia|]);
      replace (Z.to_nat (last - b + 1)) with 0%nat by lia;
      split; reflexivity.
Qed.

Lemma year_column_opens_on_the_value_or_the_last_year_witness :
  let e := mkEnv ItemMissing (mkDate 2024 5 10) 9 15 in
  let d := mkDate 1995 2 5 in
  birthYear_of (settings e) = Num 2000
  ∧ ∃ (p : picker) (yearCol : column),
      create DateMode e [ODate d] (Some 0%nat) true true = Some p
      ∧ columns p !! 0%nat = Some yearCol
      ∧ read_date p = Some d
      ∧ getIndex yearCol = 25
      ∧ getValue yearCol = Some "2025"%string.
Proof.
  cbv zeta. split; [reflexivity|].
  destruct (year_column_opens_on_the_value_or_the_last_year
              (mkEnv ItemMissing (mkDate 2024 5 10) 9 15) (mkDate 1995 2 5)
              2000 true true eq_refl)
    as (p & yearCol & Hc & Hy & Hr & _ & _ & Hlast & _).
  exists p, yearCol. split; [exact Hc|]. split; [exact Hy|].
  split; [exact Hr|].
  cbn [fullYear now] in Hlast.
  destruct (Hlast ltac:(lia) ltac:(lia)) as [Hi Hv]. split; [exact Hi|exact Hv].
Defined.

(** * The writing entry and the time picker *)

Lemma lacks_uint (c : ascii) (d : Decimal.uint) :
  digit_of c = None → lacks c (NilEmpty.string_of_uint d) = true.
Proof.
  intros Hc. induction d; cbn [NilEmpty.string_of_uint lacks];
    [reflexivity | ..]; rewrite IHd, andb_true_r;
    match goal with
    | |- negb (Ascii.eqb ?x c) = true =>
        destruct (Ascii.eqb_spec x c) as [<-|_]; [discriminate Hc | reflexivity]
    end.
Qed.

Lemma lacks_String_of (z : Z) : lacks ":"%char (String_of z) = true.
Proof.
  unfold String_of. destruct z as [|p|p]; [reflexivity | |];
    cbn [Z.to_int NilZero.string_of_int];
    pose proof (Unsigned.to_uint_nonnil p) as Hn;
    assert (E : NilZero.string_of_uint (Pos.to_uint p)
                = NilEmpty.string_of_uint (Pos.to_uint p))
      by (unfold NilZero.string_of_uint; destruct (Pos.to_uint p);
          [contradiction | reflexivity..]);
    rewrite E; cbn [lacks]; rewrite lacks_uint by reflexivity; reflexivity.
Qed.

Lemma lacks_render (padZero : bool) (z : Z) :
  lacks ":"%char (render padZero z) = true.
Proof.
  unfold render. destruct padZero; [|apply lacks_String_of].
  unfold padStart. destruct (String_of_length z) as [H1 _].
  destruct (String.length (String_of z)) as [|[|n]]; [lia | |].
  - cbn [Nat.sub repeat_char String.append lacks]. rewrite lacks_String_of.
    reflexivity.
  - replace (2 - S (S n))%nat with 0%nat by lia.
    cbn [repeat_char String.append]. apply lacks_String_of.
Qed.

Lemma split_on_lacking (sep : ascii) (a : string) :
  lacks sep a = true → split_on sep a = [a].
Proof.
  induction a as [|c a IH]; intros H; [reflexivity|].
  cbn [lacks] in H. apply andb_true_iff in H as [Hc Ha].
  cbn [split_on]. apply negb_true_iff in Hc. rewrite Hc, (IH Ha). reflexivity.
Qed.

Lemma split_on_at_first (sep : ascii) (a b : string) :
  lacks sep a = true →
  split_on sep (String.append a (String sep b)) = a :: split_on sep b.
Proof.
  induction a as [|c a IH]; intros H.
  - cbn [String.append split_on]. rewrite Ascii.eqb_refl. reflexivity.
  - cbn [lacks] in H. apply andb_true_iff in H as [Hc Ha].
    cbn [String.append split_on]. apply negb_true_iff in Hc.
    rewrite Hc, (IH Ha). reflexivity.
Qed.

(** X12.  The writing entry stores a confirmed time as [customTime], the hour and
    the minute padded to two digits around a colon, and [showTimePicker]
    reads it back by [split(':')] and [parseInt(..) || 0]: the picker is
    opened again on the very hour and minute that were confirmed, for all
    integers; with no custom time it is opened on the clock's time. *)
Theorem confirmed_time_reopens_the_picker (e : env) (hour minute : Z) :
  showTimePicker_value e (Some (confirmed_customTime hour minute))
  = (hour, minute)
  ∧ showTimePicker_value e None = (nowHours e, nowMinutes e)
  ∧ showTimePicker_value e (Some EmptyString) = (nowHours e, nowMinutes e).
Proof.
  split; [|split; reflexivity].
  unfold showTimePicker_value, confirmed_customTime.
  fold (render true hour) (render true minute).
  assert (Hs : split_on ":"%char
                 (String.append (render true hour)
                    (String ":"%char (render true minute)))
               = [render true hour; render true minute]).
  { rewrite split_on_at_first by apply lacks_render.
    rewrite split_on_lacking by apply lacks_render. reflexivity. }
  destruct (String.append (render true hour)
              (String ":"%char (render true minute))) as [|c r] eqn:E.
  - destruct (render true hour); discriminate E.
  - rewrite Hs. cbn [lookup list_lookup].
    rewrite !parseInt_render. reflexivity.
Qed.


(** * Placing the card *)

(** X13.  A card with an anchor is put 8 pixels above the anchor when that leaves
    at least 8 pixels to the top of the window, and 8 pixels below the
    anchor otherwise, so it never covers the anchor.  Its left edge is the
    anchor's when the card then ends at least 8 pixels before the right
    edge of the window and starts at least 8 pixels after the left one; it
    is never less than 8 pixels from the left edge; and when the window is
    at least 16 pixels wider than the card, the card lies within the
    window with 8 pixels to spare on both sides. *)
Theorem card_is_placed_beside_the_anchor (i : placement_input) :
  let '(cardTop, cardLeft) := place_card i in
  ((8 <= rectTop i - cardHeight i - 8)%Q →
     cardTop = (rectTop i - cardHeight i - 8)%Q)
  ∧ ((rectTop i - cardHeight i - 8 < 8)%Q → cardTop = (rectBottom i + 8)%Q)
  ∧ ((cardTop + cardHeight i <= rectTop i - 8)%Q
     ∨ (rectBottom i + 8 <= cardTop)%Q)
  ∧ (8 <= cardLeft)%Q
  ∧ ((8 <= rectLeft i)%Q → (rectLeft i + cardWidth i <= innerWidth i - 8)%Q →
     cardLeft = rectLeft i)
  ∧ ((cardWidth i + 16 <= innerWidth i)%Q →
     (cardLeft + cardWidth i <= innerWidth i - 8)%Q).
Proof.
  unfold place_card.
  destruct (Qltb (rectTop i - cardHeight i - 8) 8) eqn:Et;
    destruct (Qltb (innerWidth i - 8) (rectLeft i + cardWidth i)) eqn:El;
    [destruct (Qltb (innerWidth i - cardWidth i - 8) 8) eqn:E8
    |destruct (Qltb (rectLeft i) 8) eqn:E8
    |destruct (Qltb (innerWidth i - cardWidth i - 8) 8) eqn:E8
    |destruct (Qltb (rectLeft i) 8) eqn:E8];
    rewrite ?Qltb_lt, ?Qltb_ge in *;
    (split; [intros H; try reflexivity; exfalso; lra|]);
    (split; [intros H; try reflexivity; exfalso; lra|]);
    (split; [first [left; lra | right; lra]|]);
    (split; [lra|]);
    (split; [intros H1 H2; try reflexivity; exfalso; lra|]);
    intros H; lra.
Qed.


(** * The calendar *)

Lemma InLeapYear_spec (y : Z) :
  InLeapYear y = true ↔ (y mod 4 = 0 ∧ (y mod 100 ≠ 0 ∨ y mod 400 = 0)).
Proof.
  unfold InLeapYear.
  destruct (Z.eqb_spec (y mod 4) 0), (Z.eqb_spec (y mod 100) 0),
    (Z.eqb_spec (y mod 400) 0); cbn; split; intros H;
    try reflexivity; try discriminate H; try tauto.
Qed.

Lemma year_length (y : Z) :
  DayFromYear (y + 1) - DayFromYear y = if InLeapYear y then 366 else 365.
Proof.
  destruct (InLeapYear y) eqn:E.
  - apply InLeapYear_spec in E. unfold DayFromYear.
    Z.div_mod_to_equations. lia.
  - assert (N : ¬ (y mod 4 = 0 ∧ (y mod 100 ≠ 0 ∨ y mod 400 = 0))).
    { intros H. apply InLeapYear_spec in H. congruence. }
    unfold DayFromYear. Z.div_mod_to_equations. lia.
Qed.

Lemma DayFromYear_mono (a b : Z) : a <= b → DayFromYear a <= DayFromYear b.
Proof. intros H. unfold DayFromYear. Z.div_mod_to_equations. lia. Qed.

Lemma YearFromDay_in_year (y k : Z) :
  0 <= k < (if InLeapYear y then 366 else 365) →
  YearFromDay (DayFromYear y + k) = y.
Proof.
  intros Hk. pose proof (year_length y) as Hy.
  pose proof (YearFromDay_spec (DayFromYear y + k)) as [Hlo Hhi].
  set (Y := YearFromDay (DayFromYear y + k)) in *.
  destruct (Z.lt_trichotomy Y y) as [H|[H|H]]; [|exact H|].
  - pose proof (DayFromYear_mono (Y + 1) y ltac:(lia)). lia.
  - pose proof (DayFromYear_mono (y + 1) Y ltac:(lia)).
    destruct (InLeapYear y); lia.
Qed.

Lemma MakeDay_in_year (y m d : Z) :
  0 <= m <= 11 →
  MakeDay y m d = DayFromYear y + MonthStart (InLeapYear y) m + d - 1.
Proof.
  intros Hm. unfold MakeDay.
  rewrite Z.div_small, Z.mod_small, Z.add_0_r by lia. reflexivity.
Qed.

Lemma month_search_spec (leap : bool) (m k : Z) :
  0 <= m <= 11 →
  MonthStart leap m <= k < MonthStart leap m + monthLength leap m →
  month_search 11 leap k 0 = m.
Proof.
  intros Hm Hk.
  assert (Hc : m = 0 ∨ m = 1 ∨ m = 2 ∨ m = 3 ∨ m = 4 ∨ m = 5 ∨ m = 6 ∨ m = 7
               ∨ m = 8 ∨ m = 9 ∨ m = 10 ∨ m = 11) by lia.
  destruct leap;
    repeat (destruct Hc as [->|Hc]); try subst m;
    (match type of Hk with
     | ?a <= k < ?a + ?b =>
         let va := eval vm_compute in a in
         let vb := eval vm_compute in b in
         change a with va in Hk; change b with vb in Hk
     end);
    cbn [month_search];
    repeat match goal with
      | |- context [MonthStart ?l ?j <=? k] =>
          let v := eval vm_compute in (MonthStart l j) in
          change (MonthStart l j) with v;
          destruct (Z.leb_spec v k); try (exfalso; lia)
      end; reflexivity.
Qed.

Lemma month_bounds (leap : bool) (m : Z) :
  0 <= m <= 11 →
  0 <= MonthStart leap m
  ∧ 28 <= monthLength leap m <= 31
  ∧ MonthStart leap m + monthLength leap m <= (if leap then 366 else 365)
  ∧ (m < 11 → MonthStart leap (m + 1) = MonthStart leap m + monthLength leap m)
  ∧ (m = 11 →
     MonthStart leap m + monthLength leap m = (if leap then 366 else 365)).
Proof.
  intros Hm.
  assert (Hc : m = 0 ∨ m = 1 ∨ m = 2 ∨ m = 3 ∨ m = 4 ∨ m = 5 ∨ m = 6 ∨ m = 7
               ∨ m = 8 ∨ m = 9 ∨ m = 10 ∨ m = 11) by lia.
  destruct leap; repeat (destruct Hc as [->|Hc]); try subst m;
    vm_compute; repeat split; intros H; discriminate H.
Qed.

(** A day within its month is what [Date] keeps: making the day number
    from year, month and day and reading it back gives them again. *)
Lemma date_round_trip (y m d : Z) :
  0 <= m <= 11 →
  1 <= d <= monthLength (InLeapYear y) m →
  date_of_day (MakeDay y m d) = mkDate y m d.
Proof.
  intros Hm Hd. rewrite (MakeDay_in_year y m d Hm).
  destruct (month_bounds (InLeapYear y) m Hm) as (B0 & _ & B1 & _).
  set (k := MonthStart (InLeapYear y) m + d - 1).
  replace (DayFromYear y + MonthStart (InLeapYear y) m + d - 1)
    with (DayFromYear y + k) by (unfold k; lia).
  unfold date_of_day.
  rewrite (YearFromDay_in_year y k) by (unfold k; destruct (InLeapYear y); lia).
  replace (DayFromYear y + k - DayFromYear y) with k by lia.
  rewrite (month_search_spec (InLeapYear y) m k Hm) by (unfold k; lia).
  f_equal. unfold k. lia.
Qed.

Lemma getDaysInMonth_of_year (y m : Z) :
  ¬ (0 <= y <= 99) → 0 <= m <= 11 →
  getDaysInMonth y (m + 1) = monthLength (InLeapYear y) m.
Proof.
  intros Hy Hm. unfold getDaysInMonth, newDate.
  destruct (Z.leb_spec 0 y), (Z.leb_spec y 99); cbn [andb]; try lia;
    (assert (E : MakeDay y (m + 1) 0
                 = MakeDay y m (monthLength (InLeapYear y) m));
     [|rewrite E, date_round_trip;
       [reflexivity | exact Hm
       | destruct (month_bounds (InLeapYear y) m Hm) as (_ & B & _); lia]]);
    destruct (month_bounds (InLeapYear y) m Hm) as (_ & _ & _ & B3 & B4);
    rewrite (MakeDay_in_year y m _ Hm);
    (destruct (Z.eq_dec m 11) as [->|Hne];
     [unfold MakeDay; change (11 + 1) with 12;
      change (12 / 12) with 1; change (12 mod 12) with 0;
      pose proof (year_length y) as Hl; specialize (B4 eq_refl);
      change (MonthStart (InLeapYear (y + 1)) 0) with
        (0 + (if InLeapYear (y + 1) && false then 1 else 0));
      rewrite andb_false_r; destruct (InLeapYear y); lia
     |rewrite (MakeDay_in_year y (m + 1) 0) by lia;
      rewrite (B3 ltac:(lia)); lia]).
Qed.

(** X14.  [getDaysInMonth(year, month)], for the months 1 to 12, is the length
    of that month in the Gregorian calendar: 31 days, 30 in April, June,
    September and November, and in February 29 in a leap year (a multiple
    of 4 that is not a multiple of 100, or a multiple of 400) and 28
    otherwise.  The years 0 to 99 are read as 1900 to 1999, as the [Date]
    constructor reads them. *)
Theorem getDaysInMonth_is_the_month_length (year month : Z) :
  1 <= month <= 12 →
  let y := if (0 <=? year) && (year <=? 99) then 1900 + year else year in
  let leap := y mod 4 = 0 ∧ (y mod 100 ≠ 0 ∨ y mod 400 = 0) in
  (month = 2 → leap → getDaysInMonth year month = 29)
  ∧ (month = 2 → ¬ leap → getDaysInMonth year month = 28)
  ∧ (month = 4 ∨ month = 6 ∨ month = 9 ∨ month = 11 →
     getDaysInMonth year month = 30)
  ∧ (month = 1 ∨ month = 3 ∨ month = 5 ∨ month = 7 ∨ month = 8 ∨ month = 10
     ∨ month = 12 → getDaysInMonth year month = 31)
  ∧ 28 <= getDaysInMonth year month <= 31.
Proof.
  intros Hm y leap.
  assert (E : getDaysInMonth year month = monthLength (InLeapYear y) (month - 1)).
  { unfold y.
    destruct (Z.leb_spec 0 year), (Z.leb_spec year 99); cbn [andb].
    - replace month with (month - 1 + 1) at 1 by lia.
      rewrite <- (getDaysInMonth_of_year (1900 + year) (month - 1)) by lia.
      unfold getDaysInMonth, newDate.
      destruct (Z.leb_spec 0 year), (Z.leb_spec year 99); cbn [andb]; try lia.
      destruct (Z.leb_spec 0 (1900 + year)), (Z.leb_spec (1900 + year) 99);
        cbn [andb]; try lia; reflexivity.
    - replace month with (month - 1 + 1) at 1 by lia.
      apply getDaysInMonth_of_year; lia.
    - replace month with (month - 1 + 1) at 1 by lia.
      apply getDaysInMonth_of_year; lia.
    - lia. }
  rewrite E.
  destruct (month_bounds (InLeapYear y) (month - 1) ltac:(lia)) as (_ & B & _).
  split; [|split; [|split; [|split; [|exact B]]]].
  - intros -> Hl. apply InLeapYear_spec in Hl. rewrite Hl. reflexivity.
  - intros -> Hl. destruct (InLeapYear y) eqn:El; [|reflexivity].
    apply InLeapYear_spec in El. contradiction.
  - intros [-> | [-> | [-> | ->]]]; reflexivity.
  - intros [-> | [-> | [-> | [-> | [-> | [-> | ->]]]]]]; reflexivity.
Qed.

Lemma getDaysInMonth_is_the_month_length_witness :
  1 <= 2 <= 12
  ∧ getDaysInMonth 2024 2 = 29
  ∧ getDaysInMonth 1900 2 = 28
  ∧ getDaysInMonth 0 2 = 28.
Proof.
  split; [lia|].
  split; [|split; reflexivity].
  apply (proj1 (getDaysInMonth_is_the_month_length 2024 2 ltac:(lia))).
  - reflexivity.
  - cbn. split; [reflexivity|]. left. discriminate.
Defined.


(** * The card in time mode *)

Lemma step_items (c : column) (e : event) :
  (∀ l i, e ≠ SetItems l i) → items (fst (step c e)) = items c.
Proof.
  intros He.
  destruct e as [y|y| | |i|d|i a|l i]; cbn [step fst].
  - unfold handleStart. cbn. destruct (animationId c) as [id|]; cbn;
      [|reflexivity].
    unfold cancelAnimationFrame. cbn.
    destruct (scheduled c) as [id'|]; [destruct (Pos.eqb id id')|]; reflexivity.
  - unfold handleMove. destruct (isDragging c); reflexivity.
  - unfold handleEnd. destruct (isDragging c); cbn [negb]; [|reflexivity].
    destruct (Qltb 2 (Qabs (velocity (with_isDragging false c)))).
    + unfold inertiaScroll.
      destruct (inertiaStops (inertiaAdvance (with_isDragging false c)));
        [|reflexivity].
      destruct (scrollToIndex_frame (inertiaAdvance (with_isDragging false c))
                  (getIndexFromPosition
                     (currentY (inertiaAdvance (with_isDragging false c))))
                  true) as (-> & _). reflexivity.
    + destruct (scrollToIndex_frame (with_isDragging false c)
                  (getIndexFromPosition (currentY (with_isDragging false c)))
                  true) as (-> & _). reflexivity.
  - unfold frame. destruct (scheduled c); [|reflexivity].
    unfold inertiaScroll.
    destruct (inertiaStops (inertiaAdvance (with_scheduled None c)));
      [|reflexivity].
    destruct (scrollToIndex_frame (inertiaAdvance (with_scheduled None c))
                (getIndexFromPosition
                   (currentY (inertiaAdvance (with_scheduled None c))))
                true) as (-> & _). reflexivity.
  - unfold handleClick. destruct (scrollToIndex_frame c i true) as (-> & _).
    reflexivity.
  - unfold handleWheel.
    destruct (scrollToIndex_frame c (currentIndex c + sign d) true) as (-> & _).
    reflexivity.
  - unfold setIndex. destruct (scrollToIndex_frame c i a) as (-> & _).
    reflexivity.
  - exfalso. apply (He l i). reflexivity.
Qed.

(** An event that changes the committed index commits one within the
    items. *)
Lemma step_commit_in_range (c : column) (e : event) :
  items c ≠ [] → (∀ l i, e ≠ SetItems l i) →
  currentIndex (fst (step c e)) = currentIndex c
  ∨ 0 <= currentIndex (fst (step c e)) < Z.of_nat (length (items c)).
Proof.
  intros Hne He.
  assert (S : ∀ c0 i a, items c0 = items c →
              0 <= currentIndex (fst (scrollToIndex c0 i a))
              < Z.of_nat (length (items c))).
  { intros c0 i a Hi. rewrite scrollToIndex_index, Hi.
    apply clamp_index_range, Hne. }
  destruct e as [y|y| | |i|d|i a|l i]; cbn [step fst].
  - left. unfold handleStart. cbn. destruct (animationId c) as [id|]; cbn;
      [|reflexivity].
    unfold cancelAnimationFrame. cbn.
    destruct (scheduled c) as [id'|]; [destruct (Pos.eqb id id')|]; reflexivity.
  - left. unfold handleMove. destruct (isDragging c); reflexivity.
  - unfold handleEnd. destruct (isDragging c); cbn [negb]; [|left; reflexivity].
    destruct (Qltb 2 (Qabs (velocity (with_isDragging false c)))).
    + unfold inertiaScroll.
      destruct (inertiaStops (inertiaAdvance (with_isDragging false c)));
        [right; apply S; reflexivity | left; reflexivity].
    + right. apply S. reflexivity.
  - unfold frame. destruct (scheduled c); [|left; reflexivity].
    unfold inertiaScroll.
    destruct (inertiaStops (inertiaAdvance (with_scheduled None c)));
      [right; apply S; reflexivity | left; reflexivity].
  - right. apply S. reflexivity.
  - right. apply S. reflexivity.
  - right. apply S. reflexivity.
  - exfalso. apply (He l i). reflexivity.
Qed.

Lemma read_time_lt (p : picker) (h m : Z) :
  read_time p = Some (h, m) →
  store p !! currentValue p = Some (OTime h m)
  ∧ (currentValue p < length (store p))%nat.
Proof.
  unfold read_time. intros H.
  destruct (store p !! currentValue p) as [[d|h' m']|] eqn:E;
    try discriminate H.
  apply (inj Some) in H. apply pair_equal_spec in H as [-> ->].
  split; [reflexivity|]. apply (lookup_lt_Some _ _ _ E).
Qed.

Lemma read_time_write (p : picker) (h m h' m' : Z) :
  read_time p = Some (h, m) →
  read_time (write_value (OTime h' m') p) = Some (h', m').
Proof.
  intros H. apply read_time_lt in H as [_ Hlt].
  unfold read_time, write_value. cbn [store currentValue with_store].
  rewrite list_lookup_insert_eq by exact Hlt. reflexivity.
Qed.

(** [onChange], if there is one, gets a copy; the card keeps its value. *)
Lemma fire_onChange_keeps (p : picker) (h m : Z) :
  mode p = TimeMode → read_time p = Some (h, m) →
  ∃ p' : picker,
    fire_onChange p = Some p'
    ∧ mode p' = TimeMode ∧ columns p' = columns p
    ∧ read_time p' = Some (h, m).
Proof.
  intros Hm Hr. destruct (onChange p) eqn:Ho.
  - rewrite (fire_onChange_time p h m Hm Ho Hr). eexists. split; [reflexivity|].
    split; [exact Hm|]. split; [reflexivity|].
    apply read_time_lt in Hr as [Hl _].
    unfold read_time. cbn [store currentValue with_store with_calls].
    rewrite (lookup_app_l_Some _ _ _ _ Hl). reflexivity.
  - unfold fire_onChange. rewrite Ho. eexists. split; [reflexivity|]. auto.
Qed.

(** An event on column [k] of a card in time mode whose column [k] holds
    the items [range (Num 0) top true], [top] being 23 for the hours and 59
    for the minutes: the column takes its step, and the value follows if
    the committed index changed. *)
Lemma time_column_event (k : nat) (top : Z) (e : event) (p : picker)
    (c0 c1 ck : column) (h m : Z) :
  (k = 0%nat ∧ top = 23 ∧ ck = c0) ∨ (k = 1%nat ∧ top = 59 ∧ ck = c1) →
  (∀ l i, e ≠ SetItems l i) →
  mode p = TimeMode → columns p = [c0; c1] →
  items ck = range (Num 0) top true →
  read_time p = Some (h, m) →
  let ck' := fst (step ck e) in
  let v := currentIndex ck' in
  ∃ p' : picker,
    column_event k e p = Some p'
    ∧ mode p' = TimeMode
    ∧ columns p' = <[k := ck']> [c0; c1]
    ∧ items ck' = items ck
    ∧ read_time p' =
      (if v =? currentIndex ck then Some (h, m)
       else if (k =? 0)%nat then Some (v, m) else Some (h, v)).
Proof.
  intros Hk He Hm Hc Hi Hr ck' v.
  assert (Hlook : columns p !! k = Some ck).
  { rewrite Hc. destruct Hk as [(-> & _ & ->)|(-> & _ & ->)]; reflexivity. }
  assert (Htop : top = 23 ∨ top = 59) by (destruct Hk as [H|H]; lia).
  assert (Hlen : Z.of_nat (length (items ck)) = top + 1).
  { rewrite Hi, range_length. lia. }
  assert (Hne : items ck ≠ []).
  { intros E. rewrite E in Hlen. cbn in Hlen. lia. }
  pose proof (step_note ck e) as Hn.
  pose proof (step_items ck e He) as Hit.
  pose proof (step_commit_in_range ck e Hne He) as Hrg.
  unfold column_event. rewrite Hlook. cbn [mbind option_bind].
  subst ck' v. destruct (step ck e) as [c' ns]. cbn [fst] in *.
  destruct (Z.eqb_spec (currentIndex c') (currentIndex ck)) as [E|E].
  - subst ns. cbn [handle_all]. eexists. split; [reflexivity|].
    cbn [mode columns with_columns]. rewrite Hc.
    split; [exact Hm|]. split; [reflexivity|]. split; [exact Hit|].
    exact Hr.
  - subst ns. rewrite handle_one, Hm.
    destruct Hrg as [Hrg|Hrg]; [contradiction|]. rewrite Hlen in Hrg.
    unfold getValue. rewrite Hit, Hi.
    set (p1 := with_columns (<[k := c']> (columns p)) p).
    assert (Hm1 : mode p1 = TimeMode) by exact Hm.
    assert (Hr1 : read_time p1 = Some (h, m)) by exact Hr.
    destruct Hk as [(-> & -> & ->)|(-> & -> & ->)]; cbn [handler Nat.eqb].
    + rewrite (hour_changed_fires p1 _ h m) by (lia || exact Hr1).
      destruct (fire_onChange_keeps (write_value (OTime (currentIndex c') m) p1)
                  (currentIndex c') m Hm1 (read_time_write p1 h m _ _ Hr1))
        as (p' & Hf & Hm' & Hc' & Hr').
      exists p'. split; [exact Hf|]. split; [exact Hm'|].
      split; [rewrite Hc'; cbn; rewrite Hc; reflexivity|].
      split; [congruence|exact Hr'].
    + rewrite (minute_changed_fires p1 _ h m) by (lia || exact Hr1).
      destruct (fire_onChange_keeps (write_value (OTime h (currentIndex c')) p1)
                  h (currentIndex c') Hm1 (read_time_write p1 h m _ _ Hr1))
        as (p' & Hf & Hm' & Hc' & Hr').
      exists p'. split; [exact Hf|]. split; [exact Hm'|].
      split; [rewrite Hc'; cbn; rewrite Hc; reflexivity|].
      split; [congruence|exact Hr'].
Qed.

Lemma column_event_synced (k : nat) (e : event) (p : picker) :
  (k < 2)%nat → (∀ l i, e ≠ SetItems l i) → time_synced p →
  ∃ p' : picker, column_event k e p = Some p' ∧ time_synced p'.
Proof.
  intros Hk He (Hm & c0 & c1 & Hc & I0 & I1 & Hr).
  destruct k as [|[|k]]; [| |lia].
  - destruct (time_column_event 0 23 e p c0 c1 c0 _ _
                (or_introl (conj eq_refl (conj eq_refl eq_refl)))
                He Hm Hc I0 Hr) as (p' & Hs & Hm' & Hc' & Hi' & Hr').
    exists p'. split; [exact Hs|]. split; [exact Hm'|].
    exists (fst (step c0 e)), c1. split; [exact Hc'|].
    split; [congruence|]. split; [exact I1|]. rewrite Hr'. cbn [Nat.eqb].
    destruct (Z.eqb_spec (currentIndex (fst (step c0 e))) (currentIndex c0))
      as [->|_]; reflexivity.
  - destruct (time_column_event 1 59 e p c0 c1 c1 _ _
                (or_intror (conj eq_refl (conj eq_refl eq_refl)))
                He Hm Hc I1 Hr) as (p' & Hs & Hm' & Hc' & Hi' & Hr').
    exists p'. split; [exact Hs|]. split; [exact Hm'|].
    exists c0, (fst (step c1 e)). split; [exact Hc'|].
    split; [exact I0|]. split; [congruence|]. rewrite Hr'. cbn [Nat.eqb].
    destruct (Z.eqb_spec (currentIndex (fst (step c1 e))) (currentIndex c1))
      as [->|_]; reflexivity.
Qed.

Lemma setIndex_commits (c : column) (i : Z) (a : bool) :
  0 <= i < Z.of_nat (length (items c)) →
  currentIndex (fst (step c (SetIndex i a))) = i.
Proof.
  intros Hi. cbn [step]. unfold setIndex.
  rewrite scrollToIndex_index. apply clamp_index_id, Hi.
Qed.

Lemma quick_click_synced (e : env) (p : picker) :
  0 <= nowHours e <= 23 → 0 <= nowMinutes e <= 59 → time_synced p →
  ∃ p' : picker,
    quick_click e p = Some p' ∧ time_synced p'
    ∧ read_time p' = Some (nowHours e, nowMinutes e).
Proof.
  intros HH HM (Hm & c0 & c1 & Hc & I0 & I1 & Hr).
  unfold quick_click. rewrite Hm. unfold alloc.
  set (p1 := with_currentValue _ _).
  assert (Hm1 : mode p1 = TimeMode) by exact Hm.
  assert (Hc1 : columns p1 = [c0; c1]) by exact Hc.
  assert (Hr1 : read_time p1 = Some (nowHours e, nowMinutes e)).
  { unfold read_time, p1. cbn [store currentValue with_currentValue with_store].
    rewrite list_lookup_middle by reflexivity. reflexivity. }
  clearbody p1. unfold api_setIndex.
  assert (NS : ∀ i a l j, SetIndex i a ≠ SetItems l j) by (intros; discriminate).
  destruct (time_column_event 0 23 (SetIndex (nowHours e) true) p1 c0 c1 c0 _ _
              (or_introl (conj eq_refl (conj eq_refl eq_refl)))
              (NS _ _) Hm1 Hc1 I0 Hr1) as (p2 & Hs2 & Hm2 & Hc2 & Hi2 & Hr2).
  rewrite Hs2. cbn [mbind option_bind].
  rewrite setIndex_commits in Hr2 by (rewrite I0, range_length; cbn; lia).
  assert (Hr2' : read_time p2 = Some (nowHours e, nowMinutes e)).
  { rewrite Hr2. cbn [Nat.eqb]. destruct (nowHours e =? currentIndex c0);
      reflexivity. }
  clear Hr2. cbn [insert list_insert] in Hc2.
  set (c0' := fst (step c0 (SetIndex (nowHours e) true))) in *.
  assert (K0 : currentIndex c0' = nowHours e).
  { apply setIndex_commits. rewrite I0, range_length. cbn. lia. }
  destruct (time_column_event 1 59 (SetIndex (nowMinutes e) true) p2 c0' c1 c1
              _ _ (or_intror (conj eq_refl (conj eq_refl eq_refl)))
              (NS _ _) Hm2 Hc2 I1 Hr2') as (p3 & Hs3 & Hm3 & Hc3 & Hi3 & Hr3).
  rewrite Hs3. cbn [mbind option_bind].
  rewrite setIndex_commits in Hr3 by (rewrite I1, range_length; cbn; lia).
  assert (Hr3' : read_time p3 = Some (nowHours e, nowMinutes e)).
  { rewrite Hr3. cbn [Nat.eqb]. destruct (nowMinutes e =? currentIndex c1);
      reflexivity. }
  clear Hr3. cbn [insert list_insert] in Hc3.
  set (c1' := fst (step c1 (SetIndex (nowMinutes e) true))) in *.
  assert (K1 : currentIndex c1' = nowMinutes e).
  { apply setIndex_commits. rewrite I1, range_length. cbn. lia. }
  destruct (fire_onChange_keeps p3 _ _ Hm3 Hr3') as (p4 & Hf & Hm4 & Hc4 & Hr4).
  exists p4. split; [exact Hf|]. split; [|exact Hr4].
  split; [exact Hm4|]. exists c0', c1'.
  split; [congruence|]. split; [congruence|]. split; [congruence|].
  rewrite K0, K1. exact Hr4.
Qed.

Lemma confirm_click_synced (p : picker) :
  time_synced p →
  ∃ p' : picker, confirm_click p = Some p' ∧ time_synced p' ∧ active p' = false.
Proof.
  intros (Hm & c0 & c1 & Hc & I0 & I1 & Hr).
  unfold confirm_click. destruct (onConfirm p) eqn:Ho.
  - unfold copy_value. rewrite Hm.
    destruct (read_time_lt p _ _ Hr) as [Hl _]. rewrite Hl. unfold alloc.
    cbn [mbind option_bind]. eexists. split; [reflexivity|].
    split; [|reflexivity]. split; [exact Hm|]. exists c0, c1.
    split; [exact Hc|]. split; [exact I0|]. split; [exact I1|].
    unfold read_time.
    cbn [store currentValue close with_active with_calls with_store].
    rewrite (lookup_app_l_Some _ _ _ _ Hl). reflexivity.
  - cbn [mbind option_bind]. eexists. split; [reflexivity|].
    split; [|reflexivity]. split; [exact Hm|]. exists c0, c1. auto.
Qed.

Lemma card_step_synced (o : card_op) (p : picker) :
  time_op o = true → time_synced p →
  ∃ p' : picker, card_step o p = Some p' ∧ time_synced p'.
Proof.
  intros Ho Hs. destruct o as [k e|e|]; cbn [card_step].
  - apply column_event_synced; [| |exact Hs].
    + destruct e; cbn in Ho; try discriminate Ho;
        apply Nat.leb_le in Ho; lia.
    + intros l i ->. discriminate Ho.
  - cbn in Ho. destruct (quick_click_synced e p) as (p' & H1 & H2 & _);
      [lia|lia|exact Hs|]. exists p'. auto.
  - destruct (confirm_click_synced p Hs) as (p' & H1 & H2 & _).
    exists p'. auto.
Qed.

Lemma create_time_synced (e : env) (h : heap) (value : option loc)
    (oc ocf : bool) :
  (∀ l, value = Some l → ∃ hour minute, h !! l = Some (OTime hour minute)) →
  ∃ p : picker,
    create TimeMode e h value oc ocf = Some p ∧ time_synced p
    ∧ read_time p =
      match value with
      | Some l => read_time (mkPicker TimeMode l [] oc ocf h [] true)
      | None => Some (nowHours e, nowMinutes e)
      end.
Proof.
  intros Hv. cbn [create]. unfold create_time. destruct value as [l|].
  - destruct (Hv l eq_refl) as (hour & minute & Hl). rewrite Hl.
    eexists. split; [reflexivity|].
    assert (R : read_time (mkPicker TimeMode l [] oc ocf h [] true)
                = Some (hour, minute)).
    { unfold read_time. cbn [store currentValue]. rewrite Hl. reflexivity. }
    split; [|rewrite R; unfold read_time; cbn [store currentValue];
             rewrite Hl; reflexivity].
    split; [reflexivity|]. eexists. eexists. split; [reflexivity|].
    split; [reflexivity|]. split; [reflexivity|].
    unfold read_time. cbn [store currentValue]. rewrite Hl. reflexivity.
  - unfold alloc. rewrite list_lookup_middle by reflexivity.
    eexists. split; [reflexivity|].
    assert (R : ∀ cs, read_time (mkPicker TimeMode (length h) cs oc ocf
                    (h ++ [OTime (nowHours e) (nowMinutes e)]) [] true)
                = Some (nowHours e, nowMinutes e)).
    { intros cs. unfold read_time. cbn [store currentValue].
      rewrite list_lookup_middle by reflexivity. reflexivity. }
    split; [|apply R].
    split; [reflexivity|]. eexists. eexists. split; [reflexivity|].
    split; [reflexivity|]. split; [reflexivity|]. apply R.
Qed.

Lemma card_run_synced (ops : list card_op) (p : picker) :
  forallb time_op ops = true → time_synced p →
  ∃ p' : picker, card_run ops p = Some p' ∧ time_synced p'.
Proof.
  revert p. induction ops as [|o ops IH]; intros p Hops Hs.
  - exists p. auto.
  - cbn [forallb] in Hops. apply andb_true_iff in Hops as [Ho Hops].
    destruct (card_step_synced o p Ho Hs) as (p1 & H1 & Hs1).
    destruct (IH p1 Hops Hs1) as (p' & Hr & Hs').
    exists p'. cbn [card_run]. rewrite H1. auto.
Qed.

(** X15.  In time mode the card's value and its two columns never part: after
    any sequence of events on the columns, clicks on the quick button and
    clicks on the confirm button, every callback has run to its end (no
    item failed to parse), the columns still hold the hours 00..23 and the
    minutes 00..59, and the value's hour and minute are the committed
    indices of the two columns. *)
Theorem time_card_value_follows_the_columns
    (e : env) (h : heap) (value : option loc) (oc ocf : bool)
    (ops : list card_op) :
  (∀ l, value = Some l → ∃ hour minute, h !! l = Some (OTime hour minute)) →
  forallb time_op ops = true →
  ∃ p p' : picker,
    create TimeMode e h value oc ocf = Some p
    ∧ card_run ops p = Some p'
    ∧ time_synced p'.
Proof.
  intros Hv Hops.
  destruct (create_time_synced e h value oc ocf Hv) as (p & Hp & Hs & _).
  destruct (card_run_synced ops p Hops Hs) as (p' & Hr & Hs').
  exists p, p'. auto.
Qed.

Lemma time_card_value_follows_the_columns_witness :
  let e := mkEnv ItemMissing (mkDate 2024 5 10) 9 15 in
  let ops := [OnColumn 0 (Wheel 100); OnColumn 1 (Click 30);
              OnColumn 0 (PointerDown 300); OnColumn 0 (PointerMove 200);
              OnColumn 0 PointerUp; OnColumn 0 Frame;
              QuickClick e; OnColumn 1 (SetIndex 70 false); ConfirmClick] in
  (∀ l, Some 0%nat = Some l →
     ∃ hour minute, [OTime 23 58] !! l = Some (OTime hour minute))
  ∧ forallb time_op ops = true
  ∧ ∃ p p' : picker,
      create TimeMode e [OTime 23 58] (Some 0%nat) true true = Some p
      ∧ card_run ops p = Some p'
      ∧ time_synced p'.
Proof.
  cbv zeta.
  assert (H : ∀ l, Some 0%nat = Some l →
                ∃ hour minute, [OTime 23 58] !! l = Some (OTime hour minute)).
  { intros l E. apply (inj Some) in E. subst l. exists 23, 58. reflexivity. }
  split; [exact H|]. split; [reflexivity|].
  apply (time_card_value_follows_the_columns _ _ _ _ _ _ H). reflexivity.
Defined.

(** X16.  After a click on the quick button in time mode, whatever came before,
    the card's value is the clock time of that moment, and so are the
    committed indices of its columns. *)
Theorem quick_button_sets_the_clock_time
    (e e' : env) (h : heap) (value : option loc) (oc ocf : bool)
    (ops : list card_op) :
  (∀ l, value = Some l → ∃ hour minute, h !! l = Some (OTime hour minute)) →
  forallb time_op ops = true →
  0 <= nowHours e' <= 23 → 0 <= nowMinutes e' <= 59 →
  ∃ p p' : picker,
    create TimeMode e h value oc ocf = Some p
    ∧ card_run (ops ++ [QuickClick e']) p = Some p'
    ∧ read_time p' = Some (nowHours e', nowMinutes e')
    ∧ getIndex <$> columns p' = [nowHours e'; nowMinutes e'].
Proof.
  intros Hv Hops HH HM.
  destruct (create_time_synced e h value oc ocf Hv) as (p & Hp & Hs & _).
  destruct (card_run_synced ops p Hops Hs) as (p1 & Hr & Hs1).
  destruct (quick_click_synced e' p1 HH HM Hs1) as (p' & Hq & Hs' & Hr').
  exists p, p'. split; [exact Hp|].
  assert (Hrun : ∀ os q, card_run (os ++ [QuickClick e']) q
                         = q1 ← card_run os q; quick_click e' q1).
  { induction os as [|o os IH]; intros q; cbn [card_run app].
    - cbn. destruct (quick_click e' q); reflexivity.
    - destruct (card_step o q); cbn; [apply IH|reflexivity]. }
  rewrite Hrun, Hr. cbn [mbind option_bind]. split; [exact Hq|].
  split; [exact Hr'|].
  destruct Hs' as (_ & c0 & c1 & Hc & _ & _ & Hsync).
  rewrite Hr' in Hsync. apply (inj Some) in Hsync.
  apply pair_equal_spec in Hsync as [E0 E1].
  rewrite Hc. cbn. unfold getIndex. congruence.
Qed.

Lemma quick_button_sets_the_clock_time_witness :
  let e := mkEnv ItemMissing (mkDate 2024 5 10) 9 15 in
  let e' := mkEnv ItemMissing (mkDate 2024 5 10) 9 17 in
  let ops := [OnColumn 0 (Wheel 100); OnColumn 1 (Click 30)] in
  (∀ l, @None loc = Some l →
     ∃ hour minute, @nil obj !! l = Some (OTime hour minute))
  ∧ forallb time_op ops = true
  ∧ 0 <= nowHours e' <= 23 ∧ 0 <= nowMinutes e' <= 59
  ∧ ∃ p p' : picker,
      create TimeMode e [] None true false = Some p
      ∧ card_run (ops ++ [QuickClick e']) p = Some p'
      ∧ read_time p' = Some (9, 17)
      ∧ getIndex <$> columns p' = [9; 17].
Proof.
  cbv zeta.
  assert (H : ∀ l, @None loc = Some l →
                ∃ hour minute, @nil obj !! l = Some (OTime hour minute))
    by (intros l E; discriminate E).
  split; [exact H|]. split; [reflexivity|].
  split; [cbn; lia|]. split; [cbn; lia|].
  apply (quick_button_sets_the_clock_time
           (mkEnv ItemMissing (mkDate 2024 5 10) 9 15)
           (mkEnv ItemMissing (mkDate 2024 5 10) 9 17)
           [] None true false
           [OnColumn 0 (Wheel 100); OnColumn 1 (Click 30)] H);
    [reflexivity|cbn; lia|cbn; lia].
Defined.


(** * The card in date mode *)

(** A day past the end of its month is carried into the next month. *)
Lemma date_overflow (y m d : Z) :
  0 <= m <= 10 →
  monthLength (InLeapYear y) m < d
  <= monthLength (InLeapYear y) m + monthLength (InLeapYear y) (m + 1) →
  date_of_day (MakeDay y m d)
  = mkDate y (m + 1) (d - monthLength (InLeapYear y) m).
Proof.
  intros Hm Hd.
  replace (MakeDay y m d)
    with (MakeDay y (m + 1) (d - monthLength (InLeapYear y) m)).
  - apply date_round_trip; lia.
  - rewrite !MakeDay_in_year by lia.
    destruct (month_bounds (InLeapYear y) m ltac:(lia)) as (_ & _ & _ & B & _).
    rewrite (B ltac:(lia)). lia.
Qed.

(** What [setFullYear] and [setMonth] make of the day [dd] in the month
    [m] of the year [y]. *)
Lemma carried_date (y m dd : Z) :
  ¬ (0 <= y <= 99) → 0 <= m <= 11 → 1 <= dd <= 31 →
  let len := monthLength (InLeapYear y) m in
  civil_date (date_of_day (MakeDay y m dd))
  ∧ (dd <= len → date_of_day (MakeDay y m dd) = mkDate y m dd)
  ∧ (len < dd →
     m <= 10 ∧ date_of_day (MakeDay y m dd) = mkDate y (m + 1) (dd - len)).
Proof.
  intros Hy Hm Hd len.
  destruct (month_bounds (InLeapYear y) m Hm) as (_ & B & _). fold len in B.
  destruct (Z.le_gt_cases dd len) as [Hf|Hf].
  - assert (E : date_of_day (MakeDay y m dd) = mkDate y m dd)
      by (apply date_round_trip; lia).
    split; [|split; [intros _; exact E | lia]].
    rewrite E. unfold civil_date. cbn [fullYear month day]. fold len. lia.
  - assert (Hm' : m <= 10).
    { destruct (Z.eq_dec m 11) as [->|]; [|lia].
      unfold len, monthLength in Hf. cbn in Hf. lia. }
    destruct (month_bounds (InLeapYear y) (m + 1) ltac:(lia)) as (_ & B' & _).
    assert (E : date_of_day (MakeDay y m dd) = mkDate y (m + 1) (dd - len))
      by (apply date_overflow; fold len; lia).
    split; [|split; [lia | intros _; split; [exact Hm'|exact E]]].
    rewrite E. unfold civil_date. cbn [fullYear month day]. lia.
Qed.

Lemma civil_day_bounds (d : date) : civil_date d → 1 <= day d <= 31.
Proof.
  intros (_ & Hm & Hd).
  destruct (month_bounds (InLeapYear (fullYear d)) (month d) Hm) as (_ & B & _).
  lia.
Qed.

Lemma civil_setDate (d : date) (v : Z) :
  civil_date d →
  1 <= v <= monthLength (InLeapYear (fullYear d)) (month d) →
  setDate d v = mkDate (fullYear d) (month d) v.
Proof.
  intros (_ & Hm & _) Hv. unfold setDate. apply date_round_trip; assumption.
Qed.

Lemma civil_setDate_same (d : date) : civil_date d → setDate d (day d) = d.
Proof.
  intros H. rewrite civil_setDate; [destruct d; reflexivity | exact H |].
  destruct H as (_ & _ & H). exact H.
Qed.

Lemma civil_days (d : date) :
  civil_date d →
  getDaysInMonth (fullYear d) (month d + 1)
  = monthLength (InLeapYear (fullYear d)) (month d).
Proof. intros (Hy & Hm & _). apply getDaysInMonth_of_year; assumption. Qed.

Lemma read_date_lt (p : picker) (d : date) :
  read_date p = Some d →
  store p !! currentValue p = Some (ODate d)
  ∧ (currentValue p < length (store p))%nat.
Proof.
  unfold read_date. intros H.
  destruct (store p !! currentValue p) as [[d'|h' m']|] eqn:E;
    try discriminate H.
  apply (inj Some) in H. subst d'.
  split; [reflexivity|]. apply (lookup_lt_Some _ _ _ E).
Qed.

(** ** Calls of [onChange] *)

Lemma announced_read (p p' : picker) (d : date) (n : nat) :
  (currentValue p < length (store p))%nat →
  announced p p' d n → read_date p' = Some d.
Proof.
  intros Hlt (_ & Hcv & _ & _ & _ & Hs & _).
  unfold read_date. rewrite Hs, Hcv.
  rewrite lookup_app_l by (rewrite length_insert; exact Hlt).
  rewrite list_lookup_insert_eq by exact Hlt. reflexivity.
Qed.


Lemma announced_write (p p1 : picker) (d0 d : date) (n : nat) :
  read_date p = Some d0 →
  p1 = write_value (ODate d) p → announced p p1 d 0.
Proof.
  intros Hr ->. unfold announced, write_value.
  cbn [mode currentValue onChange onConfirm active store calls with_store].
  repeat (split; [reflexivity|]).
  cbn [replicate seq fmap list_fmap]. rewrite !app_nil_r. split; reflexivity.
Qed.

Lemma announced_rewrite (p p1 : picker) (d : date) (n : nat) :
  (currentValue p < length (store p))%nat →
  announced p p1 d n → announced p (write_value (ODate d) p1) d n.
Proof.
  intros Hlt H. pose proof (announced_read p p1 d n Hlt H) as Hr.
  destruct (read_date_lt p1 d Hr) as [Hl _].
  unfold write_value. rewrite (list_insert_id _ _ _ Hl).
  destruct p1. exact H.
Qed.

Lemma announced_fire (p p1 : picker) (d : date) (n : nat) :
  (currentValue p < length (store p))%nat →
  mode p = DateMode →
  announced p p1 d n →
  ∃ p' : picker,
    fire_onChange p1 = Some p'
    ∧ columns p' = columns p1
    ∧ announced p p' d (n + (if onChange p then 1 else 0)).
Proof.
  intros Hlt Hm H. pose proof (announced_read p p1 d n Hlt H) as Hr.
  destruct (read_date_lt p1 d Hr) as [Hl _].
  destruct H as (Hm1 & Hcv & Hoc & Hocf & Hact & Hs & Hcl).
  unfold fire_onChange. rewrite Hoc. destruct (onChange p) eqn:Ho.
  - unfold copy_value. rewrite Hm1, Hm, Hl. unfold alloc.
    cbn [mbind option_bind]. eexists. split; [reflexivity|].
    split; [reflexivity|]. unfold announced.
    cbn [mode currentValue onChange onConfirm active store calls with_store
         with_calls].
    split; [congruence|]. split; [exact Hcv|]. split; [congruence|].
    split; [exact Hocf|]. split; [exact Hact|].
    rewrite Hs, Hcl, replicate_add, seq_app, fmap_app, !app_assoc.
    split; [reflexivity|]. cbn [replicate seq fmap list_fmap].
    rewrite !length_app, length_insert, length_replicate. reflexivity.
  - eexists. split; [reflexivity|]. split; [reflexivity|].
    rewrite Nat.add_0_r. unfold announced.
    repeat (split; [congruence|]). congruence.
Qed.

Lemma announced_columns (p p1 : picker) (d : date) (n : nat)
    (cs : list column) :
  announced p p1 d n → announced p (with_columns cs p1) d n.
Proof. intros H. exact H. Qed.

(** ** [updateDayColumn] *)

Lemma updateDayColumn_civil (p p1 : picker) (d1 : date) (n : nat)
    (cy cm cd : column) :
  (currentValue p < length (store p))%nat → mode p = DateMode →
  announced p p1 d1 n → civil_date d1 → columns p1 = [cy; cm; cd] →
  ∃ (p' : picker) (cd' : column),
    updateDayColumn p1 = Some p'
    ∧ columns p' = [cy; cm; cd']
    ∧ items cd'
      = range (Num 1) (monthLength (InLeapYear (fullYear d1)) (month d1)) false
    ∧ currentIndex cd' = day d1 - 1
    ∧ announced p p' d1
        (n + (if day d1 - 1 =? currentIndex cd then 0
              else if onChange p then 1 else 0)).
Proof.
  intros Hlt Hm Ha Hd Hc.
  pose proof (announced_read p p1 d1 n Hlt Ha) as Hr.
  pose proof Hd as (Hy & Hmo & Hday).
  set (len := monthLength (InLeapYear (fullYear d1)) (month d1)) in *.
  unfold updateDayColumn. rewrite Hr. cbn [mbind option_bind].
  rewrite (civil_days d1 Hd). fold len.
  rewrite Z.min_l by lia. rewrite (civil_setDate_same d1 Hd).
  pose proof (announced_rewrite p p1 d1 n Hlt Ha) as Ha2.
  set (p2 := write_value (ODate d1) p1) in *.
  change (columns p2) with (columns p1). rewrite Hc.
  cbn [lookup list_lookup mbind option_bind].
  unfold setItems.
  set (L := range (Num 1) len false).
  assert (HL : Z.of_nat (length L) = len).
  { unfold L. rewrite range_length. lia. }
  set (c0 := with_items L cd).
  assert (Hcl : clamp_index (items c0) (Z.min (day d1 - 1) (Z.of_nat (length L) - 1))
                = day d1 - 1).
  { change (items c0) with L. unfold clamp_index. lia. }
  pose proof (scrollToIndex_index c0
                (Z.min (day d1 - 1) (Z.of_nat (length L) - 1)) false) as Hi.
  pose proof (scrollToIndex_frame c0
                (Z.min (day d1 - 1) (Z.of_nat (length L) - 1)) false)
    as (Hit & _).
  pose proof (scrollToIndex_notes c0
                (Z.min (day d1 - 1) (Z.of_nat (length L) - 1)) false) as Hn.
  cbv zeta in Hn. rewrite Hcl in Hi, Hn.
  change (items c0) with L in Hit, Hn.
  change (currentIndex c0) with (currentIndex cd) in Hn.
  destruct (scrollToIndex c0 (Z.min (day d1 - 1) (Z.of_nat (length L) - 1))
              false) as [cd' ns].
  cbn [fst snd] in Hi, Hit, Hn. subst ns.
  destruct (Z.eqb_spec (day d1 - 1) (currentIndex cd)) as [E|E].
  - cbn [handle_all]. exists (with_columns [cy; cm; cd'] p2), cd'.
    split; [reflexivity|]. split; [reflexivity|]. split; [exact Hit|].
    split; [exact Hi|]. rewrite Nat.add_0_r. exact Ha2.
  - rewrite handle_one. unfold day_changed. cbn [snd].
    unfold L. rewrite (parse_range_item 1 len false (day d1 - 1)) by lia.
    cbn [as_int mbind option_bind].
    replace (1 + (day d1 - 1)) with (day d1) by lia.
    set (p3 := with_columns _ p2).
    assert (Ha3 : announced p p3 d1 n) by exact Ha2.
    rewrite (announced_read p p3 d1 n Hlt Ha3). cbn [mbind option_bind].
    rewrite (civil_setDate_same d1 Hd).
    pose proof (announced_rewrite p p3 d1 n Hlt Ha3) as Ha4.
    destruct (announced_fire p _ d1 n Hlt Hm Ha4) as (p' & Hf & Hcs & Ha').
    exists p', cd'. split; [exact Hf|]. split; [exact Hcs|].
    split; [exact Hit|]. split; [exact Hi|]. exact Ha'.
Qed.

(** ** Events on the columns *)

Lemma range_index_bound (s e_ : Z) (i : Z) :
  0 <= i < Z.of_nat (length (range (Num s) e_ false)) → 0 <= i <= e_ - s.
Proof. rewrite range_length. lia. Qed.

(** An event on the year or the month column that changes its committed
    index. *)
Lemma date_column_change (b last : Z) (k : nat) (e : event) (p : picker)
    (d : date) (cy cm cd ck : column) :
  (k = 0%nat ∧ ck = cy ∧ 100 <= b <= last) ∨ (k = 1%nat ∧ ck = cm) →
  (∀ l i, e ≠ SetItems l i) →
  mode p = DateMode → read_date p = Some d → civil_date d →
  columns p = [cy; cm; cd] →
  items cy = range (Num b) last false →
  items cm = range (Num 1) 12 false →
  let ck' := fst (step ck e) in
  let i := currentIndex ck' in
  i ≠ currentIndex ck →
  let d1 := date_of_day (MakeDay (fst (asked b k i d)) (snd (asked b k i d))
                           (day d)) in
  ∃ (p' : picker) (cd' : column),
    column_event k e p = Some p'
    ∧ columns p' = <[2%nat := cd']> (<[k := ck']> [cy; cm; cd])
    ∧ items ck' = items ck
    ∧ 0 <= i < Z.of_nat (length (items ck))
    ∧ civil_date d1
    ∧ items cd'
      = range (Num 1) (monthLength (InLeapYear (fullYear d1)) (month d1)) false
    ∧ currentIndex cd' = day d1 - 1
    ∧ announced p p' d1
        ((if day d1 - 1 =? currentIndex cd then 0
          else if onChange p then 1 else 0)
         + (if onChange p then 1 else 0)).
Proof.
  intros Hk He Hm Hr Hd Hc Iy Im ck' i Hi d1.
  destruct (read_date_lt p d Hr) as [_ Hlt].
  pose proof (civil_day_bounds d Hd) as Hdd.
  pose proof Hd as (Hy & Hmo & _).
  assert (Hlook : columns p !! k = Some ck).
  { rewrite Hc. destruct Hk as [(-> & -> & _)|(-> & ->)]; reflexivity. }
  assert (Hlen : 0 < Z.of_nat (length (items ck))).
  { destruct Hk as [(_ & -> & Hb)|(_ & ->)].
    - rewrite Iy, range_length. lia.
    - rewrite Im, range_length. lia. }
  assert (Hne : items ck ≠ []).
  { intros E. rewrite E in Hlen. cbn in Hlen. lia. }
  pose proof (step_note ck e) as Hn.
  pose proof (step_items ck e He) as Hit.
  pose proof (step_commit_in_range ck e Hne He) as Hrg.
  fold ck' in Hit, Hrg. fold i in Hrg.
  destruct Hrg as [Hrg|Hrg]; [contradiction|].
  assert (Hcivil : civil_date d1).
  { unfold d1. apply carried_date; [| |exact Hdd].
    - destruct Hk as [(-> & -> & Hb)|(-> & ->)]; cbn [asked fst]; [lia|exact Hy].
    - destruct Hk as [(-> & -> & Hb)|(-> & ->)]; cbn [asked snd];
        [exact Hmo|]. rewrite Im, range_length in Hrg. lia. }
  unfold column_event. rewrite Hlook. cbn [mbind option_bind].
  destruct (step ck e) as [c' ns] eqn:Hstep. cbn [fst] in ck'. subst ck'.
  fold i in Hn.
  destruct (Z.eqb_spec i (currentIndex ck)) as [E|_]; [contradiction|].
  subst ns. rewrite handle_one, Hm. unfold getValue. fold i. rewrite Hit.
  set (p1 := with_columns (<[k := c']> (columns p)) p).
  assert (Hr1 : read_date p1 = Some d) by exact Hr.
  assert (Hstart :
            ∃ p2 : picker,
              handler DateMode k (i, item_at (items ck) i) p1
              = (p3 ← updateDayColumn p2; fire_onChange p3)
              ∧ announced p p2 d1 0
              ∧ columns p2 = <[k := c']> [cy; cm; cd]).
  { destruct Hk as [(-> & -> & Hb)|(-> & ->)]; cbn [handler].
    - unfold year_changed. cbn [snd]. rewrite Iy.
      rewrite (parse_range_item b last false i)
        by (apply range_index_bound; rewrite <- Iy; exact Hrg).
      cbn [as_int mbind option_bind]. rewrite Hr1. cbn [mbind option_bind].
      eexists. split; [reflexivity|]. split.
      + exact (announced_write p _ d _ 0 Hr eq_refl).
      + cbn. rewrite Hc. reflexivity.
    - unfold month_changed. cbn [snd]. rewrite Im.
      rewrite (parse_range_item 1 12 false i)
        by (apply range_index_bound; rewrite <- Im; exact Hrg).
      cbn [as_int mbind option_bind]. rewrite Hr1. cbn [mbind option_bind].
      replace (1 + i - 1) with i by lia.
      eexists. split; [reflexivity|]. split.
      + exact (announced_write p _ d _ 0 Hr eq_refl).
      + cbn. rewrite Hc. reflexivity. }
  destruct Hstart as (p2 & -> & Ha2 & Hc2).
  assert (Hc2' : ∃ cy' cm', columns p2 = [cy'; cm'; cd]
                            ∧ <[k := c']> [cy; cm; cd] = [cy'; cm'; cd]).
  { rewrite Hc2. destruct Hk as [(-> & _)|(-> & _)]; cbn;
      eexists; eexists; split; reflexivity. }
  destruct Hc2' as (cy' & cm' & Hc2' & Hins).
  destruct (updateDayColumn_civil p p2 d1 0 cy' cm' cd Hlt Hm Ha2 Hcivil Hc2')
    as (p3 & cd' & Hu & Hc3 & Hi3 & Hk3 & Ha3).
  rewrite Hu. cbn [mbind option_bind].
  destruct (announced_fire p p3 d1 _ Hlt Hm Ha3) as (p' & Hf & Hc' & Ha').
  exists p', cd'. split; [exact Hf|].
  split; [rewrite Hc', Hc3, Hins; reflexivity|].
  split; [reflexivity|]. split; [exact Hrg|]. split; [exact Hcivil|].
  split; [exact Hi3|]. split; [exact Hk3|].
  exact Ha'.
Qed.



(** X17.  A card opened in date mode on a date object of the caller shows that
    date: the year column holds the years from the birth year to the
    clock's year plus one, the month column the months 1 to 12, the day
    column the days of the date's month, and the month and day columns
    (and the year column, when the date's year is among the years) stand
    on the date.  Nothing has been called, and the heap is as it was. *)
Theorem date_card_opens_synced
    (e : env) (h : heap) (l : loc) (d : date) (b : Z) (oc ocf : bool) :
  birthYear_of (settings e) = Num b →
  h !! l = Some (ODate d) →
  civil_date d →
  ∃ p : picker,
    create DateMode e h (Some l) oc ocf = Some p
    ∧ date_synced b (fullYear (now e) + 1) d p
    ∧ currentValue p = l ∧ store p = h ∧ calls p = [].
Proof.
  intros Hb Hl Hd. cbn [create]. unfold create_date. rewrite Hl, Hl.
  eexists. split; [reflexivity|]. split; [|repeat split].
  split; [reflexivity|]. split.
  { unfold read_date. cbn [store currentValue]. rewrite Hl. reflexivity. }
  eexists. eexists. eexists. split; [reflexivity|].
  unfold getYearRange. rewrite Hb.
  split; [reflexivity|]. split.
  { intros Hy. unfold createWheelColumn, setPosition. cbn [currentIndex].
    unfold indexOf, range. rewrite index_from_range, length_range_loop.
    destruct (Z.leb_spec b (fullYear d)),
      (Z.ltb_spec (fullYear d)
         (b + Z.of_nat (Z.to_nat (fullYear (now e) + 1 - b + 1))));
      cbn [andb]; try lia.
    unfold with_currentY. cbn [currentIndex].
    destruct (Z.leb_spec 0 (0 + (fullYear d - b))); lia. }
  split; [reflexivity|]. split; [reflexivity|].
  rewrite (civil_days d Hd). split; reflexivity.
Qed.

Lemma date_card_opens_synced_witness :
  let e := mkEnv ItemMissing (mkDate 2024 5 10) 9 15 in
  let d := mkDate 2024 0 31 in
  birthYear_of (settings e) = Num 2000
  ∧ [ODate d] !! 0%nat = Some (ODate d)
  ∧ civil_date d
  ∧ ∃ p : picker,
      create DateMode e [ODate d] (Some 0%nat) true true = Some p
      ∧ date_synced 2000 2025 d p
      ∧ currentValue p = 0%nat ∧ store p = [ODate d] ∧ calls p = [].
Proof.
  cbv zeta.
  assert (Hd : civil_date (mkDate 2024 0 31))
    by (unfold civil_date; cbn; lia).
  split; [reflexivity|]. split; [reflexivity|]. split; [exact Hd|].
  exact (date_card_opens_synced
           (mkEnv ItemMissing (mkDate 2024 5 10) 9 15) [ODate (mkDate 2024 0 31)]
           0%nat (mkDate 2024 0 31) 2000 true true eq_refl eq_refl Hd).
Defined.



(** X19.  When the value's day does not fit the month that the year or the month
    column asks for (the 31st on a month of 30 days, the 29th to 31st on
    February), [setFullYear] and [setMonth] carry the date into the
    following month: the value becomes the day [day - length] of the month
    after the one asked for, while the month column stands on the month
    asked for.  The day column is given the days of the following month and
    stands on the value's new day, and [onChange] is called twice with
    copies of that date, once by the day column and once by the column of
    the event. *)
Theorem date_card_carries_a_day_that_does_not_fit
    (b last : Z) (d : date) (p : picker) (k : nat) (e : event) (ck : column) :
  100 <= b <= last →
  civil_date d →
  date_synced b last d p →
  (∀ l i, e ≠ SetItems l i) →
  (k < 2)%nat →
  columns p !! k = Some ck →
  let i := currentIndex (fst (step ck e)) in
  i ≠ currentIndex ck →
  let y' := fst (asked b k i d) in
  let m' := snd (asked b k i d) in
  let len := monthLength (InLeapYear y') m' in
  len < day d →
  let d' := mkDate y' (m' + 1) (day d - len) in
  ∃ (p' : picker) (cy' cm' cd' : column),
    column_event k e p = Some p'
    ∧ read_date p' = Some d'
    ∧ civil_date d'
    ∧ columns p' = [cy'; cm'; cd']
    ∧ currentIndex cm' = m'
    ∧ items cd'
      = range (Num 1) (monthLength (InLeapYear y') (m' + 1)) false
    ∧ currentIndex cd' = day d' - 1
    ∧ announced p p' d' (if onChange p then 2 else 0).
Proof.
  intros Hb Hd (Hm & Hr & cy & cm & cd & Hc & Iy & Ky & Im & Km & Id & Kd)
    He Hk Hl i Hi y' m' len Hover d'.
  pose proof (civil_day_bounds d Hd) as Hdd.
  pose proof Hd as (Hy & Hmo & Hday).
  assert (Hck : (k = 0%nat ∧ ck = cy ∧ 100 <= b <= last)
                ∨ (k = 1%nat ∧ ck = cm)).
  { rewrite Hc in Hl. destruct k as [|[|k]]; [left|right|lia];
      cbn in Hl; apply (inj Some) in Hl; auto. }
  destruct (date_column_change b last k e p d cy cm cd ck Hck
              He Hm Hr Hd Hc Iy Im Hi)
    as (p' & cd' & Hs & Hc' & Hit & Hrg & Hciv & Id' & Kd' & Ha).
  fold i in Hciv, Id', Kd', Ha, Hrg. fold y' m' in Hciv, Id', Kd', Ha.
  assert (Hy' : ¬ (0 <= y' <= 99)).
  { subst y'. destruct Hck as [(-> & _)|(-> & _)]; cbn [asked fst]; lia. }
  assert (Hm' : 0 <= m' <= 11).
  { subst m'. destruct Hck as [(-> & _)|(-> & ->)]; cbn [asked snd];
      [exact Hmo|]. rewrite Im, range_length in Hrg. lia. }
  destruct (carried_date y' m' (day d) Hy' Hm' Hdd) as (_ & _ & Hcar).
  destruct (Hcar Hover) as (_ & E). fold len in E. fold d' in E.
  rewrite E in *. clear E.
  destruct (month_bounds (InLeapYear y') m' Hm') as (_ & Hlen & _).
  fold len in Hlen.
  exists p'.
  assert (Hcols : ∃ cy' cm', <[k := fst (step ck e)]> [cy; cm; cd]
                             = [cy'; cm'; cd] ∧ currentIndex cm' = m').
  { subst m'. destruct Hck as [(-> & -> & _)|(-> & ->)]; cbn;
      eexists; eexists; split; try reflexivity. exact Km. }
  destruct Hcols as (cy' & cm' & Hins & Kcm).
  exists cy', cm', cd'. split; [exact Hs|].
  split; [exact (announced_read p p' _ _ (proj2 (read_date_lt p d Hr)) Ha)|].
  split; [exact Hciv|]. split; [rewrite Hc', Hins; reflexivity|].
  split; [exact Kcm|]. split; [exact Id'|]. split; [exact Kd'|].
  unfold d' in Ha. cbn [day] in Ha. rewrite Kd in Ha.
  destruct (Z.eqb_spec (day d - len - 1) (day d - 1)) as [E|_]; [lia|].
  destruct (onChange p); exact Ha.
Qed.

Lemma date_card_carries_a_day_that_does_not_fit_witness :
  let d := mkDate 2024 0 31 in
  let cm := createWheelColumn (range (Num 1) 12 false) 0 in
  let p := mkPicker DateMode 0%nat
             [createWheelColumn (range (Num 2000) 2025 false) 24; cm;
              createWheelColumn (range (Num 1) 31 false) 30]
             true true [ODate d] [] true in
  100 <= 2000 <= 2025
  ∧ civil_date d
  ∧ date_synced 2000 2025 d p
  ∧ (∀ l i, SetIndex 1 true ≠ SetItems l i)
  ∧ (1 < 2)%nat
  ∧ columns p !! 1%nat = Some cm
  ∧ 1 ≠ currentIndex cm
  ∧ monthLength (InLeapYear 2024) 1 < 31
  ∧ ∃ (p' : picker) (cy' cm' cd' : column),
      column_event 1 (SetIndex 1 true) p = Some p'
      ∧ read_date p' = Some (mkDate 2024 2 2)
      ∧ civil_date (mkDate 2024 2 2)
      ∧ columns p' = [cy'; cm'; cd']
      ∧ currentIndex cm' = 1
      ∧ items cd' = range (Num 1) 31 false
      ∧ currentIndex cd' = 1
      ∧ announced p p' (mkDate 2024 2 2) 2.
Proof.
  cbv zeta.
  assert (Hd : civil_date (mkDate 2024 0 31))
    by (unfold civil_date; cbn; lia).
  assert (Hs : date_synced 2000 2025 (mkDate 2024 0 31)
                 (mkPicker DateMode 0%nat
                    [createWheelColumn (range (Num 2000) 2025 false) 24;
                     createWheelColumn (range (Num 1) 12 false) 0;
                     createWheelColumn (range (Num 1) 31 false) 30]
                    true true [ODate (mkDate 2024 0 31)] [] true)).
  { split; [reflexivity|]. split; [reflexivity|].
    eexists. eexists. eexists. split; [reflexivity|].
    split; [reflexivity|]. split; [intros _; reflexivity|].
    repeat split. }
  assert (He : ∀ l i, SetIndex 1 true ≠ SetItems l i)
    by (intros l i H; discriminate H).
  assert (Hi : 1 ≠ currentIndex (createWheelColumn (range (Num 1) 12 false) 0))
    by (cbn; lia).
  assert (Hf : monthLength (InLeapYear 2024) 1 < 31)
    by (vm_compute; reflexivity).
  split; [lia|]. split; [exact Hd|]. split; [exact Hs|]. split; [exact He|].
  split; [lia|]. split; [reflexivity|]. split; [exact Hi|]. split; [exact Hf|].
  exact (date_card_carries_a_day_that_does_not_fit 2000 2025
           (mkDate 2024 0 31) _ 1 (SetIndex 1 true)
           (createWheelColumn (range (Num 1) 12 false) 0)
           ltac:(lia) Hd Hs He ltac:(lia) eq_refl Hi Hf).
Defined.


(** ** The quick button in date mode *)







